(** * Knob generator: the mesh engine of [knob_lib.py]

    A shallow embedding of the profile generators and of
    [generate_knob_mesh], over the real numbers, followed by the properties
    of the engine.

    Python floats are read as real numbers ([R]): [math.cos], [math.sin],
    [math.tan], [math.sqrt] and [math.pi] are [cos], [sin], [tan], [sqrt] and
    [PI].  Python integers are [Z]; loop indices and list positions are
    [nat].  Operations that can raise are written in an error monad:
    division and [%] by zero ([ZeroDivisionError]), [math.sqrt] of a negative
    number ([ValueError]), list indexing out of range ([IndexError]) and
    subscripting [None] ([TypeError]).  The two accumulators of
    [generate_knob_mesh], [all_vertices] and [all_faces], are an explicit
    state threaded through the builders. *)

From Stdlib Require Import Reals Lra Lia ZArith String List Bool Arith.
Import ListNotations.

Local Open Scope R_scope.

#[local] Arguments INR : simpl never.
#[local] Arguments IZR : simpl never.
#[local] Arguments pow : simpl never.
#[local] Arguments Rmax : simpl never.

(* ------------------------------------------------------------------ *)
(** ** Errors and the error monad *)

Inductive PyError : Type :=
| IndexError
| ZeroDivisionError
| TypeError
| ValueError.

Inductive result (A : Type) : Type :=
| Ok (a : A)
| Raise (e : PyError).

Arguments Ok {A} a.
Arguments Raise {A} e.

Definition rbind {A B : Type} (r : result A) (k : A -> result B) : result B :=
  match r with
  | Ok a => k a
  | Raise e => Raise e
  end.

Declare Scope result_scope.
Delimit Scope result_scope with result.
Notation "x <- e ;; k" := (rbind e (fun x => k))
  (at level 61, e at next level, right associativity) : result_scope.
Notation "' pat <- e ;; k" := (rbind e (fun x => match x with pat => k end))
  (at level 61, pat pattern, e at next level, right associativity) : result_scope.

(** [mapM f l] is the loop [for x in l: out.append(f(x))]; the first
    exception aborts it. *)
Fixpoint mapM {A B : Type} (f : A -> result B) (l : list A) : result (list B) :=
  match l with
  | [] => Ok []
  | x :: xs =>
      match f x with
      | Raise e => Raise e
      | Ok y =>
          match mapM f xs with
          | Raise e => Raise e
          | Ok ys => Ok (y :: ys)
          end
      end
  end.

(* ------------------------------------------------------------------ *)
(** ** Float operations *)

Definition Rgtb (a b : R) : bool := if Rgt_dec a b then true else false.
Definition Rltb (a b : R) : bool := if Rlt_dec a b then true else false.
Definition Rleb (a b : R) : bool := if Rle_dec a b then true else false.
Definition Reqb (a b : R) : bool := if Req_dec_T a b then true else false.

(** [a / b] *)
Definition py_div (a b : R) : result R :=
  if Reqb b 0 then Raise ZeroDivisionError else Ok (a / b).

(** [a % b] on floats: the result has the sign of [b]. *)
Definition py_mod (a b : R) : result R :=
  if Reqb b 0 then Raise ZeroDivisionError
  else Ok (a - b * IZR (Int_part (a / b))).

(** [math.sqrt(x)] *)
Definition py_sqrt (x : R) : result R :=
  if Rltb x 0 then Raise ValueError else Ok (sqrt x).

(** [range(n)]: empty when [n <= 0]. *)
Definition range (n : Z) : list nat := seq 0 (Z.to_nat n).

(** [range(1, n + 1)] for a literal [n]. *)
Definition range1 (n : nat) : list nat := seq 1 n.

(** [l[i]] for [i >= 0]. *)
Definition py_index {A : Type} (l : list A) (i : nat) : result A :=
  match nth_error l i with
  | Some x => Ok x
  | None => Raise IndexError
  end.

(** [l[-1]] *)
Definition py_last {A : Type} (l : list A) : result A :=
  match l with
  | [] => Raise IndexError
  | x :: xs => Ok (last xs x)
  end.

(* ------------------------------------------------------------------ *)
(** ** Profiles *)

Definition Point2 : Type := R * R.
Definition Point3 : Type := R * R * R.

Definition px (p : Point3) : R := fst (fst p).
Definition py (p : Point3) : R := snd (fst p).
Definition pz (p : Point3) : R := snd p.

Local Open Scope result_scope.

Definition create_circle_profile (diameter : R) (segments : Z)
  : result (list Point2) :=
  let radius := diameter / 2 in
  mapM (fun i : nat =>
          angle <- py_div (2 * PI * INR i) (IZR segments) ;;
          Ok (radius * cos angle, radius * sin angle))
       (range segments).

Definition create_lobed_profile (diameter : R) (lobes : Z)
           (protrusion_ratio : R) (segments : Z) : result (list Point2) :=
  let r_outer := diameter / 2 in
  let depth_factor := 0.6 * protrusion_ratio in
  let r_inner := r_outer * (1 - depth_factor) in
  let r_mid := (r_outer + r_inner) / 2 in
  let amp := (r_outer - r_inner) / 2 in
  mapM (fun i : nat =>
          angle <- py_div (2 * PI * INR i) (IZR segments) ;;
          let r := r_mid + amp * cos (IZR lobes * angle) in
          Ok (r * cos angle, r * sin angle))
       (range segments).

Definition create_polygon_profile (diameter : R) (sides : Z) (segments : Z)
  : result (list Point2) :=
  radius <- py_div (diameter / 2) (sqrt 3 / 2) ;;
  let rotation := 0 in
  let apothem := diameter / 2 in
  period <- py_div (2 * PI) (IZR sides) ;;
  mapM (fun i : nat =>
          theta <- py_div (2 * PI * INR i) (IZR segments) ;;
          angle_in_sector <- py_mod (theta - rotation) period ;;
          let angle_from_center := angle_in_sector - period / 2 in
          r <- py_div apothem (cos angle_from_center) ;;
          Ok (r * cos theta, r * sin theta))
       (range segments).

Definition create_d_shaft_profile (diameter flat_to_opposite : R)
           (segments : Z) : result (list Point2) :=
  let radius := diameter / 2 in
  let d_center_to_flat := flat_to_opposite - radius in
  mapM (fun i : nat =>
          angle <- py_div (2 * PI * INR i) (IZR segments) ;;
          let rx := radius * cos angle in
          let ry := radius * sin angle in
          if Rgtb rx d_center_to_flat then
            let rx_new := d_center_to_flat in
            let ry_new := d_center_to_flat * tan angle in
            Ok (rx_new, ry_new)
          else Ok (rx, ry))
       (range segments).

Local Close Scope result_scope.

(* ------------------------------------------------------------------ *)
(** ** Mesh state: [all_vertices] and [all_faces] *)

(** A face is a list of three indices into [all_vertices]. *)
Definition Face : Type := nat * nat * nat.

Record MeshState : Type := mkMeshState {
  all_vertices : list Point3;
  all_faces : list Face
}.

Definition empty_mesh_state : MeshState := mkMeshState [] [].

(** A builder reads and extends the two accumulators and may raise. *)
Definition builder (A : Type) : Type := MeshState -> result (A * MeshState).

Definition mret {A : Type} (a : A) : builder A := fun st => Ok (a, st).

Definition mbind {A B : Type} (m : builder A) (k : A -> builder B) : builder B :=
  fun st =>
    match m st with
    | Ok (a, st') => k a st'
    | Raise e => Raise e
    end.

Definition lift {A : Type} (r : result A) : builder A :=
  fun st =>
    match r with
    | Ok a => Ok (a, st)
    | Raise e => Raise e
    end.

Declare Scope builder_scope.
Delimit Scope builder_scope with builder.
Notation "x <- e ;; k" := (mbind e (fun x => k))
  (at level 61, e at next level, right associativity) : builder_scope.
Notation "e ;;; k" := (mbind e (fun _ => k))
  (at level 61, right associativity) : builder_scope.

(** [for x in l: body(x)] *)
Fixpoint for_each {A : Type} (l : list A) (body : A -> builder unit)
  : builder unit :=
  match l with
  | [] => mret tt
  | x :: xs => mbind (body x) (fun _ => for_each xs body)
  end.

(** [len(all_vertices)] *)
Definition len_vertices : builder nat :=
  fun st => Ok (length (all_vertices st), st).

(** [all_vertices.extend(ps)] ([append] is [extend] with one point). *)
Definition extend_vertices (ps : list Point3) : builder unit :=
  fun st => Ok (tt, mkMeshState (all_vertices st ++ ps) (all_faces st)).

(** [all_faces.append(f)] *)
Definition append_face (f : Face) : builder unit :=
  fun st => Ok (tt, mkMeshState (all_vertices st) (all_faces st ++ [f])).

Local Open Scope builder_scope.

Definition add_quad (p1 p2 p3 p4 : Point3) (flip : bool) : builder unit :=
  idx <- len_vertices ;;
  extend_vertices [p1; p2; p3; p4] ;;;
  if flip then
    append_face (idx, idx + 2, idx + 1)%nat ;;;
    append_face (idx, idx + 3, idx + 2)%nat
  else
    append_face (idx, idx + 1, idx + 2)%nat ;;;
    append_face (idx, idx + 2, idx + 3)%nat.

(** [(i + 1) % segments] *)
Definition next_index (i : nat) (segments : Z) : nat :=
  Z.to_nat ((Z.of_nat i + 1) mod segments).

(** The loop that joins two rings, written out four times in the source
    (shell stitching, recess rim, dish rings, open top):
[[
    for i in range(segments):
        next_i = (i + 1) % segments
        add_quad(curr[i], curr[next_i], nxt[next_i], nxt[i])
]] *)
Definition stitch_pair (segments : Z) (curr nxt : list Point3) : builder unit :=
  for_each (range segments) (fun i =>
    let next_i := next_index i segments in
    c_i <- lift (py_index curr i) ;;
    c_n <- lift (py_index curr next_i) ;;
    n_n <- lift (py_index nxt next_i) ;;
    n_i <- lift (py_index nxt i) ;;
    add_quad c_i c_n n_n n_i false).

(** The apex fan, written out four times in the source (dome top, dish
    bottom, flat top, bore top):
[[
    idx_c = len(all_vertices)
    all_vertices.append(center)
    for i in range(segments):
        next_i = (i + 1) % segments
        idx_o1 = len(all_vertices)
        idx_o2 = idx_o1 + 1
        all_vertices.extend([ring[i], ring[next_i]])
        all_faces.append([idx_c, idx_o1, idx_o2])
]] *)
Definition apex_fan (segments : Z) (center : Point3) (ring : list Point3)
  : builder unit :=
  idx_c <- len_vertices ;;
  extend_vertices [center] ;;;
  for_each (range segments) (fun i =>
    let next_i := next_index i segments in
    idx_o1 <- len_vertices ;;
    let idx_o2 := (idx_o1 + 1)%nat in
    r_i <- lift (py_index ring i) ;;
    r_n <- lift (py_index ring next_i) ;;
    extend_vertices [r_i; r_n] ;;;
    append_face (idx_c, idx_o1, idx_o2)).

Local Close Scope builder_scope.

(* ------------------------------------------------------------------ *)
(** ** Parameters of [generate_knob_mesh] *)

(** An entry of [NUT_TYPES]; [tolerance] is read with
    [nut_info.get("tolerance", 0.2)]. *)
Record NutInfo : Type := mkNutInfo {
  width : R;
  height : R;
  tolerance : option R
}.

Record KnobParams : Type := mkKnobParams {
  knob_diameter : R;
  knob_height : R;
  knob_style : string;
  lobes : Z;
  lobe_protrusion : R;
  ridges : Z;
  top_fillet_radius : R;
  top_fillet_height : R;
  bottom_fillet_radius : R;
  bottom_fillet_height : R;
  is_dome : bool;
  boss_height : R;
  boss_diameter : R;
  recess_depth : R;
  recess_diameter : R;
  shaft_type : string;
  shaft_dia : R;
  hole_depth : R;
  through_hole : bool;
  nut_info : option NutInfo;
  nut_location : string;
  segments : Z
}.

(** [nut_info["width"] + nut_info.get("tolerance", 0.2)] *)
Definition nut_pocket_width (ni : option NutInfo) : result R :=
  match ni with
  | None => Raise TypeError
  | Some n => Ok (width n + match tolerance n with Some t => t | None => 0.2 end)
  end.

(** [nut_info["height"] + 0.2] *)
Definition nut_pocket_height (ni : option NutInfo) : result R :=
  match ni with
  | None => Raise TypeError
  | Some n => Ok (height n + 0.2)
  end.

(** Truth value of [nut_info] in a condition. *)
Definition nut_truthy (ni : option NutInfo) : bool :=
  match ni with Some _ => true | None => false end.

Local Open Scope result_scope.

(* ------------------------------------------------------------------ *)
(** ** 1. Profiles *)

Definition body_profile_of (p : KnobParams) : result (list Point2) :=
  if String.eqb (knob_style p) "Lobed" then
    create_lobed_profile (knob_diameter p) (lobes p) (lobe_protrusion p) (segments p)
  else if (ridges p >? 0)%Z then
    let grip_depth := 0.05 in
    create_lobed_profile (knob_diameter p) (ridges p) grip_depth (segments p)
  else create_circle_profile (knob_diameter p) (segments p).

Definition boss_profile_of (p : KnobParams) : result (list Point2) :=
  create_circle_profile (boss_diameter p) (segments p).

Definition shaft_profile_of (p : KnobParams) : result (list Point2) :=
  if String.eqb (shaft_type p) "D-Shaft" then
    let flat_val := if Reqb (shaft_dia p) 6 then 4.5 else shaft_dia p * 0.75 in
    create_d_shaft_profile (shaft_dia p) flat_val (segments p)
  else if String.eqb (shaft_type p) "Nut Trap" && nut_truthy (nut_info p) then
    create_circle_profile (shaft_dia p) (segments p)
  else create_circle_profile (shaft_dia p) (segments p).

(* ------------------------------------------------------------------ *)
(** ** 3. Outer shell: the ring stack *)

(** [[(p[0], p[1], z) for p in profile]] *)
Definition ring_at (z : R) (profile : list Point2) : list Point3 :=
  map (fun p => (fst p, snd p, z)) profile.

(** [scale = (mag - inset) / mag if mag > 0.001 else 1.0] *)
Definition radial_scale (mag inset : R) : result R :=
  if Rgtb mag 0.001 then py_div (mag - inset) mag else Ok 1.

(** The ring of a bottom-fillet or top-fillet step:
[[
    new_ring = []
    for p in body_profile:
        mag = math.sqrt(p[0]**2 + p[1]**2)
        scale = (mag - inset) / mag if mag > 0.001 else 1.0
        new_ring.append((p[0]*scale, p[1]*scale, z))
]] *)
Definition inset_ring (inset z : R) (body_profile : list Point2)
  : result (list Point3) :=
  mapM (fun p : Point2 =>
          mag <- py_sqrt (fst p ^ 2 + snd p ^ 2) ;;
          scale <- radial_scale mag inset ;;
          Ok (fst p * scale, snd p * scale, z))
       body_profile.

Definition bottom_fillet_rings (p : KnobParams) (z_base : R)
           (body_profile : list Point2) : result (list (list Point3)) :=
  let b_fillet_steps := 6%nat in
  mapM (fun s : nat =>
          let t := INR s / INR b_fillet_steps in
          let z_f := z_base + bottom_fillet_height p * t in
          let inset :=
            if Rgtb (bottom_fillet_height p) 0 then
              let ratio := 1 - sin (t * PI / 2) in
              bottom_fillet_radius p * ratio
            else 0 in
          inset_ring inset z_f body_profile)
       (seq 0 (b_fillet_steps + 1)).

Definition dome_rings (z_top_abs z_fillet_start : R)
           (body_profile : list Point2) : result (list (list Point3)) :=
  let dome_steps := 12%nat in
  let h_dome := z_top_abs - z_fillet_start in
  mapM (fun s : nat =>
          let t := INR s / INR dome_steps in
          let z_curr := z_fillet_start + h_dome * t in
          let z_local := z_curr - z_fillet_start in
          r_factor <-
            (if Rgtb h_dome 0 then
               q <- py_div z_local h_dome ;;
               py_sqrt (Rmax 0 (1 - q ^ 2))
             else Ok 0) ;;
          Ok (map (fun pt : Point2 => (fst pt * r_factor, snd pt * r_factor, z_curr))
                  body_profile))
       (range1 dome_steps).

Definition top_fillet_rings (p : KnobParams) (z_fillet_start : R)
           (body_profile : list Point2) : result (list (list Point3)) :=
  let fillet_steps := 8%nat in
  mapM (fun s : nat =>
          let t := INR s / INR fillet_steps in
          let dz_fillet_local := top_fillet_height p * t in
          let z_curr := z_fillet_start + dz_fillet_local in
          inset <-
            (if Rgtb (top_fillet_height p) 0 then
               q <- py_div dz_fillet_local (top_fillet_height p) ;;
               sq <- py_sqrt (Rmax 0 (1 - q ^ 2)) ;;
               Ok (top_fillet_radius p * (1 - sq))
             else Ok 0) ;;
          inset_ring inset z_curr body_profile)
       (range1 fillet_steps).

(** Returns [(outer_rings, z_base)]. *)
Definition outer_shell_rings (p : KnobParams)
           (body_profile boss_profile : list Point2)
  : result (list (list Point3) * R) :=
  let '(outer_rings, z_base) :=
    if Rgtb (boss_height p) 0.1 then
      ([ring_at 0 boss_profile; ring_at (boss_height p) boss_profile],
       boss_height p)
    else ([], 0) in
  '(outer_rings, current_z) <-
    (if Rgtb (bottom_fillet_radius p) 0 || Rgtb (bottom_fillet_height p) 0 then
       rings <- bottom_fillet_rings p z_base body_profile ;;
       Ok (outer_rings ++ rings, z_base + bottom_fillet_height p)
     else
       Ok (outer_rings ++ [ring_at z_base body_profile], z_base)) ;;
  let z_top_abs := z_base + knob_height p in
  let z_fillet_start := Rmax current_z (z_top_abs - top_fillet_height p) in
  let z_fillet_start := if is_dome p then current_z else z_fillet_start in
  let outer_rings := outer_rings ++ [ring_at z_fillet_start body_profile] in
  outer_rings <-
    (if is_dome p then
       rings <- dome_rings z_top_abs z_fillet_start body_profile ;;
       Ok (outer_rings ++ rings)
     else if Rgtb (top_fillet_radius p) 0 || Rgtb (top_fillet_height p) 0 then
       rings <- top_fillet_rings p z_fillet_start body_profile ;;
       Ok (outer_rings ++ rings)
     else Ok outer_rings) ;;
  Ok (outer_rings, z_base).

Local Close Scope result_scope.
Local Open Scope builder_scope.

(** Stitch outer shell:
[[
    for r in range(len(outer_rings) - 1):
        ring_curr = outer_rings[r]
        ring_next = outer_rings[r+1]
        for i in range(segments): ...
]] *)
Definition stitch_outer_shell (segments : Z) (outer_rings : list (list Point3))
  : builder unit :=
  for_each (seq 0 (length outer_rings - 1)) (fun r =>
    ring_curr <- lift (py_index outer_rings r) ;;
    ring_next <- lift (py_index outer_rings (r + 1)) ;;
    stitch_pair segments ring_curr ring_next).

(* ------------------------------------------------------------------ *)
(** ** 4. Top closure / recess *)

(** The dish loop, [for s in range(1, dish_steps + 1)], with its [break]:
    [steps] are the values of [s] still to run.  The clamp [curr_r < hole_r]
    and the test of the [break], [curr_r <= hole_r + 0.001], compare real
    numbers here: where a radius comes within rounding of its threshold
    the floats of the source can take the other branch, so the number of
    steps run is exact away from those thresholds only. *)
Fixpoint dish_loop (p : KnobParams) (z_top_mesh hole_r : R)
         (steps : list nat) (dish_rings : list (list Point3))
  : result (list (list Point3)) :=
  match steps with
  | [] => Ok dish_rings
  | s :: rest =>
      let dish_steps := 5%nat in
      let t := INR s / INR dish_steps in
      let curr_radius_factor := 1 - t in
      let curr_r := recess_diameter p / 2 * curr_radius_factor in
      let z_curr := z_top_mesh - recess_depth p * (1 - curr_radius_factor ^ 2) in
      let curr_r := if Rltb curr_r hole_r then hole_r else curr_r in
      rbind
        (mapM (fun i : nat =>
                 rbind (py_div (2 * PI * INR i) (IZR (segments p)))
                       (fun angle =>
                          Ok (curr_r * cos angle, curr_r * sin angle, z_curr)))
              (range (segments p)))
        (fun poly =>
           let dish_rings := dish_rings ++ [poly] in
           if Rleb curr_r (hole_r + 0.001) then Ok dish_rings
           else dish_loop p z_top_mesh hole_r rest dish_rings)
  end.

(** [is_open = through_hole or (shaft_type == "Nut Trap" and nut_location == "Top")] *)
Definition is_open_top (p : KnobParams) : bool :=
  through_hole p
  || (String.eqb (shaft_type p) "Nut Trap" && String.eqb (nut_location p) "Top").

(** [math.sqrt(ring[0][0]**2 + ring[0][1]**2)] *)
Definition first_point_radius (ring : list Point3) : result R :=
  rbind (py_index ring 0) (fun q => py_sqrt (px q ^ 2 + py q ^ 2)).

(** Builds the top of the knob; returns [z_shaft_top_limit]. *)
Definition top_closure (p : KnobParams) (outer_rings : list (list Point3))
           (z_base : R) : builder R :=
  top_outer_ring <- lift (py_last outer_rings) ;;
  first <- lift (py_index top_outer_ring 0) ;;
  let z_top_mesh := pz first in
  let total_z_height := z_base + knob_height p in
  let z_shaft_top_limit := hole_depth p in
  let z_shaft_top_limit :=
    if through_hole p then
      if is_dome p then total_z_height
      else if Rgtb (recess_depth p) 0 then
        Rmax z_base (total_z_height - recess_depth p)
      else total_z_height
    else z_shaft_top_limit in
  if is_dome p then
    final_r <- lift (first_point_radius top_outer_ring) ;;
    (if Rgtb final_r 0.1 then
       apex_fan (segments p) (0, 0, z_top_mesh) top_outer_ring
     else mret tt) ;;;
    mret z_shaft_top_limit
  else if Rgtb (recess_depth p) 0 then
    let z_floor_abs := z_top_mesh - recess_depth p in
    recess_start_poly <-
      lift (create_circle_profile (recess_diameter p) (segments p)) ;;
    let recess_start_ring := ring_at z_top_mesh recess_start_poly in
    stitch_pair (segments p) top_outer_ring recess_start_ring ;;;
    let dish_steps := 5%nat in
    let dish_rings := [recess_start_ring] in
    let hole_r := if through_hole p then shaft_dia p / 2 else 0 in
    dish_rings <-
      lift (dish_loop p z_top_mesh hole_r (range1 dish_steps) dish_rings) ;;
    for_each (seq 0 (length dish_rings - 1)) (fun r =>
      curr <- lift (py_index dish_rings r) ;;
      nxt <- lift (py_index dish_rings (r + 1)) ;;
      stitch_pair (segments p) curr nxt) ;;;
    final_ring <- lift (py_last dish_rings) ;;
    final_first <- lift (py_index final_ring 0) ;;
    let z_final := pz final_first in
    let z_shaft_top_limit := z_final in
    final_r <- lift (first_point_radius final_ring) ;;
    let is_open := is_open_top p in
    (if negb is_open && Rgtb final_r 0.1 then
       apex_fan (segments p) (0, 0, z_final) final_ring
     else mret tt) ;;;
    mret z_shaft_top_limit
  else
    let is_open := is_open_top p in
    if is_open then
      prof <- lift (create_circle_profile (shaft_dia p) (segments p)) ;;
      prof <-
        (if String.eqb (shaft_type p) "Nut Trap"
            && String.eqb (nut_location p) "Top" then
           w <- lift (nut_pocket_width (nut_info p)) ;;
           lift (create_polygon_profile w 6 (segments p))
         else mret prof) ;;
      let hole_poly := ring_at z_top_mesh prof in
      stitch_pair (segments p) top_outer_ring hole_poly ;;;
      let z_shaft_top_limit := z_top_mesh in
      mret z_shaft_top_limit
    else
      apex_fan (segments p) (0, 0, z_top_mesh) top_outer_ring ;;;
      mret z_shaft_top_limit.

(* ------------------------------------------------------------------ *)
(** ** 5. Inner cavity and 6. bottom *)

(** [[v[0], v[1], z]] *)
Definition at_z (z : R) (v : Point2) : Point3 := (fst v, snd v, z).

(** The vertical wall of a cavity, written out twice in the source (hex
    pocket and bore):
[[
    for i in range(segments):
        next_i = (i + 1) % segments
        p1 = [prof[i][0], prof[i][1], z_lo]
        p2 = [prof[next_i][0], prof[next_i][1], z_lo]
        p3 = [prof[next_i][0], prof[next_i][1], z_hi]
        p4 = [prof[i][0], prof[i][1], z_hi]
        add_quad(p1, p2, p3, p4, flip=True)
]] *)
Definition cavity_wall (segments : Z) (prof : list Point2) (z_lo z_hi : R)
  : builder unit :=
  for_each (range segments) (fun i =>
    let next_i := next_index i segments in
    v_i <- lift (py_index prof i) ;;
    v_n <- lift (py_index prof next_i) ;;
    let p1 := at_z z_lo v_i in
    let p2 := at_z z_lo v_n in
    let p3 := at_z z_hi v_n in
    let p4 := at_z z_hi v_i in
    add_quad p1 p2 p3 p4 true).

Definition is_nut_trap (p : KnobParams) : bool :=
  String.eqb (shaft_type p) "Nut Trap".

Definition nut_at_bottom (p : KnobParams) : bool :=
  String.eqb (nut_location p) "Bottom".

(** The hex pocket and the ring from its top edge to the bolt bore. *)
Definition nut_trap_pocket (p : KnobParams) : builder unit :=
  if is_nut_trap p && nut_truthy (nut_info p) then
    w <- lift (nut_pocket_width (nut_info p)) ;;
    h <- lift (nut_pocket_height (nut_info p)) ;;
    trap_poly <- lift (create_polygon_profile w 6 (segments p)) ;;
    if nut_at_bottom p then
      cavity_wall (segments p) trap_poly 0 h ;;;
      shaft_p <- lift (create_circle_profile (shaft_dia p) (segments p)) ;;
      for_each (range (segments p)) (fun i =>
        let next_i := next_index i (segments p) in
        tp_i <- lift (py_index trap_poly i) ;;
        tp_n <- lift (py_index trap_poly next_i) ;;
        sp_i <- lift (py_index shaft_p i) ;;
        sp_n <- lift (py_index shaft_p next_i) ;;
        let t1 := at_z h tp_i in
        let t2 := at_z h tp_n in
        let s1 := at_z h sp_i in
        let s2 := at_z h sp_n in
        add_quad t2 t1 s1 s2 false)
    else mret tt
  else mret tt.

(** The bore wall between [z_bot] and [z_top] and, for a blind bore that
    is not a nut trap, the fan over its top. *)
Definition shaft_bore (p : KnobParams) (shaft_profile : list Point2)
           (z_shaft_top_limit : R) : builder unit :=
  let z_bot := 0 in
  let z_top := hole_depth p in
  let z_top := if through_hole p then z_shaft_top_limit else z_top in
  z_bot <-
    (if is_nut_trap p && nut_at_bottom p then
       lift (nut_pocket_height (nut_info p))
     else mret z_bot) ;;
  if Rgtb z_top z_bot then
    cavity_wall (segments p) shaft_profile z_bot z_top ;;;
    if negb (through_hole p) && negb (is_nut_trap p) then
      apex_fan (segments p) (0, 0, z_top) (map (at_z z_top) shaft_profile)
    else mret tt
  else mret tt.

(** The annulus under the knob. *)
Definition bottom_cap (p : KnobParams) (outer_rings : list (list Point3))
           (shaft_profile : list Point2) : builder unit :=
  bottom_outer_ring <- lift (py_index outer_rings 0) ;;
  inner_bottom <-
    (if is_nut_trap p && nut_at_bottom p then
       w <- lift (nut_pocket_width (nut_info p)) ;;
       prof <- lift (create_polygon_profile w 6 (segments p)) ;;
       mret (map (at_z 0) prof)
     else mret (map (at_z 0) shaft_profile)) ;;
  for_each (range (segments p)) (fun i =>
    let next_i := next_index i (segments p) in
    o_n <- lift (py_index bottom_outer_ring next_i) ;;
    o_i <- lift (py_index bottom_outer_ring i) ;;
    b_i <- lift (py_index inner_bottom i) ;;
    b_n <- lift (py_index inner_bottom next_i) ;;
    add_quad o_n o_i b_i b_n false).

(* ------------------------------------------------------------------ *)
(** ** The generator *)

(** Everything [generate_knob_mesh] does before the final assembly. *)
Definition build_knob (p : KnobParams) : builder unit :=
  body_profile <- lift (body_profile_of p) ;;
  boss_profile <- lift (boss_profile_of p) ;;
  shaft_profile <- lift (shaft_profile_of p) ;;
  shell <- lift (outer_shell_rings p body_profile boss_profile) ;;
  let outer_rings := fst shell in
  let z_base := snd shell in
  stitch_outer_shell (segments p) outer_rings ;;;
  z_shaft_top_limit <- top_closure p outer_rings z_base ;;
  nut_trap_pocket p ;;;
  shaft_bore p shaft_profile z_shaft_top_limit ;;;
  bottom_cap p outer_rings shaft_profile.

Local Close Scope builder_scope.

(** A triangle of the returned mesh: three coordinate triples. *)
Definition Triangle : Type := Point3 * Point3 * Point3.

(** [data['vectors'][i][j] = np_verts[face[j]]] for every face. *)
Definition assemble (st : MeshState) : result (list Triangle) :=
  let np_verts := all_vertices st in
  mapM (fun face : Face =>
          let '(a, b, c) := face in
          rbind (py_index np_verts a) (fun va =>
          rbind (py_index np_verts b) (fun vb =>
          rbind (py_index np_verts c) (fun vc =>
          Ok (va, vb, vc)))))
       (all_faces st).

(** The accumulators start empty in every call. *)
Definition mesh_state_of (p : KnobParams) : result MeshState :=
  match build_knob p empty_mesh_state with
  | Ok (_, st) => Ok st
  | Raise e => Raise e
  end.

Definition generate_knob_mesh (p : KnobParams) : result (list Triangle) :=
  rbind (mesh_state_of p) assemble.

(* ------------------------------------------------------------------ *)
(** ** Vocabulary of the properties *)

(** A patch is a block of vertices with the faces over it, indexed from
    the start of the block. *)
Record Patch : Type := mkPatch {
  pverts : list Point3;
  pfaces : list Face
}.

Definition shift_face (k : nat) (f : Face) : Face :=
  let '(a, b, c) := f in ((k + a)%nat, (k + b)%nat, (k + c)%nat).

Definition empty_patch : Patch := mkPatch [] [].

Definition patch_app (P Q : Patch) : Patch :=
  mkPatch (pverts P ++ pverts Q)
          (pfaces P ++ map (shift_face (length (pverts P))) (pfaces Q)).

Definition patch_concat (l : list Patch) : Patch :=
  fold_right patch_app empty_patch l.

(** The state after a patch has been appended to the accumulators. *)
Definition emit_patch (P : Patch) (st : MeshState) : MeshState :=
  mkMeshState (all_vertices st ++ pverts P)
              (all_faces st
                 ++ map (shift_face (length (all_vertices st))) (pfaces P)).

Definition face_in_bounds (n : nat) (f : Face) : Prop :=
  let '(a, b, c) := f in (a < n)%nat /\ (b < n)%nat /\ (c < n)%nat.

Definition patch_wf (P : Patch) : Prop :=
  Forall (face_in_bounds (length (pverts P))) (pfaces P).

(** Every face of the state indexes inside [all_vertices]. *)
Definition faces_in_bounds (st : MeshState) : Prop :=
  Forall (face_in_bounds (length (all_vertices st))) (all_faces st).

(** What a builder does, told without the state: it raises, or it returns
    a value and appends a patch. *)
Definition writes {A : Type} (m : builder A) (r : result (A * Patch)) : Prop :=
  forall st,
    m st = match r with
           | Ok (a, P) => Ok (a, emit_patch P st)
           | Raise e => Raise e
           end.

(** The patch of [add_quad]. *)
Definition quad_patch (p1 p2 p3 p4 : Point3) (flip : bool) : Patch :=
  mkPatch [p1; p2; p3; p4]
          (if flip then [(0, 2, 1); (0, 3, 2)]%nat
           else [(0, 1, 2); (0, 2, 3)]%nat).

(** [(i + 1) % n] on positions. *)
Definition succ_mod (n i : nat) : nat := (S i) mod n.

(** The pairs [(ring[i], ring[next_i])] an apex fan looks up. *)
Definition ring_pairs (segments : Z) (ring : list Point3)
  : result (list (Point3 * Point3)) :=
  mapM (fun i : nat =>
          rbind (py_index ring i) (fun a =>
          rbind (py_index ring (next_index i segments)) (fun b =>
          Ok (a, b))))
       (range segments).

(** The patch of an apex fan: the center, then one pair of points per
    triangle. *)
Definition fan_patch (center : Point3) (prs : list (Point3 * Point3)) : Patch :=
  mkPatch
    (center :: flat_map (fun pr => [fst pr; snd pr]) prs)
    (map (fun j => (0, 1 + 2 * j, 2 + 2 * j)%nat) (seq 0 (length prs))).

(** A patch appended before what [r] appends. *)
Definition then_patch {A : Type} (P : Patch) (r : result (A * Patch))
  : result (A * Patch) :=
  match r with
  | Ok (a, Q) => Ok (a, patch_app P Q)
  | Raise e => Raise e
  end.

(** What a loop writes when its body writes [rs x] at [x]. *)
Fixpoint for_each_result {A : Type} (l : list A)
         (rs : A -> result (unit * Patch)) : result (unit * Patch) :=
  match l with
  | [] => Ok (tt, empty_patch)
  | x :: xs =>
      match rs x with
      | Ok (_, P) => then_patch P (for_each_result xs rs)
      | Raise e => Raise e
      end
  end.

(** A builder that, whatever the accumulators hold, raises or appends one
    and the same well-formed patch. *)
Definition patchy {A : Type} (m : builder A) : Prop :=
  exists r, writes m r
            /\ match r with
               | Ok (_, P) => patch_wf P
               | Raise _ => True
               end.

(** *** Closed forms of the profiles *)

(** The sample angle [2*pi*i/segments]. *)
Definition theta (segments : Z) (i : nat) : R := 2 * PI * INR i / IZR segments.

Definition circle_point (diameter : R) (segments : Z) (i : nat) : Point2 :=
  (diameter / 2 * cos (theta segments i), diameter / 2 * sin (theta segments i)).

Definition lobed_radius (diameter : R) (lobes : Z) (protrusion_ratio : R)
           (segments : Z) (i : nat) : R :=
  let r_outer := diameter / 2 in
  let depth_factor := 0.6 * protrusion_ratio in
  let r_inner := r_outer * (1 - depth_factor) in
  let r_mid := (r_outer + r_inner) / 2 in
  let amp := (r_outer - r_inner) / 2 in
  r_mid + amp * cos (IZR lobes * theta segments i).

Definition lobed_point (diameter : R) (lobes : Z) (protrusion_ratio : R)
           (segments : Z) (i : nat) : Point2 :=
  (lobed_radius diameter lobes protrusion_ratio segments i * cos (theta segments i),
   lobed_radius diameter lobes protrusion_ratio segments i * sin (theta segments i)).

(** [a % b] where it is defined. *)
Definition float_mod (a b : R) : R := a - b * IZR (Int_part (a / b)).

Definition polygon_radius (diameter : R) (sides : Z) (segments : Z) (i : nat) : R :=
  let period := 2 * PI / IZR sides in
  diameter / 2 / cos (float_mod (theta segments i - 0) period - period / 2).

Definition polygon_point (diameter : R) (sides : Z) (segments : Z) (i : nat)
  : Point2 :=
  (polygon_radius diameter sides segments i * cos (theta segments i),
   polygon_radius diameter sides segments i * sin (theta segments i)).

Definition d_shaft_point (diameter flat_to_opposite : R) (segments : Z) (i : nat)
  : Point2 :=
  let radius := diameter / 2 in
  let d_center_to_flat := flat_to_opposite - radius in
  if Rgtb (radius * cos (theta segments i)) d_center_to_flat then
    (d_center_to_flat, d_center_to_flat * tan (theta segments i))
  else (radius * cos (theta segments i), radius * sin (theta segments i)).

(** *** Closed form of the ring stack *)

Definition scale_of (mag inset : R) : R :=
  if Rgtb mag 0.001 then (mag - inset) / mag else 1.

Definition inset_point (inset z : R) (p : Point2) : Point3 :=
  let mag := sqrt (fst p ^ 2 + snd p ^ 2) in
  (fst p * scale_of mag inset, snd p * scale_of mag inset, z).

Definition bottom_inset (p : KnobParams) (s : nat) : R :=
  if Rgtb (bottom_fillet_height p) 0 then
    bottom_fillet_radius p * (1 - sin (INR s / 6 * PI / 2))
  else 0.

Definition bottom_fillet_ring (p : KnobParams) (z_base : R)
           (body_profile : list Point2) (s : nat) : list Point3 :=
  map (inset_point (bottom_inset p s)
                   (z_base + bottom_fillet_height p * (INR s / 6)))
      body_profile.

Definition dome_factor (h_dome : R) (s : nat) : R :=
  if Rgtb h_dome 0 then
    sqrt (Rmax 0 (1 - ((h_dome * (INR s / 12)) / h_dome) ^ 2))
  else 0.

Definition dome_ring (z_top_abs z_fillet_start : R)
           (body_profile : list Point2) (s : nat) : list Point3 :=
  let h_dome := z_top_abs - z_fillet_start in
  map (fun pt : Point2 =>
         (fst pt * dome_factor h_dome s, snd pt * dome_factor h_dome s,
          z_fillet_start + h_dome * (INR s / 12)))
      body_profile.

Definition top_inset (p : KnobParams) (s : nat) : R :=
  if Rgtb (top_fillet_height p) 0 then
    top_fillet_radius p
    * (1 - sqrt (Rmax 0 (1 - (top_fillet_height p * (INR s / 8)
                              / top_fillet_height p) ^ 2)))
  else 0.

Definition top_fillet_ring (p : KnobParams) (z_fillet_start : R)
           (body_profile : list Point2) (s : nat) : list Point3 :=
  map (inset_point (top_inset p s)
                   (z_fillet_start + top_fillet_height p * (INR s / 8)))
      body_profile.

Definition shell_z_base (p : KnobParams) : R :=
  if Rgtb (boss_height p) 0.1 then boss_height p else 0.

Definition has_bottom_fillet (p : KnobParams) : bool :=
  Rgtb (bottom_fillet_radius p) 0 || Rgtb (bottom_fillet_height p) 0.

Definition has_top_fillet (p : KnobParams) : bool :=
  Rgtb (top_fillet_radius p) 0 || Rgtb (top_fillet_height p) 0.

Definition shell_current_z (p : KnobParams) : R :=
  if has_bottom_fillet p then shell_z_base p + bottom_fillet_height p
  else shell_z_base p.

Definition shell_z_fillet_start (p : KnobParams) : R :=
  if is_dome p then shell_current_z p
  else Rmax (shell_current_z p)
            (shell_z_base p + knob_height p - top_fillet_height p).

Definition shell_rings (p : KnobParams) (body_profile boss_profile : list Point2)
  : list (list Point3) :=
  (if Rgtb (boss_height p) 0.1 then
     [ring_at 0 boss_profile; ring_at (boss_height p) boss_profile]
   else [])
  ++ (if has_bottom_fillet p then
        map (bottom_fillet_ring p (shell_z_base p) body_profile) (seq 0 7)
      else [ring_at (shell_z_base p) body_profile])
  ++ [ring_at (shell_z_fillet_start p) body_profile]
  ++ (if is_dome p then
        map (dome_ring (shell_z_base p + knob_height p) (shell_z_fillet_start p)
                       body_profile)
            (seq 1 12)
      else if has_top_fillet p then
        map (top_fillet_ring p (shell_z_fillet_start p) body_profile) (seq 1 8)
      else []).

(** A ring of [n] points at one height. *)
Definition ring_ok (n : nat) (ring : list Point3) : Prop :=
  length ring = n /\ exists z, Forall (fun q => pz q = z) ring.

(** The triangles of a patch: its faces with the indices looked up. *)
Definition face_triangle (vs : list Point3) (f : Face) : Triangle :=
  let '(a, b, c) := f in
  (nth a vs (0, 0, 0), nth b vs (0, 0, 0), nth c vs (0, 0, 0)).

Definition patch_triangles (P : Patch) : list Triangle :=
  map (face_triangle (pverts P)) (pfaces P).

(** *** Closed forms of the builders *)

Definition origin3 : Point3 := (0, 0, 0).
Definition origin2 : Point2 := (0, 0).

(** The patch of the loop that joins two rings of [n] points. *)
Definition quad_strip (n : nat) (curr nxt : list Point3) : Patch :=
  patch_concat
    (map (fun i =>
            quad_patch (nth i curr origin3) (nth (succ_mod n i) curr origin3)
                       (nth (succ_mod n i) nxt origin3) (nth i nxt origin3)
                       false)
         (seq 0 n)).

(** The patch of a cavity wall over a profile of [n] points. *)
Definition wall_patch (n : nat) (prof : list Point2) (z_lo z_hi : R) : Patch :=
  patch_concat
    (map (fun i =>
            let v_i := nth i prof origin2 in
            let v_n := nth (succ_mod n i) prof origin2 in
            quad_patch (at_z z_lo v_i) (at_z z_lo v_n)
                       (at_z z_hi v_n) (at_z z_hi v_i) true)
         (seq 0 n)).

(** The pairs an apex fan looks up on a ring of [n] points. *)
Definition fan_pairs (n : nat) (ring : list Point3) : list (Point3 * Point3) :=
  map (fun i => (nth i ring origin3, nth (succ_mod n i) ring origin3)) (seq 0 n).

(** The patch of a stitched stack of rings. *)
Definition shell_patch (n : nat) (rings : list (list Point3)) : Patch :=
  patch_concat
    (map (fun r => quad_strip n (nth r rings []) (nth (r + 1) rings []))
         (seq 0 (length rings - 1))).

(** The patch of the ring from the hex pocket's top edge to the bore. *)
Definition transition_patch (n : nat) (trap_poly shaft_p : list Point2) (h : R)
  : Patch :=
  patch_concat
    (map (fun i =>
            let t1 := at_z h (nth i trap_poly origin2) in
            let t2 := at_z h (nth (succ_mod n i) trap_poly origin2) in
            let s1 := at_z h (nth i shaft_p origin2) in
            let s2 := at_z h (nth (succ_mod n i) shaft_p origin2) in
            quad_patch t2 t1 s1 s2 false)
         (seq 0 n)).

(** The patch of the annulus under the knob. *)
Definition bottom_patch (n : nat) (outer inner : list Point3) : Patch :=
  patch_concat
    (map (fun i =>
            quad_patch (nth (succ_mod n i) outer origin3) (nth i outer origin3)
                       (nth i inner origin3) (nth (succ_mod n i) inner origin3)
                       false)
         (seq 0 n)).

(** Number of faces of a patch. *)
Definition nfaces (P : Patch) : nat := length (pfaces P).

(** The plain round knob with a blind round hole: no ridges, no fillets,
    no boss, no dome, no recess. *)
Definition plain_round_blind (p : KnobParams) : Prop :=
  knob_style p = "Round"%string
  /\ ridges p = 0%Z
  /\ top_fillet_radius p = 0 /\ top_fillet_height p = 0
  /\ bottom_fillet_radius p = 0 /\ bottom_fillet_height p = 0
  /\ boss_height p = 0
  /\ is_dome p = false
  /\ recess_depth p = 0
  /\ shaft_type p = "Round Hole"%string
  /\ through_hole p = false
  /\ 0 < hole_depth p < knob_height p.

(** A plain round knob, 25 mm by 15 mm, with a blind 6 mm round hole 10 mm
    deep, at a given segment count. *)
Definition plain_knob (n : Z) : KnobParams :=
  mkKnobParams 25 15 "Round" 6 0.3 0 0 0 0 0 false 0 10 0 15
               "Round Hole" 6 10 false None "Bottom" n.

(** The patch of a plain round knob with a blind round hole. *)
Definition plain_patch (p : KnobParams) : Patch :=
  let n := Z.to_nat (segments p) in
  let body := map (circle_point (knob_diameter p) (segments p)) (range (segments p)) in
  let shaft := map (circle_point (shaft_dia p) (segments p)) (range (segments p)) in
  let bottom := ring_at 0 body in
  let top := ring_at (knob_height p) body in
  patch_app (shell_patch n [bottom; top])
    (patch_app (fan_patch (0, 0, pz (nth 0 top origin3)) (fan_pairs n top))
       (patch_app empty_patch
          (patch_app
             (patch_app (wall_patch n shaft 0 (hole_depth p))
                        (fan_patch (0, 0, hole_depth p)
                                   (fan_pairs n (map (at_z (hole_depth p)) shaft))))
             (bottom_patch n bottom (map (at_z 0) shaft))))).

(** *** Closed form of the top closure *)

(** [z_shaft_top_limit] before the branch on the kind of top. *)
Definition top_limit_before (p : KnobParams) (z_base : R) : R :=
  if through_hole p then
    if is_dome p then z_base + knob_height p
    else if Rgtb (recess_depth p) 0 then
      Rmax z_base (z_base + knob_height p - recess_depth p)
    else z_base + knob_height p
  else hole_depth p.

(** [hole_r] of the dish. *)
Definition dish_hole_r (p : KnobParams) : R :=
  if through_hole p then shaft_dia p / 2 else 0.

(** [curr_r] of dish step [s], after the clamp at [hole_r]. *)
Definition dish_radius (p : KnobParams) (s : nat) : R :=
  let curr_r := recess_diameter p / 2 * (1 - INR s / 5) in
  if Rltb curr_r (dish_hole_r p) then dish_hole_r p else curr_r.

(** [z_curr] of dish step [s]. *)
Definition dish_z (p : KnobParams) (z_top_mesh : R) (s : nat) : R :=
  z_top_mesh - recess_depth p * (1 - (1 - INR s / 5) ^ 2).

Definition dish_ring (p : KnobParams) (z_top_mesh : R) (s : nat) : list Point3 :=
  map (fun i : nat =>
         (dish_radius p s * cos (theta (segments p) i),
          dish_radius p s * sin (theta (segments p) i),
          dish_z p z_top_mesh s))
      (range (segments p)).

(** The steps of the dish loop that run: up to and including the first
    whose radius is within 0.001 of [hole_r]. *)
Fixpoint dish_steps_run (p : KnobParams) (steps : list nat) : list nat :=
  match steps with
  | [] => []
  | s :: rest =>
      if Rleb (dish_radius p s) (dish_hole_r p + 0.001) then [s]
      else s :: dish_steps_run p rest
  end.

(** [dish_rings] after the loop. *)
Definition dish_rings_of (p : KnobParams) (z_top_mesh : R) : list (list Point3) :=
  ring_at z_top_mesh
          (map (circle_point (recess_diameter p) (segments p)) (range (segments p)))
  :: map (dish_ring p z_top_mesh) (dish_steps_run p (seq 1 5)).

(** [math.sqrt(ring[0][0]**2 + ring[0][1]**2)] where [ring[0]] exists. *)
Definition radius_of_first (ring : list Point3) : R :=
  sqrt (px (nth 0 ring origin3) ^ 2 + py (nth 0 ring origin3) ^ 2).

(** Pocket width of a nut. *)
Definition nut_w (ni : NutInfo) : R :=
  width ni + match tolerance ni with Some t => t | None => 0.2 end.

(** The hex profile of a nut pocket. *)
Definition hex_profile (ni : NutInfo) (segments : Z) : list Point2 :=
  map (polygon_point (nut_w ni) 6 segments) (range segments).

(** The profile of the opening of an open top. *)
Definition top_hole_profile (p : KnobParams) : list Point2 :=
  if is_nut_trap p && String.eqb (nut_location p) "Top" then
    match nut_info p with
    | Some ni => hex_profile ni (segments p)
    | None => []
    end
  else map (circle_point (shaft_dia p) (segments p)) (range (segments p)).

(** What the top closure appends, given the top ring of the shell. *)
Definition top_patch (p : KnobParams) (top : list Point3) : Patch :=
  let n := Z.to_nat (segments p) in
  let z_top_mesh := pz (nth 0 top origin3) in
  if is_dome p then
    if Rgtb (radius_of_first top) 0.1 then
      fan_patch (0, 0, z_top_mesh) (fan_pairs n top)
    else empty_patch
  else if Rgtb (recess_depth p) 0 then
    let dish_rings := dish_rings_of p z_top_mesh in
    let final_ring := last dish_rings [] in
    patch_app (quad_strip n top (nth 0 dish_rings []))
      (patch_app (shell_patch n dish_rings)
         (if negb (is_open_top p) && Rgtb (radius_of_first final_ring) 0.1 then
            fan_patch (0, 0, pz (nth 0 final_ring origin3)) (fan_pairs n final_ring)
          else empty_patch))
  else if is_open_top p then
    quad_strip n top (ring_at z_top_mesh (top_hole_profile p))
  else fan_patch (0, 0, z_top_mesh) (fan_pairs n top).

(** [z_shaft_top_limit] after the top closure. *)
Definition top_limit (p : KnobParams) (z_base : R) (top : list Point3) : R :=
  let z_top_mesh := pz (nth 0 top origin3) in
  if is_dome p then top_limit_before p z_base
  else if Rgtb (recess_depth p) 0 then
    pz (nth 0 (last (dish_rings_of p z_top_mesh) []) origin3)
  else if is_open_top p then z_top_mesh
  else top_limit_before p z_base.

(** The open top of a nut trap placed at the top reads [nut_info]. *)
Definition top_needs_nut (p : KnobParams) : bool :=
  negb (is_dome p) && negb (Rgtb (recess_depth p) 0)
  && is_nut_trap p && String.eqb (nut_location p) "Top".

(** *** Closed form of the cavity, the bottom and the whole knob *)

Definition nut_pocket_patch (p : KnobParams) : Patch :=
  match nut_info p with
  | Some ni =>
      if is_nut_trap p && nut_at_bottom p then
        let n := Z.to_nat (segments p) in
        let h := height ni + 0.2 in
        patch_app
          (wall_patch n (hex_profile ni (segments p)) 0 h)
          (transition_patch n (hex_profile ni (segments p))
             (map (circle_point (shaft_dia p) (segments p)) (range (segments p)))
             h)
      else empty_patch
  | None => empty_patch
  end.

(** [z_bot] of the bore. *)
Definition bore_z_bot (p : KnobParams) : R :=
  if is_nut_trap p && nut_at_bottom p then
    match nut_info p with Some ni => height ni + 0.2 | None => 0 end
  else 0.

(** [z_top] of the bore. *)
Definition bore_z_top (p : KnobParams) (z_shaft_top_limit : R) : R :=
  if through_hole p then z_shaft_top_limit else hole_depth p.

Definition bore_patch (p : KnobParams) (shaft_profile : list Point2)
           (z_shaft_top_limit : R) : Patch :=
  let n := Z.to_nat (segments p) in
  let z_bot := bore_z_bot p in
  let z_top := bore_z_top p z_shaft_top_limit in
  if Rgtb z_top z_bot then
    patch_app (wall_patch n shaft_profile z_bot z_top)
      (if negb (through_hole p) && negb (is_nut_trap p) then
         fan_patch (0, 0, z_top) (fan_pairs n (map (at_z z_top) shaft_profile))
       else empty_patch)
  else empty_patch.

(** [inner_bottom] *)
Definition inner_bottom_of (p : KnobParams) (shaft_profile : list Point2)
  : list Point3 :=
  if is_nut_trap p && nut_at_bottom p then
    match nut_info p with
    | Some ni => map (at_z 0) (hex_profile ni (segments p))
    | None => []
    end
  else map (at_z 0) shaft_profile.

(** The cavity and the bottom read [nut_info] for a nut trap at the
    bottom. *)
Definition bottom_needs_nut (p : KnobParams) : bool :=
  is_nut_trap p && nut_at_bottom p.

(** The call subscripts [nut_info] although it is [None]. *)
Definition nut_missing (p : KnobParams) : bool :=
  (top_needs_nut p || bottom_needs_nut p) && negb (nut_truthy (nut_info p)).

Definition body_points (p : KnobParams) : list Point2 :=
  if String.eqb (knob_style p) "Lobed" then
    map (lobed_point (knob_diameter p) (lobes p) (lobe_protrusion p) (segments p))
        (range (segments p))
  else if (ridges p >? 0)%Z then
    map (lobed_point (knob_diameter p) (ridges p) 0.05 (segments p))
        (range (segments p))
  else map (circle_point (knob_diameter p) (segments p)) (range (segments p)).

Definition boss_points (p : KnobParams) : list Point2 :=
  map (circle_point (boss_diameter p) (segments p)) (range (segments p)).

Definition shaft_points (p : KnobParams) : list Point2 :=
  if String.eqb (shaft_type p) "D-Shaft" then
    map (d_shaft_point (shaft_dia p)
                       (if Reqb (shaft_dia p) 6 then 4.5 else shaft_dia p * 0.75)
                       (segments p))
        (range (segments p))
  else map (circle_point (shaft_dia p) (segments p)) (range (segments p)).

(** The ring stack of a call. *)
Definition knob_rings (p : KnobParams) : list (list Point3) :=
  shell_rings p (body_points p) (boss_points p).

(** Everything a successful call appends. *)
Definition knob_patch (p : KnobParams) : Patch :=
  let n := Z.to_nat (segments p) in
  let rings := knob_rings p in
  let top := last rings [] in
  patch_app (shell_patch n rings)
    (patch_app (top_patch p top)
       (patch_app (nut_pocket_patch p)
          (patch_app
             (bore_patch p (shaft_points p) (top_limit p (shell_z_base p) top))
             (bottom_patch n (nth 0 rings [])
                           (inner_bottom_of p (shaft_points p)))))).

(** Number of rings of the stack. *)
Definition ring_count (p : KnobParams) : nat :=
  (if Rgtb (boss_height p) 0.1 then 2 else 0)
  + (if has_bottom_fillet p then 7 else 1)
  + 1
  + (if is_dome p then 12 else if has_top_fillet p then 8 else 0).

(** What a call returns. *)
Definition knob_outcome (p : KnobParams) : result (list Triangle) :=
  if (segments p <? 1)%Z then Raise IndexError
  else if nut_missing p then Raise TypeError
  else Ok (patch_triangles (knob_patch p)).

(** *** Triangles per segment *)

Definition top_faces (p : KnobParams) : nat :=
  if is_dome p then 0
  else if Rgtb (recess_depth p) 0 then
    2 + 2 * length (dish_steps_run p (seq 1 5))
  else if is_open_top p then 2
  else 1.

Definition nut_faces (p : KnobParams) : nat :=
  match nut_info p with
  | Some _ => if is_nut_trap p && nut_at_bottom p then 4 else 0
  | None => 0
  end.

Definition bore_faces (p : KnobParams) : nat :=
  let z_top :=
    bore_z_top p (top_limit p (shell_z_base p) (last (knob_rings p) [])) in
  if Rgtb z_top (bore_z_bot p) then
    2 + (if negb (through_hole p) && negb (is_nut_trap p) then 1 else 0)
  else 0.

(** Triangles of the mesh per segment: shell, top, nut pocket, bore,
    bottom annulus. *)
Definition faces_per_segment (p : KnobParams) : nat :=
  2 * (ring_count p - 1) + top_faces p + nut_faces p + bore_faces p + 2.

(** Distance of a point from the axis, squared. *)
Definition axis_dist2 (q : Point3) : R := px q ^ 2 + py q ^ 2.

Definition norm2 (q : Point2) : R := fst q ^ 2 + snd q ^ 2.

(** *** Sample calls *)

(** The M3 entry of [NUT_TYPES]. *)
Definition m3_nut : NutInfo := mkNutInfo 5.5 2.4 (Some 0.2).

(** A nut-trap knob as the application calls the generator: through hole,
    bolt clearance 3.2 mm, top fillet 2 by 2. *)
Definition nut_trap_knob (ni : option NutInfo) (loc : string) (n : Z) : KnobParams :=
  mkKnobParams 25 15 "Round" 6 0.3 0 2 2 0 0 false 0 10 0 15
               "Nut Trap" 3.2 15 true ni loc n.

(** A domed knob with a D-shaft. *)
Definition dome_knob (n : Z) : KnobParams :=
  mkKnobParams 25 15 "Round" 6 0.3 0 2 2 0 0 true 0 10 0 15
               "D-Shaft" 6 10 false None "Bottom" n.

(** A knob with a finger dish 5 mm deep and a blind round hole. *)
Definition dish_knob (n : Z) : KnobParams :=
  mkKnobParams 25 15 "Round" 6 0.3 0 0 0 0 0 false 0 10 5 15
               "Round Hole" 6 10 false None "Bottom" n.

(** A point on the ray from the origin at angle [t]. *)
Definition on_ray (t : R) (q : Point2) : Prop :=
  exists rho, 0 < rho /\ q = (rho * cos t, rho * sin t).

(** Height of a ring: the z of its first point. *)
Definition ring_z (ring : list Point3) : R := pz (nth 0 ring origin3).

(** A list of heights that never goes down. *)
Fixpoint nondecreasing (l : list R) : Prop :=
  match l with
  | a :: tl =>
      match tl with
      | b :: _ => a <= b /\ nondecreasing tl
      | [] => True
      end
  | [] => True
  end.


(** *** The application's calls *)

(** The entries of [NUT_TYPES] after "M3 Nut": width, height, tolerance. *)
Definition m4_nut : NutInfo := mkNutInfo 7.0 3.2 (Some 0.2).
Definition m5_nut : NutInfo := mkNutInfo 8.0 4.0 (Some 0.2).
Definition m6_nut : NutInfo := mkNutInfo 10.0 5.0 (Some 0.25).
Definition quarter_inch_nut : NutInfo := mkNutInfo 11.11 5.56 (Some 0.25).
Definition m8_nut : NutInfo := mkNutInfo 13.0 6.5 (Some 0.3).

(** The nut sizes the application offers: the values of [NUT_TYPES] other
    than [None]. *)
Definition nut_types : list NutInfo :=
  [m3_nut; m4_nut; m5_nut; m6_nut; quarter_inch_nut; m8_nut].

(** The ranges of the application's inputs ([app.py]): each parameter
    inside the range of its widget or equal to the value the application
    passes when the widget is not shown; a nut trap comes with an entry of
    [NUT_TYPES] and is placed at the bottom. *)
Definition in_app_ranges (p : KnobParams) : Prop :=
  10 <= knob_diameter p <= 80
  /\ 5 <= knob_height p <= 50
  /\ (3 <= lobes p <= 32)%Z
  /\ 0.01 <= lobe_protrusion p <= 1
  /\ In (ridges p) [0; 32; 64; 128]%Z
  /\ 0 <= top_fillet_radius p <= 10
  /\ 0 <= top_fillet_height p <= 10
  /\ 0 <= bottom_fillet_radius p <= 10
  /\ 0 <= bottom_fillet_height p <= 10
  /\ 0 <= boss_height p <= 10
  /\ 5 <= boss_diameter p <= 80
  /\ 0 <= recess_depth p <= 10
  /\ 5 <= recess_diameter p <= 96
  /\ 2 <= shaft_dia p <= 15
  /\ 1 <= hole_depth p <= 50
  /\ In (segments p) [32; 64; 128]%Z
  /\ (shaft_type p = "Nut Trap"%string ->
      nut_location p = "Bottom"%string
      /\ exists ni, nut_info p = Some ni /\ In ni nut_types).

(* ================================================================== *)
(** * Properties *)

(** ** Comparisons and fallible operations *)

Lemma Rgtb_true (a b : R) : a > b -> Rgtb a b = true.
Proof. intros H. unfold Rgtb. destruct (Rgt_dec a b); [reflexivity | contradiction]. Qed.

Lemma Rgtb_false (a b : R) : a <= b -> Rgtb a b = false.
Proof. intros H. unfold Rgtb. destruct (Rgt_dec a b); [lra | reflexivity]. Qed.

Lemma Rgtb_spec (a b : R) : reflect (a > b) (Rgtb a b).
Proof. unfold Rgtb. destruct (Rgt_dec a b); constructor; assumption. Qed.

Lemma Rltb_true (a b : R) : a < b -> Rltb a b = true.
Proof. intros H. unfold Rltb. destruct (Rlt_dec a b); [reflexivity | contradiction]. Qed.

Lemma Rltb_false (a b : R) : b <= a -> Rltb a b = false.
Proof. intros H. unfold Rltb. destruct (Rlt_dec a b); [lra | reflexivity]. Qed.

Lemma Rltb_spec (a b : R) : reflect (a < b) (Rltb a b).
Proof. unfold Rltb. destruct (Rlt_dec a b); constructor; assumption. Qed.

Lemma Rleb_true (a b : R) : a <= b -> Rleb a b = true.
Proof. intros H. unfold Rleb. destruct (Rle_dec a b); [reflexivity | contradiction]. Qed.

Lemma Rleb_false (a b : R) : b < a -> Rleb a b = false.
Proof. intros H. unfold Rleb. destruct (Rle_dec a b); [lra | reflexivity]. Qed.

Lemma Rleb_spec (a b : R) : reflect (a <= b) (Rleb a b).
Proof. unfold Rleb. destruct (Rle_dec a b); constructor; assumption. Qed.

Lemma Reqb_true (a b : R) : a = b -> Reqb a b = true.
Proof. intros H. unfold Reqb. destruct (Req_dec_T a b); [reflexivity | contradiction]. Qed.

Lemma Reqb_false (a b : R) : a <> b -> Reqb a b = false.
Proof. intros H. unfold Reqb. destruct (Req_dec_T a b); [contradiction | reflexivity]. Qed.

Lemma py_div_ok (a b : R) : b <> 0 -> py_div a b = Ok (a / b).
Proof. intros H. unfold py_div. now rewrite Reqb_false. Qed.

Lemma py_mod_ok (a b : R) :
  b <> 0 -> py_mod a b = Ok (a - b * IZR (Int_part (a / b))).
Proof. intros H. unfold py_mod. now rewrite Reqb_false. Qed.

Lemma py_sqrt_ok (x : R) : 0 <= x -> py_sqrt x = Ok (sqrt x).
Proof. intros H. unfold py_sqrt. now rewrite Rltb_false. Qed.

(** ** [mapM] *)

Lemma mapM_ok {A B : Type} (f : A -> result B) (g : A -> B) (l : list A) :
  (forall x, In x l -> f x = Ok (g x)) -> mapM f l = Ok (map g l).
Proof.
  induction l as [|x xs IH]; intros H; simpl.
  - reflexivity.
  - rewrite (H x (or_introl eq_refl)).
    rewrite IH by (intros y Hy; apply H; now right).
    reflexivity.
Qed.

Lemma mapM_length {A B : Type} (f : A -> result B) (l : list A) (l' : list B) :
  mapM f l = Ok l' -> length l' = length l.
Proof.
  revert l'. induction l as [|x xs IH]; intros l' H; simpl in H.
  - now inversion H.
  - destruct (f x) as [y|e]; [|discriminate].
    destruct (mapM f xs) as [ys|e]; [|discriminate].
    inversion H; subst. simpl. f_equal. now apply IH.
Qed.

Lemma mapM_Forall2 {A B : Type} (f : A -> result B) (l : list A) (l' : list B) :
  mapM f l = Ok l' -> Forall2 (fun x y => f x = Ok y) l l'.
Proof.
  revert l'. induction l as [|x xs IH]; intros l' H; simpl in H.
  - inversion H. constructor.
  - destruct (f x) as [y|e] eqn:Hx; [|discriminate].
    destruct (mapM f xs) as [ys|e]; [|discriminate].
    inversion H; subst. constructor; [assumption | now apply IH].
Qed.

Lemma mapM_total {A B : Type} (f : A -> result B) (l : list A) :
  (forall x, In x l -> exists y, f x = Ok y) -> exists l', mapM f l = Ok l'.
Proof.
  induction l as [|x xs IH]; intros H; simpl.
  - now exists [].
  - destruct (H x (or_introl eq_refl)) as [y Hy]. rewrite Hy.
    destruct IH as [ys Hys]; [intros z Hz; apply H; now right|].
    rewrite Hys. now exists (y :: ys).
Qed.

(** ** Patches *)

Lemma shift_face_0 (f : Face) : shift_face 0 f = f.
Proof. destruct f as [[a b] c]. reflexivity. Qed.

Lemma shift_face_add (n k : nat) (f : Face) :
  shift_face n (shift_face k f) = shift_face (n + k) f.
Proof. destruct f as [[a b] c]. simpl. now rewrite !Nat.add_assoc. Qed.

Lemma map_shift_face_add (n k : nat) (fs : list Face) :
  map (shift_face n) (map (shift_face k) fs) = map (shift_face (n + k)) fs.
Proof. rewrite map_map. apply map_ext. intros f. apply shift_face_add. Qed.

Lemma emit_patch_empty (st : MeshState) : emit_patch empty_patch st = st.
Proof. destruct st as [vs fs]. unfold emit_patch. simpl. now rewrite !app_nil_r. Qed.

Lemma emit_patch_app (P Q : Patch) (st : MeshState) :
  emit_patch (patch_app P Q) st = emit_patch Q (emit_patch P st).
Proof.
  destruct st as [vs fs]. unfold emit_patch, patch_app. simpl.
  rewrite map_app, map_shift_face_add, length_app, !app_assoc. reflexivity.
Qed.

Lemma patch_app_empty_l (P : Patch) : patch_app empty_patch P = P.
Proof.
  destruct P as [vs fs]. unfold patch_app. simpl. f_equal.
  rewrite <- (map_id fs) at 2. apply map_ext. apply shift_face_0.
Qed.

Lemma patch_app_empty_r (P : Patch) : patch_app P empty_patch = P.
Proof. destruct P as [vs fs]. unfold patch_app. simpl. now rewrite !app_nil_r. Qed.

Lemma face_in_bounds_mono (n m : nat) (f : Face) :
  (n <= m)%nat -> face_in_bounds n f -> face_in_bounds m f.
Proof. destruct f as [[a b] c]. simpl. lia. Qed.

Lemma face_in_bounds_shift (k n : nat) (f : Face) :
  face_in_bounds n f -> face_in_bounds (k + n) (shift_face k f).
Proof. destruct f as [[a b] c]. simpl. lia. Qed.

Lemma patch_wf_empty : patch_wf empty_patch.
Proof. constructor. Qed.

Lemma patch_wf_app (P Q : Patch) :
  patch_wf P -> patch_wf Q -> patch_wf (patch_app P Q).
Proof.
  unfold patch_wf, patch_app. simpl. intros HP HQ.
  rewrite length_app. apply Forall_app. split.
  - eapply Forall_impl; [|exact HP]. intros f. apply face_in_bounds_mono. lia.
  - apply Forall_map. eapply Forall_impl; [|exact HQ].
    intros f. apply face_in_bounds_shift.
Qed.

Lemma patch_wf_concat (l : list Patch) :
  Forall patch_wf l -> patch_wf (patch_concat l).
Proof.
  induction 1 as [|P ps HP _ IH]; simpl.
  - apply patch_wf_empty.
  - now apply patch_wf_app.
Qed.

Lemma emit_patch_in_bounds (P : Patch) (st : MeshState) :
  faces_in_bounds st -> patch_wf P -> faces_in_bounds (emit_patch P st).
Proof.
  unfold faces_in_bounds, patch_wf, emit_patch. simpl. intros Hst HP.
  rewrite length_app. apply Forall_app. split.
  - eapply Forall_impl; [|exact Hst]. intros f. apply face_in_bounds_mono. lia.
  - apply Forall_map. eapply Forall_impl; [|exact HP].
    intros f. apply face_in_bounds_shift.
Qed.

Lemma quad_patch_wf (p1 p2 p3 p4 : Point3) (flip : bool) :
  patch_wf (quad_patch p1 p2 p3 p4 flip).
Proof.
  unfold patch_wf, quad_patch. destruct flip; simpl;
    repeat constructor; lia.
Qed.

Lemma fan_patch_wf (center : Point3) (prs : list (Point3 * Point3)) :
  patch_wf (fan_patch center prs).
Proof.
  unfold patch_wf, fan_patch. simpl. apply Forall_map, Forall_forall.
  intros j Hj. apply in_seq in Hj.
  assert (Hlen : length (flat_map (fun pr : Point3 * Point3 => [fst pr; snd pr]) prs)
                 = (2 * length prs)%nat).
  { clear. induction prs as [|pr prs IH]; simpl; [reflexivity | rewrite IH; lia]. }
  rewrite Hlen. simpl. lia.
Qed.

(** ** What the builders write *)

Lemma writes_ret {A : Type} (a : A) : writes (mret a) (Ok (a, empty_patch)).
Proof. intros st. unfold mret. now rewrite emit_patch_empty. Qed.

Lemma writes_lift {A : Type} (r : result A) :
  writes (lift r)
         (match r with Ok a => Ok (a, empty_patch) | Raise e => Raise e end).
Proof. intros st. unfold lift. destruct r; [now rewrite emit_patch_empty | reflexivity]. Qed.

Lemma writes_lift_ok {A : Type} (r : result A) (a : A) :
  r = Ok a -> writes (lift r) (Ok (a, empty_patch)).
Proof. intros ->. apply (writes_lift (Ok a)). Qed.

Lemma writes_bind {A B : Type} (m : builder A) (k : A -> builder B)
      (a : A) (P : Patch) (r : result (B * Patch)) :
  writes m (Ok (a, P)) -> writes (k a) r ->
  writes (mbind m k) (then_patch P r).
Proof.
  intros Hm Hk st. unfold mbind. rewrite Hm, Hk.
  destruct r as [[b Q]|e]; simpl; [now rewrite emit_patch_app | reflexivity].
Qed.

Lemma writes_bind_raise {A B : Type} (m : builder A) (k : A -> builder B)
      (e : PyError) :
  writes m (Raise e) -> writes (mbind m k) (Raise e).
Proof. intros Hm st. unfold mbind. now rewrite Hm. Qed.

Lemma writes_ext {A : Type} (m : builder A) (r r' : result (A * Patch)) :
  r = r' -> writes m r -> writes m r'.
Proof. now intros ->. Qed.

Lemma writes_fun {A : Type} (m : builder A) (r r' : result (A * Patch)) :
  writes m r -> writes m r' ->
  match r, r' with
  | Ok (a, P), Ok (b, Q) => a = b /\ P = Q
  | Raise e, Raise e' => e = e'
  | _, _ => False
  end.
Proof.
  intros H H'. specialize (H empty_mesh_state). specialize (H' empty_mesh_state).
  rewrite H in H'. destruct r as [[a [vs fs]]|e], r' as [[b [ws gs]]|e'];
    try discriminate; try now inversion H'.
  unfold emit_patch in H'. simpl in H'. inversion H' as [[Ha Hv Hf]].
  split; [reflexivity|]. f_equal.
  clear - Hf. revert gs Hf. induction fs as [|f fs IH]; intros [|g gs] Hf;
    try discriminate; [reflexivity|].
  simpl in Hf. inversion Hf as [[Hfg Hrest]].
  rewrite !shift_face_0 in Hfg. subst g. f_equal. now apply IH.
Qed.

Lemma writes_for_each {A : Type} (l : list A) (body : A -> builder unit)
      (rs : A -> result (unit * Patch)) :
  (forall x, In x l -> writes (body x) (rs x)) ->
  writes (for_each l body) (for_each_result l rs).
Proof.
  induction l as [|x xs IH]; intros H; simpl.
  - apply writes_ret.
  - pose proof (H x (or_introl eq_refl)) as Hx.
    destruct (rs x) as [[[] P]|e].
    + eapply writes_bind; [exact Hx|]. apply IH. intros y Hy. apply H. now right.
    + now apply writes_bind_raise.
Qed.

Lemma for_each_result_ok {A : Type} (l : list A)
      (rs : A -> result (unit * Patch)) (f : A -> Patch) :
  (forall x, In x l -> rs x = Ok (tt, f x)) ->
  for_each_result l rs = Ok (tt, patch_concat (map f l)).
Proof.
  induction l as [|x xs IH]; intros H; simpl.
  - reflexivity.
  - rewrite (H x (or_introl eq_refl)).
    rewrite IH by (intros y Hy; apply H; now right). reflexivity.
Qed.

Lemma add_quad_writes (p1 p2 p3 p4 : Point3) (flip : bool) :
  writes (add_quad p1 p2 p3 p4 flip) (Ok (tt, quad_patch p1 p2 p3 p4 flip)).
Proof.
  intros [vs fs]. unfold add_quad, mbind, len_vertices, extend_vertices,
    append_face, emit_patch, quad_patch. simpl.
  destruct flip; simpl; rewrite <- app_assoc; simpl;
    rewrite Nat.add_0_r; reflexivity.
Qed.

Lemma flat_pairs_length (prs : list (Point3 * Point3)) :
  length (flat_map (fun pr : Point3 * Point3 => [fst pr; snd pr]) prs)
  = (2 * length prs)%nat.
Proof. induction prs as [|pr prs IH]; simpl; [reflexivity | rewrite IH; lia]. Qed.

(** The loop of an apex fan, from any state: the faces name the center by
    its absolute position [idx_c]. *)
Lemma apex_fan_loop (segs : Z) (idx_c : nat) (ring : list Point3) (l : list nat) :
  forall st,
    for_each l (fun i =>
      mbind len_vertices (fun idx_o1 =>
      mbind (lift (py_index ring i)) (fun r_i =>
      mbind (lift (py_index ring (next_index i segs))) (fun r_n =>
      mbind (extend_vertices [r_i; r_n]) (fun _ =>
      append_face (idx_c, idx_o1, (idx_o1 + 1)%nat)))))) st
    = match mapM (fun i : nat =>
                    rbind (py_index ring i) (fun a =>
                    rbind (py_index ring (next_index i segs)) (fun b =>
                    Ok (a, b)))) l with
      | Ok prs =>
          Ok (tt, mkMeshState
                    (all_vertices st ++ flat_map (fun pr => [fst pr; snd pr]) prs)
                    (all_faces st
                       ++ map (fun j => (idx_c,
                                         length (all_vertices st) + 2 * j,
                                         length (all_vertices st) + 2 * j + 1)%nat)
                              (seq 0 (length prs))))
      | Raise e => Raise e
      end.
Proof.
  induction l as [|i l IH]; intros [vs fs]; simpl.
  - unfold mret. now rewrite !app_nil_r.
  - unfold mbind at 1 2 3. unfold len_vertices at 1. simpl.
    destruct (py_index ring i) as [a|e]; simpl; [|reflexivity].
    unfold mbind at 1. 
    destruct (py_index ring (next_index i segs)) as [b|e]; simpl; [|reflexivity].
    unfold mbind at 1. simpl. rewrite IH. simpl.
    destruct (mapM _ l) as [prs|e]; [|reflexivity].
    simpl. rewrite <- !app_assoc. simpl. do 3 f_equal.
    rewrite Nat.add_0_r. f_equal. f_equal.
    rewrite <- seq_shift, map_map. apply map_ext. intros j.
    rewrite length_app. simpl. apply f_equal2; [apply f_equal2|]; lia.
Qed.

Lemma apex_fan_writes (segs : Z) (center : Point3) (ring : list Point3) :
  writes (apex_fan segs center ring)
         (match ring_pairs segs ring with
          | Ok prs => Ok (tt, fan_patch center prs)
          | Raise e => Raise e
          end).
Proof.
  intros [vs fs]. unfold apex_fan.
  unfold mbind at 1 2. unfold len_vertices at 1, extend_vertices at 1. simpl.
  rewrite apex_fan_loop. unfold ring_pairs. simpl.
  destruct (mapM _ (range segs)) as [prs|e]; [|reflexivity].
  unfold emit_patch, fan_patch. simpl. rewrite <- app_assoc. simpl.
  rewrite map_map.
  replace (map (fun x : nat => shift_face (length vs) (0, S (x + (x + 0)), S (S (x + (x + 0))))%nat)
               (seq 0 (length prs)))
    with (map (fun j : nat => (length vs, length (vs ++ [center]) + (j + (j + 0)),
                               length (vs ++ [center]) + (j + (j + 0)) + 1)%nat)
              (seq 0 (length prs))); [reflexivity|].
  apply map_ext. intros j.
  rewrite length_app. simpl. apply f_equal2; [apply f_equal2|]; lia.
Qed.

(** ** Every builder of the generator is patchy *)

Lemma patchy_ret {A : Type} (a : A) : patchy (mret a).
Proof. exists (Ok (a, empty_patch)). split; [apply writes_ret | apply patch_wf_empty]. Qed.

Lemma patchy_lift {A : Type} (r : result A) : patchy (lift r).
Proof.
  eexists. split; [apply writes_lift|]. destruct r; [apply patch_wf_empty | exact I].
Qed.

Lemma patchy_bind {A B : Type} (m : builder A) (k : A -> builder B) :
  patchy m -> (forall a, patchy (k a)) -> patchy (mbind m k).
Proof.
  intros [[[a P]|e] [Hm HP]] Hk.
  - destruct (Hk a) as [r [Hr Hwf]].
    exists (then_patch P r). split; [now apply writes_bind with (a := a)|].
    destruct r as [[b Q]|e]; simpl; [now apply patch_wf_app | exact I].
  - exists (Raise e). split; [now apply writes_bind_raise | exact I].
Qed.

Lemma patchy_for_each {A : Type} (l : list A) (body : A -> builder unit) :
  (forall x, patchy (body x)) -> patchy (for_each l body).
Proof.
  intros H. induction l as [|x xs IH]; simpl.
  - apply patchy_ret.
  - apply patchy_bind; [apply H | intros _; exact IH].
Qed.

Lemma patchy_add_quad (p1 p2 p3 p4 : Point3) (flip : bool) :
  patchy (add_quad p1 p2 p3 p4 flip).
Proof. eexists. split; [apply add_quad_writes | apply quad_patch_wf]. Qed.

Lemma patchy_apex_fan (segs : Z) (center : Point3) (ring : list Point3) :
  patchy (apex_fan segs center ring).
Proof.
  eexists. split; [apply apex_fan_writes|].
  destruct (ring_pairs segs ring); [apply fan_patch_wf | exact I].
Qed.

Create HintDb patchy.

#[local] Hint Resolve patchy_ret patchy_lift patchy_add_quad patchy_apex_fan
  : patchy.

(** Walks down a builder made of binds, loops and conditionals. *)
Ltac patchy_step :=
  match goal with
  | |- patchy (mbind _ _) => apply patchy_bind; [|intros ?]
  | |- patchy (for_each _ _) => apply patchy_for_each; intros ?
  | |- patchy (if ?c then _ else _) => destruct c
  | |- patchy (match ?x with _ => _ end) => destruct x
  | |- patchy _ => solve [auto with patchy]
  end.

Ltac patchy_auto := repeat patchy_step.

Lemma patchy_stitch_pair (segs : Z) (curr nxt : list Point3) :
  patchy (stitch_pair segs curr nxt).
Proof. unfold stitch_pair. patchy_auto. Qed.

Lemma patchy_cavity_wall (segs : Z) (prof : list Point2) (z_lo z_hi : R) :
  patchy (cavity_wall segs prof z_lo z_hi).
Proof. unfold cavity_wall. patchy_auto. Qed.

#[local] Hint Resolve patchy_stitch_pair patchy_cavity_wall : patchy.

Lemma patchy_stitch_outer_shell (segs : Z) (rings : list (list Point3)) :
  patchy (stitch_outer_shell segs rings).
Proof. unfold stitch_outer_shell. patchy_auto. Qed.

Lemma patchy_top_closure (p : KnobParams) (rings : list (list Point3)) (z_base : R) :
  patchy (top_closure p rings z_base).
Proof. unfold top_closure. patchy_auto. Qed.

Lemma patchy_nut_trap_pocket (p : KnobParams) : patchy (nut_trap_pocket p).
Proof. unfold nut_trap_pocket. patchy_auto. Qed.

Lemma patchy_shaft_bore (p : KnobParams) (prof : list Point2) (z : R) :
  patchy (shaft_bore p prof z).
Proof. unfold shaft_bore. patchy_auto. Qed.

Lemma patchy_bottom_cap (p : KnobParams) (rings : list (list Point3))
      (prof : list Point2) : patchy (bottom_cap p rings prof).
Proof. unfold bottom_cap. patchy_auto. Qed.

#[local] Hint Resolve patchy_stitch_outer_shell patchy_top_closure
  patchy_nut_trap_pocket patchy_shaft_bore patchy_bottom_cap : patchy.

Lemma patchy_build_knob (p : KnobParams) : patchy (build_knob p).
Proof. unfold build_knob. patchy_auto. Qed.

(** ** The profile generators in closed form *)

Lemma range_length (n : Z) : length (range n) = Z.to_nat n.
Proof. unfold range. apply length_seq. Qed.

Lemma in_range (n : Z) (i : nat) : In i (range n) <-> (i < Z.to_nat n)%nat.
Proof. unfold range. rewrite in_seq. lia. Qed.

Lemma in_range_pos (n : Z) (i : nat) : In i (range n) -> (0 < n)%Z.
Proof. rewrite in_range. lia. Qed.

Lemma in_range_IZR (n : Z) (i : nat) : In i (range n) -> IZR n <> 0.
Proof.
  intros H. apply in_range_pos in H. apply not_0_IZR. lia.
Qed.

Lemma angle_ok (n : Z) (i : nat) :
  In i (range n) -> py_div (2 * PI * INR i) (IZR n) = Ok (theta n i).
Proof. intros H. apply py_div_ok. now apply in_range_IZR with (i := i). Qed.

Lemma create_circle_profile_eq (d : R) (n : Z) :
  create_circle_profile d n = Ok (map (circle_point d n) (range n)).
Proof.
  unfold create_circle_profile. apply mapM_ok. intros i Hi.
  now rewrite (angle_ok n i Hi).
Qed.

Lemma create_lobed_profile_eq (d : R) (lobes : Z) (ratio : R) (n : Z) :
  create_lobed_profile d lobes ratio n
  = Ok (map (lobed_point d lobes ratio n) (range n)).
Proof.
  unfold create_lobed_profile. apply mapM_ok. intros i Hi.
  now rewrite (angle_ok n i Hi).
Qed.

Lemma create_d_shaft_profile_eq (d f : R) (n : Z) :
  create_d_shaft_profile d f n = Ok (map (d_shaft_point d f n) (range n)).
Proof.
  unfold create_d_shaft_profile. apply mapM_ok. intros i Hi.
  rewrite (angle_ok n i Hi). simpl. unfold d_shaft_point.
  now destruct (Rgtb _ _).
Qed.

Lemma float_mod_bounds (a b : R) : 0 < b -> 0 <= float_mod a b < b.
Proof.
  intros Hb. unfold float_mod.
  destruct (base_fp (a / b)) as [H0 H1]. unfold frac_part in H0, H1.
  assert (Ha : a = b * (a / b)) by (field; lra).
  set (k := IZR (Int_part (a / b))) in *.
  split.
  - apply Rge_le in H0.
    assert (0 <= b * (a / b - k)) by (apply Rmult_le_pos; lra).
    lra.
  - assert (b * (a / b - k) < b * 1) by (apply Rmult_lt_compat_l; lra).
    lra.
Qed.

(** Within a sector of a polygon with at least three sides the sample
    stays less than a quarter turn from the bisector. *)
Lemma polygon_sector_cos (sides : Z) (t : R) :
  (3 <= sides)%Z ->
  let period := 2 * PI / IZR sides in
  0 < cos (float_mod t period - period / 2).
Proof.
  intros Hs period.
  assert (H3 : 3 <= IZR sides) by (now apply IZR_le).
  assert (Hpi := PI_RGT_0).
  assert (Hper : 0 < period).
  { unfold period. apply Rdiv_lt_0_compat; lra. }
  assert (Hper2 : period <= 2 * PI / 3).
  { unfold period. unfold Rdiv. apply Rmult_le_compat_l; [lra|].
    apply Rinv_le_contravar; lra. }
  destruct (float_mod_bounds t period Hper) as [H0 H1].
  apply cos_gt_0; lra.
Qed.

Lemma create_polygon_profile_eq (d : R) (sides n : Z) :
  (3 <= sides)%Z ->
  create_polygon_profile d sides n = Ok (map (polygon_point d sides n) (range n)).
Proof.
  intros Hs. unfold create_polygon_profile.
  assert (Hsq : sqrt 3 / 2 <> 0).
  { assert (0 < sqrt 3) by (apply sqrt_lt_R0; lra). lra. }
  rewrite (py_div_ok _ _ Hsq). simpl.
  assert (Hsides : IZR sides <> 0) by (apply not_0_IZR; lia).
  rewrite (py_div_ok _ _ Hsides). simpl.
  apply mapM_ok. intros i Hi.
  rewrite (angle_ok n i Hi). simpl.
  assert (Hper : 2 * PI / IZR sides <> 0).
  { assert (Hpi := PI_RGT_0). assert (3 <= IZR sides) by (now apply IZR_le).
    assert (0 < 2 * PI / IZR sides) by (apply Rdiv_lt_0_compat; lra). lra. }
  rewrite (py_mod_ok _ _ Hper). simpl.
  pose proof (polygon_sector_cos sides (theta n i - 0) Hs) as Hcos.
  simpl in Hcos. fold (float_mod (theta n i - 0) (2 * PI / IZR sides)).
  rewrite py_div_ok by lra. reflexivity.
Qed.

Lemma profile_length_circle (d : R) (n : Z) (prof : list Point2) :
  create_circle_profile d n = Ok prof -> length prof = Z.to_nat n.
Proof.
  intros H. apply mapM_length in H. now rewrite range_length in H.
Qed.

Lemma profile_length_lobed (d : R) (lobes : Z) (ratio : R) (n : Z)
      (prof : list Point2) :
  create_lobed_profile d lobes ratio n = Ok prof -> length prof = Z.to_nat n.
Proof.
  intros H. apply mapM_length in H. now rewrite range_length in H.
Qed.

Lemma profile_length_d_shaft (d f : R) (n : Z) (prof : list Point2) :
  create_d_shaft_profile d f n = Ok prof -> length prof = Z.to_nat n.
Proof.
  intros H. apply mapM_length in H. now rewrite range_length in H.
Qed.

Lemma profile_length_polygon (d : R) (sides n : Z) (prof : list Point2) :
  create_polygon_profile d sides n = Ok prof -> length prof = Z.to_nat n.
Proof.
  unfold create_polygon_profile. intros H.
  destruct (py_div (d / 2) (sqrt 3 / 2)); [|discriminate].
  destruct (py_div (2 * PI) (IZR sides)); [|discriminate].
  simpl in H. apply mapM_length in H. now rewrite range_length in H.
Qed.

(** ** The ring stack in closed form *)

Lemma INR_lit (n : nat) : INR n = IZR (Z.of_nat n).
Proof. apply INR_IZR_INZ. Qed.

Ltac INR_lits :=
  repeat match goal with
         | |- context [INR (S ?n)] =>
             rewrite (INR_lit (S n)); cbn [Z.of_nat Pos.of_succ_nat Pos.succ]
         end.

Lemma radial_scale_eq (mag inset : R) :
  radial_scale mag inset = Ok (scale_of mag inset).
Proof.
  unfold radial_scale, scale_of. destruct (Rgtb_spec mag 0.001) as [H|H].
  - apply py_div_ok. lra.
  - reflexivity.
Qed.

Lemma sum_sqr_nonneg (x y : R) : 0 <= x ^ 2 + y ^ 2.
Proof. nra. Qed.

Lemma inset_ring_eq (inset z : R) (prof : list Point2) :
  inset_ring inset z prof = Ok (map (inset_point inset z) prof).
Proof.
  unfold inset_ring. apply mapM_ok. intros q _.
  rewrite py_sqrt_ok by apply sum_sqr_nonneg. simpl.
  now rewrite radial_scale_eq.
Qed.

Lemma bottom_fillet_rings_eq (p : KnobParams) (z_base : R) (prof : list Point2) :
  bottom_fillet_rings p z_base prof
  = Ok (map (bottom_fillet_ring p z_base prof) (seq 0 7)).
Proof.
  unfold bottom_fillet_rings. apply mapM_ok. intros s _.
  rewrite inset_ring_eq. unfold bottom_fillet_ring, bottom_inset.
  INR_lits. reflexivity.
Qed.

Lemma dome_rings_eq (z_top_abs z_fillet_start : R) (prof : list Point2) :
  dome_rings z_top_abs z_fillet_start prof
  = Ok (map (dome_ring z_top_abs z_fillet_start prof) (seq 1 12)).
Proof.
  unfold dome_rings. apply mapM_ok. intros s _.
  unfold dome_ring, dome_factor. INR_lits.
  destruct (Rgtb_spec (z_top_abs - z_fillet_start) 0) as [H|H].
  - rewrite py_div_ok by lra. simpl.
    rewrite py_sqrt_ok by apply Rmax_l. simpl.
    replace (z_fillet_start + (z_top_abs - z_fillet_start) * (INR s / 12)
             - z_fillet_start)
      with ((z_top_abs - z_fillet_start) * (INR s / 12)) by ring.
    reflexivity.
  - reflexivity.
Qed.

Lemma top_fillet_rings_eq (p : KnobParams) (z_fillet_start : R)
      (prof : list Point2) :
  top_fillet_rings p z_fillet_start prof
  = Ok (map (top_fillet_ring p z_fillet_start prof) (seq 1 8)).
Proof.
  unfold top_fillet_rings. apply mapM_ok. intros s _.
  unfold top_fillet_ring, top_inset. INR_lits.
  destruct (Rgtb_spec (top_fillet_height p) 0) as [H|H].
  - rewrite py_div_ok by lra. simpl.
    rewrite py_sqrt_ok by apply Rmax_l. simpl.
    now rewrite inset_ring_eq.
  - simpl. now rewrite inset_ring_eq.
Qed.

Lemma outer_shell_rings_eq (p : KnobParams) (body boss : list Point2) :
  outer_shell_rings p body boss = Ok (shell_rings p body boss, shell_z_base p).
Proof.
  unfold outer_shell_rings, shell_rings, shell_z_fillet_start, shell_current_z,
    shell_z_base, has_bottom_fillet, has_top_fillet.
  destruct (Rgtb (boss_height p) 0.1);
    destruct (Rgtb (bottom_fillet_radius p) 0 || Rgtb (bottom_fillet_height p) 0);
    simpl; rewrite ?bottom_fillet_rings_eq; simpl;
    destruct (is_dome p); simpl; rewrite ?dome_rings_eq; simpl;
    try reflexivity;
    destruct (Rgtb (top_fillet_radius p) 0 || Rgtb (top_fillet_height p) 0);
    simpl; rewrite ?top_fillet_rings_eq; simpl; reflexivity.
Qed.

(** ** Rings of the outer shell *)

Lemma ring_ok_ring_at (z : R) (prof : list Point2) :
  ring_ok (length prof) (ring_at z prof).
Proof.
  unfold ring_ok, ring_at. split; [apply length_map|].
  exists z. apply Forall_map, Forall_forall. now intros q _.
Qed.

Lemma ring_ok_inset (inset z : R) (prof : list Point2) :
  ring_ok (length prof) (map (inset_point inset z) prof).
Proof.
  unfold ring_ok. split; [apply length_map|].
  exists z. apply Forall_map, Forall_forall. now intros q _.
Qed.

Lemma ring_ok_dome (z_top_abs z_fillet_start : R) (prof : list Point2) (s : nat) :
  ring_ok (length prof) (dome_ring z_top_abs z_fillet_start prof s).
Proof.
  unfold ring_ok, dome_ring. split; [apply length_map|].
  exists (z_fillet_start + (z_top_abs - z_fillet_start) * (INR s / 12)).
  apply Forall_map, Forall_forall. intros q _. reflexivity.
Qed.

Lemma shell_rings_ok (p : KnobParams) (body boss : list Point2) (n : nat) :
  length body = n -> length boss = n ->
  Forall (ring_ok n) (shell_rings p body boss).
Proof.
  intros Hb Hs. unfold shell_rings.
  apply Forall_app; split; [|apply Forall_app; split; [|apply Forall_app; split]].
  - destruct (Rgtb (boss_height p) 0.1);
      repeat (first [apply Forall_nil | apply Forall_cons]);
      rewrite <- Hs; apply ring_ok_ring_at.
  - destruct (has_bottom_fillet p).
    + apply Forall_map, Forall_forall. intros s _. rewrite <- Hb.
      apply ring_ok_inset.
    + repeat (first [apply Forall_nil | apply Forall_cons]).
      rewrite <- Hb. apply ring_ok_ring_at.
  - repeat (first [apply Forall_nil | apply Forall_cons]).
    rewrite <- Hb. apply ring_ok_ring_at.
  - destruct (is_dome p); [|destruct (has_top_fillet p)].
    + apply Forall_map, Forall_forall. intros s _. rewrite <- Hb.
      apply ring_ok_dome.
    + apply Forall_map, Forall_forall. intros s _. rewrite <- Hb.
      apply ring_ok_inset.
    + apply Forall_nil.
Qed.

Lemma body_profile_total (p : KnobParams) :
  exists body, body_profile_of p = Ok body
               /\ length body = Z.to_nat (segments p).
Proof.
  unfold body_profile_of.
  destruct (String.eqb (knob_style p) "Lobed"); [|destruct (ridges p >? 0)%Z];
    rewrite ?create_lobed_profile_eq, ?create_circle_profile_eq;
    eexists; (split; [reflexivity|]); now rewrite length_map, range_length.
Qed.

Lemma boss_profile_total (p : KnobParams) :
  exists boss, boss_profile_of p = Ok boss
               /\ length boss = Z.to_nat (segments p).
Proof.
  unfold boss_profile_of. rewrite create_circle_profile_eq.
  eexists; (split; [reflexivity|]); now rewrite length_map, range_length.
Qed.

Lemma shaft_profile_total (p : KnobParams) :
  exists prof, shaft_profile_of p = Ok prof
               /\ length prof = Z.to_nat (segments p).
Proof.
  unfold shaft_profile_of.
  destruct (String.eqb (shaft_type p) "D-Shaft");
    [|destruct (String.eqb (shaft_type p) "Nut Trap" && nut_truthy (nut_info p))];
    rewrite ?create_d_shaft_profile_eq, ?create_circle_profile_eq;
    eexists; (split; [reflexivity|]); now rewrite length_map, range_length.
Qed.

(** C9: every ring of the outer shell's stack has exactly [segments]
    points, all at one height, so any two adjacent rings handed to the
    stitcher have the same number of points; and the stack is always
    built.  ([range(segments)] is empty for a count below one: the rings
    then have no points.) *)
Theorem outer_rings_uniform (p : KnobParams) :
  exists body boss rings z_base,
    body_profile_of p = Ok body
    /\ boss_profile_of p = Ok boss
    /\ outer_shell_rings p body boss = Ok (rings, z_base)
    /\ Forall (ring_ok (Z.to_nat (segments p))) rings
    /\ (forall r a b,
           nth_error rings r = Some a /\ nth_error rings (r + 1) = Some b ->
           length a = length b).
Proof.
  destruct (body_profile_total p) as [body [Hbody Hlb]].
  destruct (boss_profile_total p) as [boss [Hboss Hls]].
  exists body, boss, (shell_rings p body boss), (shell_z_base p).
  assert (Hok := shell_rings_ok p body boss _ Hlb Hls).
  repeat split; try assumption.
  - apply outer_shell_rings_eq.
  - intros r a b [Ha Hb].
    rewrite Forall_forall in Hok.
    destruct (Hok a (nth_error_In _ _ Ha)) as [-> _].
    destruct (Hok b (nth_error_In _ _ Hb)) as [-> _].
    reflexivity.
Qed.

(** C8: the radial scale of a fillet ring is guarded: for a planar
    magnitude of at most 0.001 it is 1, otherwise [(mag - inset) / mag];
    computing it never raises, and neither the bottom-fillet nor the
    top-fillet ring construction raises, whatever the parameters. *)
Theorem radial_scaling_guarded (p : KnobParams) (z : R) (body : list Point2)
        (mag inset : R) :
  radial_scale mag inset
  = Ok (if Rleb mag 0.001 then 1 else (mag - inset) / mag)
  /\ radial_scale mag inset <> Raise ZeroDivisionError
  /\ (exists ring, inset_ring inset z body = Ok ring)
  /\ (exists rings, bottom_fillet_rings p z body = Ok rings)
  /\ (exists rings, top_fillet_rings p z body = Ok rings).
Proof.
  repeat split.
  - rewrite radial_scale_eq. unfold scale_of.
    destruct (Rleb_spec mag 0.001) as [H|H].
    + now rewrite Rgtb_false.
    + rewrite Rgtb_true by lra. reflexivity.
  - rewrite radial_scale_eq. discriminate.
  - eexists. apply inset_ring_eq.
  - eexists. apply bottom_fillet_rings_eq.
  - eexists. apply top_fillet_rings_eq.
Qed.

(** ** The D-shaft profile *)

Lemma d_shaft_point_x (d f : R) (n : Z) (i : nat) :
  fst (d_shaft_point d f n i) <= f - d / 2.
Proof.
  unfold d_shaft_point.
  destruct (Rgtb_spec (d / 2 * cos (theta n i)) (f - d / 2)) as [H|H]; simpl; lra.
Qed.

(** C5: no point of the D-shaft profile has an x-coordinate above the cut
    distance [flat_to_opposite - diameter/2], and point [i] is the circle
    sample at angle [2*pi*i/N] unless its x exceeds the cut distance, in
    which case it is [(cut, cut * tan(angle))]. *)
Theorem d_shaft_flat (diameter flat_to_opposite : R) (segments : Z) :
  exists prof,
    create_d_shaft_profile diameter flat_to_opposite segments = Ok prof
    /\ Forall (fun q : Point2 => fst q <= flat_to_opposite - diameter / 2) prof
    /\ prof
       = map (fun i : nat =>
                let angle := 2 * PI * INR i / IZR segments in
                let cut := flat_to_opposite - diameter / 2 in
                if Rgtb (diameter / 2 * cos angle) cut
                then (cut, cut * tan angle)
                else (diameter / 2 * cos angle, diameter / 2 * sin angle))
             (seq 0 (Z.to_nat segments)).
Proof.
  exists (map (d_shaft_point diameter flat_to_opposite segments) (range segments)).
  split; [apply create_d_shaft_profile_eq|]. split.
  - apply Forall_map, Forall_forall. intros i _. apply d_shaft_point_x.
  - reflexivity.
Qed.

(** ** Assembly *)

Lemma py_index_ok {A : Type} (l : list A) (i : nat) (d : A) :
  (i < length l)%nat -> py_index l i = Ok (nth i l d).
Proof.
  intros H. unfold py_index. now rewrite (nth_error_nth' l d H).
Qed.

Lemma assemble_eq (st : MeshState) :
  faces_in_bounds st ->
  assemble st = Ok (map (face_triangle (all_vertices st)) (all_faces st)).
Proof.
  intros H. unfold assemble. apply mapM_ok. intros [[a b] c] Hf.
  unfold faces_in_bounds in H. rewrite Forall_forall in H.
  destruct (H _ Hf) as [Ha [Hb Hc]].
  rewrite (py_index_ok _ a origin3 Ha). simpl.
  rewrite (py_index_ok _ b origin3 Hb). simpl.
  now rewrite (py_index_ok _ c origin3 Hc).
Qed.

Lemma emit_patch_from_empty (P : Patch) :
  emit_patch P empty_mesh_state = mkMeshState (pverts P) (pfaces P).
Proof.
  unfold emit_patch, empty_mesh_state. simpl. f_equal.
  rewrite <- (map_id (pfaces P)) at 2. apply map_ext, shift_face_0.
Qed.

Lemma assemble_patch (P : Patch) :
  patch_wf P ->
  assemble (emit_patch P empty_mesh_state) = Ok (patch_triangles P).
Proof.
  intros H. rewrite emit_patch_from_empty. now apply assemble_eq.
Qed.

Lemma face_triangle_app_l (vs ws : list Point3) (f : Face) :
  face_in_bounds (length vs) f ->
  face_triangle (vs ++ ws) f = face_triangle vs f.
Proof.
  destruct f as [[a b] c]. simpl. intros [Ha [Hb Hc]].
  now rewrite !app_nth1 by assumption.
Qed.

Lemma face_triangle_app_r (vs ws : list Point3) (f : Face) :
  face_triangle (vs ++ ws) (shift_face (length vs) f) = face_triangle ws f.
Proof.
  destruct f as [[a b] c]. simpl.
  rewrite !app_nth2 by lia.
  now replace (length vs + a - length vs)%nat with a by lia;
    replace (length vs + b - length vs)%nat with b by lia;
    replace (length vs + c - length vs)%nat with c by lia.
Qed.

Lemma patch_triangles_app (P Q : Patch) :
  patch_wf P ->
  patch_triangles (patch_app P Q) = patch_triangles P ++ patch_triangles Q.
Proof.
  intros HP. unfold patch_triangles, patch_app. simpl.
  rewrite map_app, map_map. f_equal.
  - apply map_ext_in. intros f Hf. apply face_triangle_app_l.
    unfold patch_wf in HP. rewrite Forall_forall in HP. now apply HP.
  - apply map_ext. intros f. apply face_triangle_app_r.
Qed.

Lemma patch_triangles_concat (l : list Patch) :
  Forall patch_wf l ->
  patch_triangles (patch_concat l) = flat_map patch_triangles l.
Proof.
  induction 1 as [|P ps HP _ IH]; simpl.
  - reflexivity.
  - rewrite patch_triangles_app by assumption. now rewrite IH.
Qed.

Lemma patch_triangles_length (P : Patch) :
  length (patch_triangles P) = length (pfaces P).
Proof. apply length_map. Qed.

(** The mesh of a call, from what [build_knob] writes. *)
Lemma generate_from_writes (p : KnobParams) (r : result (unit * Patch)) :
  writes (build_knob p) r ->
  match r with Ok (_, P) => patch_wf P | Raise _ => True end ->
  generate_knob_mesh p
  = match r with
    | Ok (_, P) => Ok (patch_triangles P)
    | Raise e => Raise e
    end
  /\ mesh_state_of p
     = match r with
       | Ok (_, P) => Ok (mkMeshState (pverts P) (pfaces P))
       | Raise e => Raise e
       end.
Proof.
  intros Hw Hwf. unfold generate_knob_mesh, mesh_state_of.
  rewrite (Hw empty_mesh_state). destruct r as [[[] P]|e]; simpl.
  - rewrite assemble_patch by assumption. now rewrite emit_patch_from_empty.
  - now split.
Qed.

(** C10: in the state a call leaves for the final assembly every face
    indexes inside [all_vertices] (each builder appends the vertices of a
    face before the face), so the assembly loop finds every
    [np_verts[face[j]]] and returns one triangle per face. *)
Theorem faces_index_in_bounds (p : KnobParams) (st : MeshState) :
  mesh_state_of p = Ok st ->
  faces_in_bounds st
  /\ exists mesh, assemble st = Ok mesh
                  /\ length mesh = length (all_faces st).
Proof.
  intros H. destruct (patchy_build_knob p) as [r [Hw Hwf]].
  destruct (generate_from_writes p r Hw Hwf) as [_ Hst].
  rewrite Hst in H. destruct r as [[[] P]|e]; [|discriminate].
  inversion H; subst st. clear H.
  assert (Hb : faces_in_bounds (mkMeshState (pverts P) (pfaces P))) by exact Hwf.
  split; [exact Hb|].
  eexists. split; [now apply assemble_eq|]. apply length_map.
Qed.

(** The builders keep the invariant from any state: faces appended to
    accumulators that index in bounds index in bounds. *)
Lemma build_knob_preserves_bounds (p : KnobParams) (st st' : MeshState) (u : unit) :
  faces_in_bounds st -> build_knob p st = Ok (u, st') -> faces_in_bounds st'.
Proof.
  intros Hst H. destruct (patchy_build_knob p) as [r [Hw Hwf]].
  rewrite (Hw st) in H. destruct r as [[[] P]|e]; [|discriminate].
  inversion H; subst. now apply emit_patch_in_bounds.
Qed.

(** ** The loops in closed form *)

Lemma next_index_succ_mod (segs : Z) (i : nat) :
  In i (range segs) -> next_index i segs = succ_mod (Z.to_nat segs) i.
Proof.
  intros H. apply in_range in H. unfold next_index, succ_mod.
  assert (Hs : (0 < segs)%Z) by lia.
  replace (Z.of_nat i + 1)%Z with (Z.of_nat (S i)) by lia.
  rewrite <- (Z2Nat.id segs) at 1 by lia.
  rewrite <- Nat2Z.inj_mod. apply Nat2Z.id.
Qed.

Lemma succ_mod_lt (n i : nat) : (0 < n)%nat -> (succ_mod n i < n)%nat.
Proof. intros H. unfold succ_mod. apply Nat.mod_upper_bound. lia. Qed.

Lemma writes_lift_bind {A B : Type} (r : result A) (a : A) (k : A -> builder B)
      (res : result (B * Patch)) :
  r = Ok a -> writes (k a) res -> writes (mbind (lift r) k) res.
Proof. intros -> Hk st. unfold mbind, lift. apply Hk. Qed.

Lemma writes_lift_bind_raise {A B : Type} (r : result A) (e : PyError)
      (k : A -> builder B) :
  r = Raise e -> writes (mbind (lift r) k) (Raise e).
Proof. intros -> st. reflexivity. Qed.

Lemma writes_seq {B : Type} (m : builder unit) (k : unit -> builder B)
      (P : Patch) (r : result (B * Patch)) :
  writes m (Ok (tt, P)) -> writes (k tt) r -> writes (mbind m k) (then_patch P r).
Proof. apply writes_bind. Qed.

Lemma writes_loop {A : Type} (l : list A) (body : A -> builder unit)
      (f : A -> Patch) :
  (forall x, In x l -> writes (body x) (Ok (tt, f x))) ->
  writes (for_each l body) (Ok (tt, patch_concat (map f l))).
Proof.
  intros H.
  rewrite <- (for_each_result_ok l (fun x => Ok (tt, f x)) f) by reflexivity.
  now apply writes_for_each.
Qed.

Lemma stitch_pair_writes (segs : Z) (curr nxt : list Point3) :
  length curr = Z.to_nat segs -> length nxt = Z.to_nat segs ->
  writes (stitch_pair segs curr nxt)
         (Ok (tt, quad_strip (Z.to_nat segs) curr nxt)).
Proof.
  intros Hc Hn. unfold stitch_pair, quad_strip. apply writes_loop.
  intros i Hi. rewrite (next_index_succ_mod segs i Hi).
  assert (Hlt : (i < Z.to_nat segs)%nat) by (now apply in_range).
  assert (Hsm : (succ_mod (Z.to_nat segs) i < Z.to_nat segs)%nat)
    by (apply succ_mod_lt; lia).
  repeat (eapply writes_lift_bind;
          [apply (py_index_ok _ _ origin3); lia|]).
  apply add_quad_writes.
Qed.

Lemma cavity_wall_writes (segs : Z) (prof : list Point2) (z_lo z_hi : R) :
  length prof = Z.to_nat segs ->
  writes (cavity_wall segs prof z_lo z_hi)
         (Ok (tt, wall_patch (Z.to_nat segs) prof z_lo z_hi)).
Proof.
  intros Hp. unfold cavity_wall, wall_patch. apply writes_loop.
  intros i Hi. rewrite (next_index_succ_mod segs i Hi).
  assert (Hlt : (i < Z.to_nat segs)%nat) by (now apply in_range).
  assert (Hsm : (succ_mod (Z.to_nat segs) i < Z.to_nat segs)%nat)
    by (apply succ_mod_lt; lia).
  repeat (eapply writes_lift_bind;
          [apply (py_index_ok _ _ origin2); lia|]).
  apply add_quad_writes.
Qed.

Lemma ring_pairs_eq (segs : Z) (ring : list Point3) :
  length ring = Z.to_nat segs ->
  ring_pairs segs ring = Ok (fan_pairs (Z.to_nat segs) ring).
Proof.
  intros Hr. unfold ring_pairs, fan_pairs. apply mapM_ok.
  intros i Hi. rewrite (next_index_succ_mod segs i Hi).
  assert (Hlt : (i < Z.to_nat segs)%nat) by (now apply in_range).
  assert (Hsm : (succ_mod (Z.to_nat segs) i < Z.to_nat segs)%nat)
    by (apply succ_mod_lt; lia).
  rewrite (py_index_ok _ i origin3) by lia. simpl.
  rewrite (py_index_ok _ _ origin3) by lia. reflexivity.
Qed.

Lemma apex_fan_ok (segs : Z) (center : Point3) (ring : list Point3) :
  length ring = Z.to_nat segs ->
  writes (apex_fan segs center ring)
         (Ok (tt, fan_patch center (fan_pairs (Z.to_nat segs) ring))).
Proof.
  intros Hr. pose proof (apex_fan_writes segs center ring) as H.
  now rewrite (ring_pairs_eq segs ring Hr) in H.
Qed.

Lemma stitch_outer_shell_writes (segs : Z) (rings : list (list Point3)) :
  Forall (fun ring => length ring = Z.to_nat segs) rings ->
  writes (stitch_outer_shell segs rings)
         (Ok (tt, shell_patch (Z.to_nat segs) rings)).
Proof.
  intros H. unfold stitch_outer_shell, shell_patch. apply writes_loop.
  intros r Hr. apply in_seq in Hr. rewrite Forall_forall in H.
  assert (H0 : (r < length rings)%nat) by lia.
  assert (H1 : (r + 1 < length rings)%nat) by lia.
  eapply writes_lift_bind; [apply (py_index_ok _ _ []); lia|].
  eapply writes_lift_bind; [apply (py_index_ok _ _ []); lia|].
  apply stitch_pair_writes; apply H; apply nth_In; assumption.
Qed.

(** ** The sections of the generator, case by case *)

Lemma last_cons_default {A : Type} (l : list A) (y a b : A) :
  last (y :: l) a = last (y :: l) b.
Proof.
  revert y. induction l as [|z zs IH]; intros y; [reflexivity|].
  change (last (z :: zs) a = last (z :: zs) b). apply IH.
Qed.

Lemma py_last_ok {A : Type} (l : list A) (d : A) :
  l <> [] -> py_last l = Ok (last l d).
Proof.
  destruct l as [|x xs]; [congruence|]. intros _. unfold py_last. f_equal.
  destruct xs as [|y ys]; [reflexivity|].
  change (last (y :: ys) x = last (y :: ys) d). apply last_cons_default.
Qed.

Lemma writes_then_ret {A : Type} (m : builder unit) (a : A) (P : Patch) :
  writes m (Ok (tt, P)) -> writes (mbind m (fun _ => mret a)) (Ok (a, P)).
Proof.
  intros H. eapply writes_ext; [|eapply writes_bind; [exact H | apply writes_ret]].
  simpl. now rewrite patch_app_empty_r.
Qed.

(** Flat fan cap: no dome, no recess, closed top. *)
Lemma top_closure_flat (p : KnobParams) (rings : list (list Point3))
      (z_base : R) (top : list Point3) :
  (1 <= segments p)%Z ->
  py_last rings = Ok top -> length top = Z.to_nat (segments p) ->
  is_dome p = false -> Rgtb (recess_depth p) 0 = false ->
  is_open_top p = false ->
  writes (top_closure p rings z_base)
         (Ok (hole_depth p,
              fan_patch (0, 0, pz (nth 0 top origin3))
                        (fan_pairs (Z.to_nat (segments p)) top))).
Proof.
  intros HN Hlast Hlen Hdome Hrec Hopen. unfold top_closure.
  eapply writes_lift_bind; [exact Hlast|].
  eapply writes_lift_bind; [apply (py_index_ok _ _ origin3); lia|].
  rewrite Hdome, Hrec, Hopen.
  assert (Hth : through_hole p = false).
  { unfold is_open_top in Hopen. now destruct (through_hole p). }
  rewrite Hth. apply writes_then_ret. now apply apex_fan_ok.
Qed.

Lemma nut_trap_pocket_none (p : KnobParams) :
  is_nut_trap p && nut_truthy (nut_info p) = false ->
  writes (nut_trap_pocket p) (Ok (tt, empty_patch)).
Proof. intros H. unfold nut_trap_pocket. rewrite H. apply writes_ret. Qed.

(** Blind bore of a shaft that is not a nut trap: wall and fan. *)
Lemma shaft_bore_blind (p : KnobParams) (prof : list Point2) (z_limit : R) :
  length prof = Z.to_nat (segments p) ->
  through_hole p = false -> is_nut_trap p = false ->
  hole_depth p > 0 ->
  writes (shaft_bore p prof z_limit)
         (Ok (tt, patch_app
                    (wall_patch (Z.to_nat (segments p)) prof 0 (hole_depth p))
                    (fan_patch (0, 0, hole_depth p)
                               (fan_pairs (Z.to_nat (segments p))
                                          (map (at_z (hole_depth p)) prof))))).
Proof.
  intros Hlen Hth Hnt Hd. unfold shaft_bore. rewrite Hth, Hnt. simpl.
  eapply writes_ext; [|eapply writes_bind; [apply writes_ret|]].
  2:{ rewrite (Rgtb_true _ _ Hd).
      eapply writes_seq; [now apply cavity_wall_writes|].
      apply apex_fan_ok. now rewrite length_map. }
  simpl. now rewrite patch_app_empty_l.
Qed.

(** Bottom annulus against the shaft profile. *)
Lemma bottom_cap_shaft (p : KnobParams) (rings : list (list Point3))
      (prof : list Point2) (bottom : list Point3) :
  py_index rings 0 = Ok bottom ->
  length bottom = Z.to_nat (segments p) ->
  length prof = Z.to_nat (segments p) ->
  is_nut_trap p && nut_at_bottom p = false ->
  writes (bottom_cap p rings prof)
         (Ok (tt, bottom_patch (Z.to_nat (segments p)) bottom
                               (map (at_z 0) prof))).
Proof.
  intros Hb Hlb Hlp Hnt. unfold bottom_cap.
  eapply writes_lift_bind; [exact Hb|]. rewrite Hnt.
  eapply writes_ext; [|eapply writes_bind; [apply writes_ret|]].
  2:{ unfold bottom_patch. apply writes_loop. intros i Hi.
      rewrite (next_index_succ_mod _ i Hi).
      assert (Hlt : (i < Z.to_nat (segments p))%nat) by (now apply in_range).
      assert (Hsm : (succ_mod (Z.to_nat (segments p)) i < Z.to_nat (segments p))%nat)
        by (apply succ_mod_lt; lia).
      repeat (eapply writes_lift_bind;
              [apply (py_index_ok _ _ origin3); rewrite ?length_map; lia|]).
      apply add_quad_writes. }
  simpl. now rewrite patch_app_empty_l.
Qed.

(** ** Counting faces *)

Lemma nfaces_app (P Q : Patch) : nfaces (patch_app P Q) = (nfaces P + nfaces Q)%nat.
Proof. unfold nfaces, patch_app. simpl. now rewrite length_app, length_map. Qed.

Lemma nfaces_empty : nfaces empty_patch = 0%nat.
Proof. reflexivity. Qed.

Lemma nfaces_concat_const {A : Type} (f : A -> Patch) (k : nat) (l : list A) :
  (forall x, In x l -> nfaces (f x) = k) ->
  nfaces (patch_concat (map f l)) = (k * length l)%nat.
Proof.
  induction l as [|x xs IH]; intros H; simpl.
  - rewrite nfaces_empty. lia.
  - rewrite nfaces_app, (H x (or_introl eq_refl)), IH by (intros; apply H; now right).
    lia.
Qed.

Lemma nfaces_quad (p1 p2 p3 p4 : Point3) (flip : bool) :
  nfaces (quad_patch p1 p2 p3 p4 flip) = 2%nat.
Proof. now destruct flip. Qed.

Lemma fan_pairs_length (n : nat) (ring : list Point3) :
  length (fan_pairs n ring) = n.
Proof. unfold fan_pairs. now rewrite length_map, length_seq. Qed.

Lemma nfaces_fan (c : Point3) (prs : list (Point3 * Point3)) :
  nfaces (fan_patch c prs) = length prs.
Proof. unfold nfaces, fan_patch. simpl. now rewrite length_map, length_seq. Qed.

Lemma nfaces_quad_strip (n : nat) (curr nxt : list Point3) :
  nfaces (quad_strip n curr nxt) = (2 * n)%nat.
Proof.
  unfold quad_strip. rewrite (nfaces_concat_const _ 2), length_seq; [reflexivity|].
  intros. apply nfaces_quad.
Qed.

Lemma nfaces_wall (n : nat) (prof : list Point2) (z_lo z_hi : R) :
  nfaces (wall_patch n prof z_lo z_hi) = (2 * n)%nat.
Proof.
  unfold wall_patch. rewrite (nfaces_concat_const _ 2), length_seq; [reflexivity|].
  intros. apply nfaces_quad.
Qed.

Lemma nfaces_transition (n : nat) (trap shaft : list Point2) (h : R) :
  nfaces (transition_patch n trap shaft h) = (2 * n)%nat.
Proof.
  unfold transition_patch.
  rewrite (nfaces_concat_const _ 2), length_seq; [reflexivity|].
  intros. apply nfaces_quad.
Qed.

Lemma nfaces_bottom (n : nat) (outer inner : list Point3) :
  nfaces (bottom_patch n outer inner) = (2 * n)%nat.
Proof.
  unfold bottom_patch. rewrite (nfaces_concat_const _ 2), length_seq; [reflexivity|].
  intros. apply nfaces_quad.
Qed.

Lemma nfaces_shell (n : nat) (rings : list (list Point3)) :
  nfaces (shell_patch n rings) = (2 * n * (length rings - 1))%nat.
Proof.
  unfold shell_patch.
  rewrite (nfaces_concat_const _ (2 * n)), length_seq; [reflexivity|].
  intros. apply nfaces_quad_strip.
Qed.

(** ** Well-formed closed forms *)

Lemma patch_wf_concat_map {A : Type} (f : A -> Patch) (l : list A) :
  (forall x, patch_wf (f x)) -> patch_wf (patch_concat (map f l)).
Proof.
  intros H. apply patch_wf_concat, Forall_map, Forall_forall. intros x _. apply H.
Qed.

Lemma quad_strip_wf (n : nat) (curr nxt : list Point3) :
  patch_wf (quad_strip n curr nxt).
Proof. apply patch_wf_concat_map. intros. apply quad_patch_wf. Qed.

Lemma wall_patch_wf (n : nat) (prof : list Point2) (z_lo z_hi : R) :
  patch_wf (wall_patch n prof z_lo z_hi).
Proof. apply patch_wf_concat_map. intros. apply quad_patch_wf. Qed.

Lemma transition_patch_wf (n : nat) (trap shaft : list Point2) (h : R) :
  patch_wf (transition_patch n trap shaft h).
Proof. apply patch_wf_concat_map. intros. apply quad_patch_wf. Qed.

Lemma bottom_patch_wf (n : nat) (outer inner : list Point3) :
  patch_wf (bottom_patch n outer inner).
Proof. apply patch_wf_concat_map. intros. apply quad_patch_wf. Qed.

Lemma shell_patch_wf (n : nat) (rings : list (list Point3)) :
  patch_wf (shell_patch n rings).
Proof. apply patch_wf_concat_map. intros. apply quad_strip_wf. Qed.

Create HintDb patch_wf.

#[local] Hint Resolve patch_wf_empty patch_wf_app quad_patch_wf fan_patch_wf
  quad_strip_wf wall_patch_wf transition_patch_wf bottom_patch_wf shell_patch_wf
  : patch_wf.

(** ** The whole generator from its sections *)

Lemma build_knob_writes (p : KnobParams) (body boss shaft : list Point2)
      (rings : list (list Point3)) (z_base z_limit : R)
      (P1 P2 P3 P4 P5 : Patch) :
  body_profile_of p = Ok body ->
  boss_profile_of p = Ok boss ->
  shaft_profile_of p = Ok shaft ->
  outer_shell_rings p body boss = Ok (rings, z_base) ->
  writes (stitch_outer_shell (segments p) rings) (Ok (tt, P1)) ->
  writes (top_closure p rings z_base) (Ok (z_limit, P2)) ->
  writes (nut_trap_pocket p) (Ok (tt, P3)) ->
  writes (shaft_bore p shaft z_limit) (Ok (tt, P4)) ->
  writes (bottom_cap p rings shaft) (Ok (tt, P5)) ->
  writes (build_knob p)
         (Ok (tt, patch_app P1 (patch_app P2 (patch_app P3 (patch_app P4 P5))))).
Proof.
  intros Hb Hs Hh Hr H1 H2 H3 H4 H5. unfold build_knob.
  eapply writes_lift_bind; [exact Hb|].
  eapply writes_lift_bind; [exact Hs|].
  eapply writes_lift_bind; [exact Hh|].
  eapply writes_lift_bind; [exact Hr|]. simpl.
  eapply writes_ext;
    [|eapply writes_bind; [exact H1|];
      eapply writes_bind; [exact H2|];
      eapply writes_bind; [exact H3|];
      eapply writes_bind; [exact H4|]; exact H5].
  reflexivity.
Qed.

Lemma generate_of_patch (p : KnobParams) (P : Patch) :
  writes (build_knob p) (Ok (tt, P)) -> patch_wf P ->
  generate_knob_mesh p = Ok (patch_triangles P)
  /\ mesh_state_of p = Ok (mkMeshState (pverts P) (pfaces P)).
Proof.
  intros Hw Hwf. exact (generate_from_writes p (Ok (tt, P)) Hw Hwf).
Qed.

(** ** The plain round knob *)

Lemma plain_shell_rings (p : KnobParams) (body boss : list Point2) :
  plain_round_blind p ->
  shell_rings p body boss = [ring_at 0 body; ring_at (knob_height p) body]
  /\ shell_z_base p = 0.
Proof.
  intros (Hst & Hri & Htr & Hth & Hbr & Hbh & Hboss & Hdome & Hrec & Hsh & Hthr & Hd).
  unfold shell_rings, shell_z_fillet_start, shell_current_z, shell_z_base,
    has_bottom_fillet, has_top_fillet.
  rewrite Hboss, Hbr, Hbh, Htr, Hth, Hdome.
  rewrite (Rgtb_false 0 0.1) by lra. rewrite (Rgtb_false 0 0) by lra. simpl.
  rewrite Rmax_right by lra.
  replace (0 + knob_height p - 0) with (knob_height p) by ring.
  now split.
Qed.

Lemma plain_build (p : KnobParams) :
  plain_round_blind p -> (1 <= segments p)%Z ->
  writes (build_knob p) (Ok (tt, plain_patch p)).
Proof.
  intros Hp HN.
  pose proof Hp as (Hst & Hri & Htr & Hth & Hbr & Hbh & Hboss & Hdome & Hrec
                    & Hsh & Hthr & Hd).
  set (body := map (circle_point (knob_diameter p) (segments p)) (range (segments p))).
  set (boss := map (circle_point (boss_diameter p) (segments p)) (range (segments p))).
  set (shaft := map (circle_point (shaft_dia p) (segments p)) (range (segments p))).
  assert (Hlb : length body = Z.to_nat (segments p))
    by (unfold body; now rewrite length_map, range_length).
  assert (Hls : length shaft = Z.to_nat (segments p))
    by (unfold shaft; now rewrite length_map, range_length).
  destruct (plain_shell_rings p body boss Hp) as [Hrings Hzb].
  assert (Hnt : is_nut_trap p = false) by (unfold is_nut_trap; now rewrite Hsh).
  unfold plain_patch. fold body. fold shaft.
  eapply (build_knob_writes p body boss shaft
            [ring_at 0 body; ring_at (knob_height p) body] 0 (hole_depth p)).
  - unfold body_profile_of. rewrite Hst, Hri. simpl. apply create_circle_profile_eq.
  - unfold boss_profile_of. apply create_circle_profile_eq.
  - unfold shaft_profile_of. rewrite Hsh. simpl. apply create_circle_profile_eq.
  - rewrite outer_shell_rings_eq, Hrings, Hzb. reflexivity.
  - apply stitch_outer_shell_writes. repeat constructor;
      unfold ring_at; now rewrite length_map.
  - apply top_closure_flat; try assumption.
    + reflexivity.
    + unfold ring_at. now rewrite length_map.
    + rewrite Hrec. apply Rgtb_false. lra.
    + unfold is_open_top. rewrite Hthr, Hsh. reflexivity.
  - apply nut_trap_pocket_none. now rewrite Hnt.
  - apply shaft_bore_blind; try assumption. lra.
  - apply bottom_cap_shaft with (bottom := ring_at 0 body); try assumption.
    + reflexivity.
    + unfold ring_at. now rewrite length_map.
    + now rewrite Hnt.
Qed.

Lemma plain_patch_wf (p : KnobParams) : patch_wf (plain_patch p).
Proof. unfold plain_patch. auto 10 with patch_wf. Qed.

Lemma plain_patch_nfaces (p : KnobParams) :
  nfaces (plain_patch p) = (8 * Z.to_nat (segments p))%nat.
Proof.
  unfold plain_patch. cbv zeta.
  rewrite !nfaces_app, nfaces_shell, !nfaces_fan, !fan_pairs_length,
    nfaces_wall, nfaces_bottom, nfaces_empty.
  simpl length. lia.
Qed.

Lemma plain_round_blind_plain_knob (n : Z) : plain_round_blind (plain_knob n).
Proof. unfold plain_round_blind, plain_knob. simpl. repeat split; lra. Qed.

(** C1, as the code has it: the plain round knob with a blind round hole
    has [2N] wall, [N] top-fan, [2N] bore-wall, [N] bore-cap and [2N]
    bottom-annulus triangles, [8N] in all, for every segment count
    [N >= 1]. *)
Theorem plain_knob_triangle_count (p : KnobParams) :
  plain_round_blind p -> (1 <= segments p)%Z ->
  exists mesh,
    generate_knob_mesh p = Ok mesh
    /\ length mesh = (8 * Z.to_nat (segments p))%nat.
Proof.
  intros Hp HN.
  destruct (generate_of_patch p (plain_patch p) (plain_build p Hp HN)
                              (plain_patch_wf p)) as [Hg _].
  exists (patch_triangles (plain_patch p)). split; [exact Hg|].
  rewrite patch_triangles_length. apply plain_patch_nfaces.
Qed.

Lemma plain_knob_triangle_count_witness :
  exists mesh,
    generate_knob_mesh (plain_knob 3) = Ok mesh /\ length mesh = 24%nat.
Proof.
  apply (plain_knob_triangle_count (plain_knob 3)).
  - unfold plain_round_blind, plain_knob; simpl; repeat split; lra.
  - simpl. lia.
Defined.

(** C1 as stated fails: at three segments the mesh has 24 triangles, not
    21. *)
Lemma plain_knob_not_7N :
  ~ (exists mesh,
        generate_knob_mesh (plain_knob 3) = Ok mesh
        /\ length mesh = (7 * 3)%nat).
Proof.
  intros [mesh [Hg Hlen]].
  destruct (generate_of_patch (plain_knob 3) (plain_patch (plain_knob 3))
              (plain_build _ (plain_round_blind_plain_knob 3) ltac:(simpl; lia))
              (plain_patch_wf _)) as [Hg' _].
  rewrite Hg' in Hg. inversion Hg; subst mesh.
  pose proof (plain_patch_nfaces (plain_knob 3)) as Hn. unfold nfaces in Hn.
  rewrite patch_triangles_length, Hn in Hlen.
  simpl in Hlen. lia.
Qed.

Lemma faces_index_in_bounds_witness :
  faces_in_bounds (mkMeshState (pverts (plain_patch (plain_knob 3)))
                               (pfaces (plain_patch (plain_knob 3))))
  /\ exists mesh,
      assemble (mkMeshState (pverts (plain_patch (plain_knob 3)))
                            (pfaces (plain_patch (plain_knob 3)))) = Ok mesh
      /\ length mesh
         = length (all_faces (mkMeshState (pverts (plain_patch (plain_knob 3)))
                                          (pfaces (plain_patch (plain_knob 3))))).
Proof.
  apply (faces_index_in_bounds (plain_knob 3)).
  apply generate_of_patch.
  - apply plain_build; [|simpl; lia].
    unfold plain_round_blind, plain_knob; simpl; repeat split; lra.
  - apply plain_patch_wf.
Defined.

(** ** The top closure in closed form *)

Lemma writes_seq_ok {B : Type} (m : builder unit) (k : unit -> builder B)
      (P Q : Patch) (b : B) :
  writes m (Ok (tt, P)) -> writes (k tt) (Ok (b, Q)) ->
  writes (mbind m k) (Ok (b, patch_app P Q)).
Proof. intros Hm Hk. exact (writes_bind m k tt P (Ok (b, Q)) Hm Hk). Qed.

Lemma dish_loop_eq (p : KnobParams) (z_top_mesh : R) (steps : list nat) :
  forall acc,
    dish_loop p z_top_mesh (dish_hole_r p) steps acc
    = Ok (acc ++ map (dish_ring p z_top_mesh) (dish_steps_run p steps)).
Proof.
  induction steps as [|s rest IH]; intros acc; simpl.
  - now rewrite app_nil_r.
  - INR_lits.
    rewrite (mapM_ok _ (fun i : nat =>
               (dish_radius p s * cos (theta (segments p) i),
                dish_radius p s * sin (theta (segments p) i),
                dish_z p z_top_mesh s))).
    2:{ intros i Hi. rewrite (angle_ok _ i Hi). reflexivity. }
    simpl. fold (dish_radius p s).
    destruct (Rleb (dish_radius p s) (dish_hole_r p + 0.001)).
    + reflexivity.
    + rewrite IH. rewrite <- app_assoc. reflexivity.
Qed.

Lemma dish_steps_run_nonempty (p : KnobParams) (s : nat) (rest : list nat) :
  dish_steps_run p (s :: rest) <> [].
Proof.
  simpl. destruct (Rleb (dish_radius p s) (dish_hole_r p + 0.001)); discriminate.
Qed.

Lemma dish_steps_run_length (p : KnobParams) (steps : list nat) :
  (length (dish_steps_run p steps) <= length steps)%nat
  /\ (steps <> [] -> 1 <= length (dish_steps_run p steps))%nat.
Proof.
  induction steps as [|s rest [IH _]]; simpl.
  - split; [lia | congruence].
  - destruct (Rleb (dish_radius p s) (dish_hole_r p + 0.001)); simpl; split; lia.
Qed.

Lemma dish_ring_length (p : KnobParams) (z : R) (s : nat) :
  length (dish_ring p z s) = Z.to_nat (segments p).
Proof. unfold dish_ring. now rewrite length_map, range_length. Qed.

Lemma dish_rings_lengths (p : KnobParams) (z : R) :
  Forall (fun ring => length ring = Z.to_nat (segments p)) (dish_rings_of p z).
Proof.
  unfold dish_rings_of. constructor.
  - unfold ring_at. now rewrite !length_map, range_length.
  - apply Forall_map, Forall_forall. intros s _. apply dish_ring_length.
Qed.

Lemma first_point_radius_eq (ring : list Point3) :
  (0 < length ring)%nat ->
  first_point_radius ring = Ok (radius_of_first ring).
Proof.
  intros H. unfold first_point_radius, radius_of_first.
  rewrite (py_index_ok ring 0 origin3 H). simpl.
  apply py_sqrt_ok, sum_sqr_nonneg.
Qed.

Lemma last_In {A : Type} (l : list A) (d : A) : l <> [] -> In (last l d) l.
Proof.
  induction l as [|x xs IH]; [congruence|]. intros _.
  destruct xs as [|y ys]; [now left|].
  right. apply IH. discriminate.
Qed.

Lemma writes_bind_empty {A B : Type} (m : builder A) (k : A -> builder B)
      (a : A) (r : result (B * Patch)) :
  writes m (Ok (a, empty_patch)) -> writes (k a) r -> writes (mbind m k) r.
Proof.
  intros Hm Hk. eapply writes_ext; [|exact (writes_bind m k a _ r Hm Hk)].
  destruct r as [[b Q]|e]; simpl; [now rewrite patch_app_empty_l | reflexivity].
Qed.

Lemma top_hole_profile_writes (p : KnobParams) :
  top_needs_nut p = false \/ nut_info p <> None ->
  is_dome p = false -> Rgtb (recess_depth p) 0 = false ->
  writes (if String.eqb (shaft_type p) "Nut Trap"
             && String.eqb (nut_location p) "Top"
          then mbind (lift (nut_pocket_width (nut_info p)))
                     (fun w => lift (create_polygon_profile w 6 (segments p)))
          else mret (map (circle_point (shaft_dia p) (segments p))
                         (range (segments p))))
         (Ok (top_hole_profile p, empty_patch)).
Proof.
  intros Hnut Hdome Hrec. unfold top_hole_profile, is_nut_trap.
  destruct (String.eqb (shaft_type p) "Nut Trap"
            && String.eqb (nut_location p) "Top") eqn:Htop; [|apply writes_ret].
  destruct (nut_info p) as [ni|] eqn:Hni.
  - eapply writes_lift_bind; [reflexivity|].
    apply writes_lift_ok. apply create_polygon_profile_eq. lia.
  - destruct Hnut as [Hnut|Hnut]; [|congruence].
    unfold top_needs_nut, is_nut_trap in Hnut.
    rewrite Hdome, Hrec in Hnut. simpl in Hnut.
    rewrite Htop in Hnut. discriminate.
Qed.

Lemma top_hole_profile_length (p : KnobParams) :
  top_needs_nut p = false \/ nut_info p <> None ->
  is_dome p = false -> Rgtb (recess_depth p) 0 = false ->
  length (top_hole_profile p) = Z.to_nat (segments p).
Proof.
  intros Hnut Hdome Hrec. unfold top_hole_profile.
  destruct (is_nut_trap p && String.eqb (nut_location p) "Top") eqn:Htop.
  - destruct (nut_info p) as [ni|] eqn:Hni.
    + unfold hex_profile. now rewrite length_map, range_length.
    + destruct Hnut as [Hnut|Hnut]; [|congruence].
      unfold top_needs_nut in Hnut. rewrite Hdome, Hrec in Hnut. simpl in Hnut.
      rewrite Htop in Hnut. discriminate.
  - now rewrite length_map, range_length.
Qed.

(** The top closure, whenever the top ring has its [segments >= 1] points
    and [nut_info] is there if the open top needs it. *)
Lemma top_closure_writes (p : KnobParams) (rings : list (list Point3))
      (z_base : R) (top : list Point3) :
  (1 <= segments p)%Z ->
  py_last rings = Ok top -> length top = Z.to_nat (segments p) ->
  top_needs_nut p = false \/ nut_info p <> None ->
  writes (top_closure p rings z_base)
         (Ok (top_limit p z_base top, top_patch p top)).
Proof.
  intros HN Hlast Hlen Hnut. unfold top_closure.
  eapply writes_lift_bind; [exact Hlast|].
  eapply writes_lift_bind; [apply (py_index_ok _ _ origin3); lia|].
  fold (top_limit_before p z_base).
  unfold top_limit, top_patch.
  destruct (is_dome p) eqn:Hdome.
  - (* dome *)
    eapply writes_lift_bind; [apply first_point_radius_eq; lia|].
    apply writes_then_ret.
    destruct (Rgtb (radius_of_first top) 0.1).
    + now apply apex_fan_ok.
    + apply writes_ret.
  - destruct (Rgtb (recess_depth p) 0) eqn:Hrec.
    + (* recessed dish *)
      eapply writes_lift_bind; [apply create_circle_profile_eq|].
      eapply writes_seq_ok.
      { apply stitch_pair_writes; [assumption|].
        unfold dish_rings_of. cbn [nth].
        unfold ring_at. now rewrite !length_map, range_length. }
      fold (dish_hole_r p).
      set (dish_rings := dish_rings_of p (pz (nth 0 top origin3))).
      apply (writes_lift_bind _ dish_rings).
      { unfold range1. rewrite dish_loop_eq. reflexivity. }
      assert (Hdl := dish_rings_lengths p (pz (nth 0 top origin3))).
      fold dish_rings in Hdl.
      assert (Hne : dish_rings <> []) by (unfold dish_rings, dish_rings_of; discriminate).
      assert (Hfl : length (last dish_rings []) = Z.to_nat (segments p)).
      { rewrite Forall_forall in Hdl. apply Hdl. now apply last_In. }
      eapply writes_seq_ok.
      { apply (stitch_outer_shell_writes (segments p) dish_rings Hdl). }
      eapply writes_lift_bind; [now apply (py_last_ok _ [])|].
      eapply writes_lift_bind; [apply (py_index_ok _ _ origin3); lia|].
      eapply writes_lift_bind; [apply first_point_radius_eq; lia|].
      apply writes_then_ret.
      destruct (negb (is_open_top p) && Rgtb (radius_of_first (last dish_rings [])) 0.1).
      * now apply apex_fan_ok.
      * apply writes_ret.
    + destruct (is_open_top p) eqn:Hopen.
      * (* open ring *)
        eapply writes_lift_bind; [apply create_circle_profile_eq|].
        eapply writes_bind_empty; [now apply top_hole_profile_writes|].
        apply writes_then_ret.
        apply stitch_pair_writes; [assumption|].
        unfold ring_at. rewrite length_map.
        now apply top_hole_profile_length.
      * (* flat fan cap *)
        apply writes_then_ret. now apply apex_fan_ok.
Qed.

(** ** The cavity and the bottom in closed form *)

Lemma body_profile_eq (p : KnobParams) : body_profile_of p = Ok (body_points p).
Proof.
  unfold body_profile_of, body_points.
  destruct (String.eqb (knob_style p) "Lobed"); [apply create_lobed_profile_eq|].
  destruct (ridges p >? 0)%Z;
    [apply create_lobed_profile_eq | apply create_circle_profile_eq].
Qed.

Lemma boss_profile_eq (p : KnobParams) : boss_profile_of p = Ok (boss_points p).
Proof. apply create_circle_profile_eq. Qed.

Lemma shaft_profile_eq (p : KnobParams) : shaft_profile_of p = Ok (shaft_points p).
Proof.
  unfold shaft_profile_of, shaft_points.
  destruct (String.eqb (shaft_type p) "D-Shaft");
    [apply create_d_shaft_profile_eq|].
  destruct (String.eqb (shaft_type p) "Nut Trap" && nut_truthy (nut_info p));
    apply create_circle_profile_eq.
Qed.

Lemma body_points_length (p : KnobParams) :
  length (body_points p) = Z.to_nat (segments p).
Proof.
  unfold body_points.
  destruct (String.eqb (knob_style p) "Lobed"); [|destruct (ridges p >? 0)%Z];
    now rewrite length_map, range_length.
Qed.

Lemma boss_points_length (p : KnobParams) :
  length (boss_points p) = Z.to_nat (segments p).
Proof. unfold boss_points. now rewrite length_map, range_length. Qed.

Lemma shaft_points_length (p : KnobParams) :
  length (shaft_points p) = Z.to_nat (segments p).
Proof.
  unfold shaft_points. destruct (String.eqb (shaft_type p) "D-Shaft");
    now rewrite length_map, range_length.
Qed.

Lemma hex_profile_length (ni : NutInfo) (n : Z) :
  length (hex_profile ni n) = Z.to_nat n.
Proof. unfold hex_profile. now rewrite length_map, range_length. Qed.

Lemma hex_profile_eq (ni : NutInfo) (n : Z) :
  create_polygon_profile (nut_w ni) 6 n = Ok (hex_profile ni n).
Proof. apply create_polygon_profile_eq. lia. Qed.

Lemma nut_trap_pocket_writes (p : KnobParams) :
  writes (nut_trap_pocket p) (Ok (tt, nut_pocket_patch p)).
Proof.
  unfold nut_trap_pocket, nut_pocket_patch.
  destruct (nut_info p) as [ni|] eqn:Hni.
  - destruct (is_nut_trap p) eqn:Hnt; simpl; [|apply writes_ret].
    eapply writes_lift_bind; [reflexivity|].
    eapply writes_lift_bind; [reflexivity|].
    eapply writes_lift_bind; [apply hex_profile_eq|].
    destruct (nut_at_bottom p); [|apply writes_ret].
    eapply writes_seq_ok.
    { apply cavity_wall_writes, hex_profile_length. }
    eapply writes_lift_bind; [apply create_circle_profile_eq|].
    unfold transition_patch. apply writes_loop. intros i Hi.
    rewrite (next_index_succ_mod _ i Hi).
    assert (Hlt : (i < Z.to_nat (segments p))%nat) by (now apply in_range).
    assert (Hsm : (succ_mod (Z.to_nat (segments p)) i < Z.to_nat (segments p))%nat)
      by (apply succ_mod_lt; lia).
    repeat (eapply writes_lift_bind;
            [apply (py_index_ok _ _ origin2);
             rewrite ?hex_profile_length, ?length_map, ?range_length; lia|]).
    apply add_quad_writes.
  - rewrite andb_false_r. apply writes_ret.
Qed.

Lemma bore_z_bot_writes (p : KnobParams) :
  bottom_needs_nut p = false \/ nut_info p <> None ->
  writes (if is_nut_trap p && nut_at_bottom p
          then lift (nut_pocket_height (nut_info p))
          else mret 0)
         (Ok (bore_z_bot p, empty_patch)).
Proof.
  intros Hnut. unfold bore_z_bot. unfold bottom_needs_nut in Hnut.
  destruct (is_nut_trap p && nut_at_bottom p); [|apply writes_ret].
  destruct (nut_info p) as [ni|].
  - now apply writes_lift_ok.
  - destruct Hnut; congruence.
Qed.

Lemma shaft_bore_writes (p : KnobParams) (prof : list Point2) (z_limit : R) :
  length prof = Z.to_nat (segments p) ->
  bottom_needs_nut p = false \/ nut_info p <> None ->
  writes (shaft_bore p prof z_limit) (Ok (tt, bore_patch p prof z_limit)).
Proof.
  intros Hlen Hnut. unfold shaft_bore, bore_patch.
  fold (bore_z_top p z_limit).
  eapply writes_bind_empty; [now apply bore_z_bot_writes|].
  destruct (Rgtb (bore_z_top p z_limit) (bore_z_bot p)); [|apply writes_ret].
  eapply writes_seq_ok; [now apply cavity_wall_writes|].
  destruct (negb (through_hole p) && negb (is_nut_trap p)); [|apply writes_ret].
  apply apex_fan_ok. now rewrite length_map.
Qed.

Lemma inner_bottom_writes (p : KnobParams) (prof : list Point2) :
  bottom_needs_nut p = false \/ nut_info p <> None ->
  writes (if is_nut_trap p && nut_at_bottom p
          then mbind (lift (nut_pocket_width (nut_info p))) (fun w =>
               mbind (lift (create_polygon_profile w 6 (segments p))) (fun pr =>
               mret (map (at_z 0) pr)))
          else mret (map (at_z 0) prof))
         (Ok (inner_bottom_of p prof, empty_patch)).
Proof.
  intros Hnut. unfold inner_bottom_of. unfold bottom_needs_nut in Hnut.
  destruct (is_nut_trap p && nut_at_bottom p); [|apply writes_ret].
  destruct (nut_info p) as [ni|].
  - eapply writes_lift_bind; [reflexivity|].
    eapply writes_lift_bind; [apply hex_profile_eq|]. apply writes_ret.
  - destruct Hnut; congruence.
Qed.

Lemma inner_bottom_length (p : KnobParams) (prof : list Point2) :
  length prof = Z.to_nat (segments p) ->
  bottom_needs_nut p = false \/ nut_info p <> None ->
  length (inner_bottom_of p prof) = Z.to_nat (segments p).
Proof.
  intros Hlen Hnut. unfold inner_bottom_of. unfold bottom_needs_nut in Hnut.
  destruct (is_nut_trap p && nut_at_bottom p); [|now rewrite length_map].
  destruct (nut_info p) as [ni|].
  - now rewrite length_map, hex_profile_length.
  - destruct Hnut; congruence.
Qed.

Lemma bottom_cap_writes (p : KnobParams) (rings : list (list Point3))
      (prof : list Point2) :
  (0 < length rings)%nat ->
  length (nth 0 rings []) = Z.to_nat (segments p) ->
  length prof = Z.to_nat (segments p) ->
  bottom_needs_nut p = false \/ nut_info p <> None ->
  writes (bottom_cap p rings prof)
         (Ok (tt, bottom_patch (Z.to_nat (segments p)) (nth 0 rings [])
                               (inner_bottom_of p prof))).
Proof.
  intros Hr Hlb Hlp Hnut. unfold bottom_cap.
  eapply writes_lift_bind; [now apply (py_index_ok _ _ [])|].
  eapply writes_bind_empty; [now apply inner_bottom_writes|].
  pose proof (inner_bottom_length p prof Hlp Hnut) as Hli.
  unfold bottom_patch. apply writes_loop. intros i Hi.
  rewrite (next_index_succ_mod _ i Hi).
  assert (Hlt : (i < Z.to_nat (segments p))%nat) by (now apply in_range).
  assert (Hsm : (succ_mod (Z.to_nat (segments p)) i < Z.to_nat (segments p))%nat)
    by (apply succ_mod_lt; lia).
  repeat (eapply writes_lift_bind; [apply (py_index_ok _ _ origin3); lia|]).
  apply add_quad_writes.
Qed.

(** ** The whole call *)

Lemma shell_rings_length (p : KnobParams) (body boss : list Point2) :
  length (shell_rings p body boss) = ring_count p.
Proof.
  unfold shell_rings, ring_count. rewrite !length_app.
  destruct (Rgtb (boss_height p) 0.1), (has_bottom_fillet p), (is_dome p),
    (has_top_fillet p); simpl; rewrite ?length_map; simpl; reflexivity.
Qed.

Lemma ring_count_ge_2 (p : KnobParams) : (2 <= ring_count p)%nat.
Proof.
  unfold ring_count.
  destruct (Rgtb (boss_height p) 0.1), (has_bottom_fillet p), (is_dome p),
    (has_top_fillet p); simpl; lia.
Qed.

Lemma knob_rings_lengths (p : KnobParams) :
  Forall (fun ring => length ring = Z.to_nat (segments p)) (knob_rings p).
Proof.
  pose proof (shell_rings_ok p (body_points p) (boss_points p) _
                (body_points_length p) (boss_points_length p)) as H.
  eapply Forall_impl; [|exact H]. now intros ring [Hl _].
Qed.

Lemma knob_rings_nonempty (p : KnobParams) : knob_rings p <> [].
Proof.
  intros H. pose proof (shell_rings_length p (body_points p) (boss_points p)) as Hl.
  pose proof (ring_count_ge_2 p). unfold knob_rings in H. rewrite H in Hl.
  simpl in Hl. lia.
Qed.

Lemma knob_rings_top_length (p : KnobParams) :
  length (last (knob_rings p) []) = Z.to_nat (segments p).
Proof.
  pose proof (knob_rings_lengths p) as H. rewrite Forall_forall in H.
  apply H, last_In, knob_rings_nonempty.
Qed.

Lemma knob_rings_bottom_length (p : KnobParams) :
  length (nth 0 (knob_rings p) []) = Z.to_nat (segments p).
Proof.
  pose proof (knob_rings_lengths p) as H. rewrite Forall_forall in H.
  apply H, nth_In.
  pose proof (shell_rings_length p (body_points p) (boss_points p)).
  pose proof (ring_count_ge_2 p). unfold knob_rings. lia.
Qed.

Lemma nut_missing_false (p : KnobParams) :
  nut_missing p = false ->
  (top_needs_nut p = false \/ nut_info p <> None)
  /\ (bottom_needs_nut p = false \/ nut_info p <> None).
Proof.
  unfold nut_missing. destruct (nut_info p) as [ni|]; simpl.
  - intros _. split; right; discriminate.
  - rewrite andb_true_r. intros H. apply orb_false_elim in H. tauto.
Qed.

Lemma build_knob_ok (p : KnobParams) :
  (1 <= segments p)%Z -> nut_missing p = false ->
  writes (build_knob p) (Ok (tt, knob_patch p)).
Proof.
  intros HN Hnut. apply nut_missing_false in Hnut. destruct Hnut as [Htop Hbot].
  unfold knob_patch.
  eapply (build_knob_writes p (body_points p) (boss_points p) (shaft_points p)
            (knob_rings p) (shell_z_base p)
            (top_limit p (shell_z_base p) (last (knob_rings p) []))).
  - apply body_profile_eq.
  - apply boss_profile_eq.
  - apply shaft_profile_eq.
  - apply outer_shell_rings_eq.
  - apply stitch_outer_shell_writes, knob_rings_lengths.
  - apply top_closure_writes; try assumption.
    + apply py_last_ok, knob_rings_nonempty.
    + apply knob_rings_top_length.
  - apply nut_trap_pocket_writes.
  - apply shaft_bore_writes; [apply shaft_points_length | assumption].
  - apply bottom_cap_writes; try assumption.
    + pose proof (shell_rings_length p (body_points p) (boss_points p)).
      pose proof (ring_count_ge_2 p). unfold knob_rings. lia.
    + apply knob_rings_bottom_length.
    + apply shaft_points_length.
Qed.

Lemma top_patch_wf (p : KnobParams) (top : list Point3) : patch_wf (top_patch p top).
Proof.
  unfold top_patch.
  destruct (is_dome p); [destruct (Rgtb _ _); auto with patch_wf|].
  destruct (Rgtb (recess_depth p) 0).
  - cbv zeta. destruct (negb (is_open_top p) && _); auto 6 with patch_wf.
  - destruct (is_open_top p); auto with patch_wf.
Qed.

Lemma nut_pocket_patch_wf (p : KnobParams) : patch_wf (nut_pocket_patch p).
Proof.
  unfold nut_pocket_patch. destruct (nut_info p); [|auto with patch_wf].
  destruct (is_nut_trap p && nut_at_bottom p); auto with patch_wf.
Qed.

Lemma bore_patch_wf (p : KnobParams) (prof : list Point2) (z : R) :
  patch_wf (bore_patch p prof z).
Proof.
  unfold bore_patch. cbv zeta. destruct (Rgtb _ _); [|auto with patch_wf].
  destruct (negb (through_hole p) && negb (is_nut_trap p)); auto with patch_wf.
Qed.

#[local] Hint Resolve top_patch_wf nut_pocket_patch_wf bore_patch_wf : patch_wf.

Lemma knob_patch_wf (p : KnobParams) : patch_wf (knob_patch p).
Proof. unfold knob_patch. auto 10 with patch_wf. Qed.

(** Below one segment the top ring is empty and [top_outer_ring[0]]
    raises. *)
Lemma build_knob_no_segments (p : KnobParams) :
  (segments p < 1)%Z -> writes (build_knob p) (Raise IndexError).
Proof.
  intros HN. unfold build_knob.
  eapply writes_lift_bind; [apply body_profile_eq|].
  eapply writes_lift_bind; [apply boss_profile_eq|].
  eapply writes_lift_bind; [apply shaft_profile_eq|].
  eapply writes_lift_bind; [apply outer_shell_rings_eq|]. simpl.
  fold (knob_rings p).
  eapply writes_ext;
    [|eapply writes_bind;
      [apply stitch_outer_shell_writes, knob_rings_lengths|]].
  2:{ apply writes_bind_raise. unfold top_closure.
      eapply writes_lift_bind; [apply (py_last_ok _ []), knob_rings_nonempty|].
      apply writes_lift_bind_raise.
      pose proof (knob_rings_top_length p) as Hl.
      replace (Z.to_nat (segments p)) with 0%nat in Hl by lia.
      destruct (last (knob_rings p) []); [reflexivity | discriminate]. }
  reflexivity.
Qed.

Lemma writes_bind_then_raise {A B : Type} (m : builder A) (k : A -> builder B)
      (a : A) (P : Patch) (e : PyError) :
  writes m (Ok (a, P)) -> writes (k a) (Raise e) -> writes (mbind m k) (Raise e).
Proof. intros Hm Hk. exact (writes_bind m k a P (Raise e) Hm Hk). Qed.

(** A nut trap without [nut_info] raises where [nut_info] is subscripted. *)
Lemma build_knob_nut_missing (p : KnobParams) :
  (1 <= segments p)%Z -> nut_missing p = true ->
  writes (build_knob p) (Raise TypeError).
Proof.
  intros HN Hmiss. unfold nut_missing in Hmiss.
  apply andb_true_iff in Hmiss. destruct Hmiss as [Hneed Hnone].
  assert (Hni : nut_info p = None) by (destruct (nut_info p); [discriminate | reflexivity]).
  unfold build_knob.
  eapply writes_lift_bind; [apply body_profile_eq|].
  eapply writes_lift_bind; [apply boss_profile_eq|].
  eapply writes_lift_bind; [apply shaft_profile_eq|].
  eapply writes_lift_bind; [apply outer_shell_rings_eq|]. simpl.
  fold (knob_rings p).
  eapply writes_bind_then_raise;
    [apply stitch_outer_shell_writes, knob_rings_lengths|].
  destruct (top_needs_nut p) eqn:Htop.
  - (* the open top subscripts [nut_info] *)
    apply writes_bind_raise. unfold top_closure.
    eapply writes_lift_bind; [apply (py_last_ok _ []), knob_rings_nonempty|].
    eapply writes_lift_bind;
      [apply (py_index_ok _ _ origin3); rewrite knob_rings_top_length; lia|].
    unfold top_needs_nut, is_nut_trap in Htop.
    apply andb_true_iff in Htop. destruct Htop as [Htop Hloc].
    apply andb_true_iff in Htop. destruct Htop as [Htop Hnt].
    apply andb_true_iff in Htop. destruct Htop as [Hdome Hrec].
    apply negb_true_iff in Hdome, Hrec.
    rewrite Hdome, Hrec. unfold is_open_top. rewrite Hnt, Hloc.
    rewrite orb_true_r.
    eapply writes_lift_bind; [apply create_circle_profile_eq|].
    apply writes_bind_raise. simpl.
    apply writes_lift_bind_raise. now rewrite Hni.
  - (* the bore subscripts [nut_info] *)
    simpl in Hneed.
    eapply writes_bind_then_raise.
    + apply top_closure_writes; try assumption.
      * apply py_last_ok, knob_rings_nonempty.
      * apply knob_rings_top_length.
      * now left.
    + eapply writes_bind_then_raise; [apply nut_trap_pocket_writes|].
      apply writes_bind_raise. unfold shaft_bore.
      unfold bottom_needs_nut in Hneed. rewrite Hneed.
      apply writes_bind_raise. rewrite Hni.
      apply (writes_lift (Raise TypeError)).
Qed.

Lemma generate_knob_mesh_outcome (p : KnobParams) :
  generate_knob_mesh p = knob_outcome p.
Proof.
  unfold knob_outcome. destruct (Z.ltb_spec (segments p) 1) as [HN|HN].
  - now destruct (generate_from_writes p _ (build_knob_no_segments p HN) I).
  - destruct (nut_missing p) eqn:Hmiss.
    + now destruct (generate_from_writes p _ (build_knob_nut_missing p HN Hmiss) I).
    + now destruct (generate_of_patch p _ (build_knob_ok p HN Hmiss)
                                      (knob_patch_wf p)).
Qed.

(** ** The top ring of the shell *)

Lemma last_app_nonempty {A : Type} (l l' : list A) (d : A) :
  l' <> [] -> last (l ++ l') d = last l' d.
Proof.
  intros H. induction l as [|x xs IH]; [reflexivity|].
  simpl. destruct (xs ++ l') eqn:E; [|exact IH].
  apply app_eq_nil in E. destruct E; congruence.
Qed.

Lemma last_map {A B : Type} (f : A -> B) (l : list A) (d : A) (d' : B) :
  l <> [] -> last (map f l) d' = f (last l d).
Proof.
  induction l as [|x xs IH]; [congruence|]. intros _.
  destruct xs as [|y ys]; [reflexivity|].
  change (last (map f (y :: ys)) d' = f (last (y :: ys) d)).
  apply IH. discriminate.
Qed.

(** The top ring of the stack, case by case. *)
Lemma knob_rings_last (p : KnobParams) :
  last (knob_rings p) []
  = if is_dome p then
      dome_ring (shell_z_base p + knob_height p) (shell_z_fillet_start p)
                (body_points p) 12
    else if has_top_fillet p then
      top_fillet_ring p (shell_z_fillet_start p) (body_points p) 8
    else ring_at (shell_z_fillet_start p) (body_points p).
Proof.
  unfold knob_rings, shell_rings.
  rewrite last_app_nonempty.
  2:{ destruct (has_bottom_fillet p); discriminate. }
  rewrite last_app_nonempty by discriminate.
  destruct (is_dome p); [|destruct (has_top_fillet p)].
  - rewrite last_app_nonempty by discriminate.
    now rewrite (last_map _ _ 0%nat) by discriminate.
  - rewrite last_app_nonempty by discriminate.
    now rewrite (last_map _ _ 0%nat) by discriminate.
  - reflexivity.
Qed.

Lemma dome_factor_last (h : R) : dome_factor h 12 = 0.
Proof.
  unfold dome_factor. destruct (Rgtb_spec h 0) as [H|H]; [|reflexivity].
  INR_lits.
  replace (1 - (h * (12 / 12) / h) ^ 2) with 0 by (field; lra).
  rewrite Rmax_left by lra. apply sqrt_0.
Qed.

Lemma dome_last_ring_points (p : KnobParams) (q : Point3) :
  is_dome p = true ->
  In q (last (knob_rings p) []) -> q = (0, 0, shell_z_base p + knob_height p).
Proof.
  intros Hd Hq. rewrite knob_rings_last, Hd in Hq.
  unfold dome_ring in Hq. apply in_map_iff in Hq. destruct Hq as [pt [<- _]].
  rewrite dome_factor_last. INR_lits.
  f_equal; [f_equal|]; field.
Qed.

Lemma nth_0_In {A : Type} (l : list A) (d : A) : (0 < length l)%nat -> In (nth 0 l d) l.
Proof. intros H. now apply nth_In. Qed.

Lemma dome_top_radius (p : KnobParams) :
  (1 <= segments p)%Z -> is_dome p = true ->
  radius_of_first (last (knob_rings p) []) = 0.
Proof.
  intros HN Hd. unfold radius_of_first.
  rewrite (dome_last_ring_points p (nth 0 (last (knob_rings p) []) origin3) Hd).
  - unfold px, py. simpl. replace (0 ^ 2 + 0 ^ 2) with 0 by ring. apply sqrt_0.
  - apply nth_0_In. rewrite knob_rings_top_length. lia.
Qed.

(** ** The dish *)

Lemma theta_0 (n : Z) : theta n 0 = 0.
Proof. unfold theta. change (INR 0) with 0. unfold Rdiv. ring. Qed.

Lemma dish_radius_ge (p : KnobParams) (s : nat) : dish_hole_r p <= dish_radius p s.
Proof.
  unfold dish_radius. cbv zeta.
  destruct (Rltb_spec (recess_diameter p / 2 * (1 - INR s / 5)) (dish_hole_r p)); lra.
Qed.

Lemma dish_radius_5 (p : KnobParams) :
  0 <= dish_hole_r p -> dish_radius p 5 = dish_hole_r p.
Proof.
  intros H. unfold dish_radius. cbv zeta. INR_lits.
  replace (recess_diameter p / 2 * (1 - 5 / 5)) with 0 by field.
  destruct (Rltb_spec 0 (dish_hole_r p)); lra.
Qed.

(** The loop ends on a ring within 0.001 of [hole_r], if its last step
    would. *)
Lemma dish_steps_run_last (p : KnobParams) (steps : list nat) :
  steps <> [] ->
  dish_radius p (last steps 0%nat) <= dish_hole_r p + 0.001 ->
  dish_radius p (last (dish_steps_run p steps) 0%nat) <= dish_hole_r p + 0.001.
Proof.
  induction steps as [|s rest IH]; [congruence|]. intros _ Hlast.
  simpl dish_steps_run.
  destruct (Rleb_spec (dish_radius p s) (dish_hole_r p + 0.001)) as [H|H].
  - exact H.
  - destruct rest as [|s' rest'].
    + simpl in Hlast. lra.
    + change (last (s :: s' :: rest') 0%nat) with (last (s' :: rest') 0%nat) in Hlast.
      specialize (IH ltac:(discriminate) Hlast).
      pose proof (dish_steps_run_nonempty p s' rest') as Hne.
      destruct (dish_steps_run p (s' :: rest')) eqn:E; [congruence|].
      exact IH.
Qed.

Lemma dish_final_ring (p : KnobParams) (z : R) :
  last (dish_rings_of p z) []
  = dish_ring p z (last (dish_steps_run p (seq 1 5)) 0%nat).
Proof.
  unfold dish_rings_of.
  change (?a :: map ?f ?l) with ([a] ++ map f l).
  rewrite last_app_nonempty.
  - apply last_map. apply dish_steps_run_nonempty.
  - pose proof (dish_steps_run_nonempty p 1 (seq 2 4)) as H.
    change (1%nat :: seq 2 4) with (seq 1 5) in H.
    destruct (dish_steps_run p (seq 1 5)); [congruence|discriminate].
Qed.

Lemma dish_final_radius_bounds (p : KnobParams) :
  0 <= dish_hole_r p ->
  dish_hole_r p
  <= dish_radius p (last (dish_steps_run p (seq 1 5)) 0%nat)
  <= dish_hole_r p + 0.001.
Proof.
  intros H. split; [apply dish_radius_ge|].
  apply dish_steps_run_last; [discriminate|].
  change (last (seq 1 5) 0%nat) with 5%nat. rewrite dish_radius_5 by assumption. lra.
Qed.

Lemma dish_ring_first (p : KnobParams) (z : R) (s : nat) :
  (1 <= segments p)%Z ->
  nth 0 (dish_ring p z s) origin3 = (dish_radius p s, 0, dish_z p z s).
Proof.
  intros HN. unfold dish_ring, range.
  destruct (Z.to_nat (segments p)) as [|n] eqn:E; [lia|].
  simpl. rewrite theta_0, cos_0, sin_0, Rmult_1_r, Rmult_0_r. reflexivity.
Qed.

Lemma dish_final_first_radius (p : KnobParams) (z : R) :
  (1 <= segments p)%Z -> 0 <= dish_hole_r p ->
  radius_of_first (last (dish_rings_of p z) [])
  = dish_radius p (last (dish_steps_run p (seq 1 5)) 0%nat).
Proof.
  intros HN Hh. rewrite dish_final_ring. unfold radius_of_first.
  rewrite dish_ring_first by assumption.
  pose proof (dish_final_radius_bounds p Hh) as Hb.
  set (r := dish_radius p (last (dish_steps_run p (seq 1 5)) 0%nat)) in *.
  unfold px, py. cbn [fst snd].
  replace (r ^ 2 + 0 ^ 2) with (Rsqr r) by (unfold Rsqr; ring).
  apply sqrt_Rsqr. lra.
Qed.

(** ** Triangle count of a successful call *)

Lemma dish_rings_count (p : KnobParams) (z : R) :
  length (dish_rings_of p z) = S (length (dish_steps_run p (seq 1 5))).
Proof. unfold dish_rings_of. simpl. now rewrite length_map. Qed.

(** In a recess the guard of the apex fan is never true. *)
Lemma dish_fan_guard (p : KnobParams) (z : R) :
  (1 <= segments p)%Z ->
  negb (is_open_top p)
  && Rgtb (radius_of_first (last (dish_rings_of p z) [])) 0.1 = false.
Proof.
  intros HN. destruct (is_open_top p) eqn:Hopen; [reflexivity|]. cbn [negb andb].
  assert (Hth : through_hole p = false).
  { unfold is_open_top in Hopen. now destruct (through_hole p). }
  assert (Hh : dish_hole_r p = 0) by (unfold dish_hole_r; now rewrite Hth).
  assert (Hh0 : 0 <= dish_hole_r p) by lra.
  rewrite (dish_final_first_radius p z HN Hh0).
  pose proof (dish_final_radius_bounds p Hh0). apply Rgtb_false. lra.
Qed.

Lemma nfaces_top_patch (p : KnobParams) :
  (1 <= segments p)%Z ->
  nfaces (top_patch p (last (knob_rings p) []))
  = (top_faces p * Z.to_nat (segments p))%nat.
Proof.
  intros HN. unfold top_patch, top_faces. cbv zeta.
  destruct (is_dome p) eqn:Hdome.
  - rewrite (dome_top_radius p HN Hdome), Rgtb_false by lra. reflexivity.
  - destruct (Rgtb (recess_depth p) 0).
    + rewrite dish_fan_guard by assumption.
      rewrite !nfaces_app, nfaces_quad_strip, nfaces_shell, nfaces_empty,
        dish_rings_count. simpl. lia.
    + destruct (is_open_top p).
      * rewrite nfaces_quad_strip. lia.
      * rewrite nfaces_fan, fan_pairs_length. lia.
Qed.

Lemma nfaces_nut_pocket (p : KnobParams) :
  nfaces (nut_pocket_patch p) = (nut_faces p * Z.to_nat (segments p))%nat.
Proof.
  unfold nut_pocket_patch, nut_faces. destruct (nut_info p); [|reflexivity].
  destruct (is_nut_trap p && nut_at_bottom p); [|reflexivity].
  cbv zeta. rewrite nfaces_app, nfaces_wall, nfaces_transition. lia.
Qed.

Lemma nfaces_bore (p : KnobParams) :
  nfaces (bore_patch p (shaft_points p)
                     (top_limit p (shell_z_base p) (last (knob_rings p) [])))
  = (bore_faces p * Z.to_nat (segments p))%nat.
Proof.
  unfold bore_patch, bore_faces. cbv zeta.
  destruct (Rgtb _ _); [|reflexivity].
  rewrite nfaces_app, nfaces_wall.
  destruct (negb (through_hole p) && negb (is_nut_trap p)).
  - rewrite nfaces_fan, fan_pairs_length. lia.
  - rewrite nfaces_empty. lia.
Qed.

Lemma nfaces_knob_patch (p : KnobParams) :
  (1 <= segments p)%Z ->
  nfaces (knob_patch p) = (faces_per_segment p * Z.to_nat (segments p))%nat.
Proof.
  intros HN. unfold knob_patch, faces_per_segment. cbv zeta.
  rewrite !nfaces_app, nfaces_shell, nfaces_top_patch, nfaces_nut_pocket,
    nfaces_bore, nfaces_bottom by assumption.
  unfold knob_rings at 1. rewrite shell_rings_length. lia.
Qed.

(* ================================================================== *)
(** * Further properties of the generator *)

(** ** Outcomes of a call *)

(** X1: with a segment count below one every profile and every ring is
    empty, and the call raises [IndexError] at [top_outer_ring[0]],
    whatever the other parameters. *)
Theorem no_segments_index_error (p : KnobParams) :
  (segments p < 1)%Z -> generate_knob_mesh p = Raise IndexError.
Proof.
  intros HN. rewrite generate_knob_mesh_outcome. unfold knob_outcome.
  now rewrite (proj2 (Z.ltb_lt _ _) HN).
Qed.

Lemma no_segments_index_error_witness :
  generate_knob_mesh (plain_knob 0) = Raise IndexError.
Proof.
  apply (no_segments_index_error (plain_knob 0)). simpl. lia.
Defined.

(** X2: a nut trap called without [nut_info] raises [TypeError]: the bore
    and the bottom subscript [nut_info] for a trap at the bottom, the open
    top does for a trap at the top of a knob without dome and recess,
    although the pocket builder itself skips a missing [nut_info]. *)
Theorem nut_trap_without_nut_info (p : KnobParams) :
  (1 <= segments p)%Z ->
  shaft_type p = "Nut Trap"%string ->
  nut_info p = None ->
  nut_location p = "Bottom"%string
  \/ (nut_location p = "Top"%string /\ is_dome p = false /\ recess_depth p <= 0) ->
  generate_knob_mesh p = Raise TypeError.
Proof.
  intros HN Hsh Hni Hloc. rewrite generate_knob_mesh_outcome. unfold knob_outcome.
  destruct (Z.ltb_spec (segments p) 1) as [H|_]; [lia|].
  assert (Hmiss : nut_missing p = true).
  { unfold nut_missing, top_needs_nut, bottom_needs_nut, is_nut_trap, nut_at_bottom.
    rewrite Hsh, Hni. simpl.
    destruct Hloc as [Hb|[Ht [Hd Hr]]].
    - rewrite Hb. simpl. now rewrite orb_true_r.
    - rewrite Ht, Hd, (Rgtb_false _ _ Hr). reflexivity. }
  now rewrite Hmiss.
Qed.

Lemma nut_trap_without_nut_info_witness :
  generate_knob_mesh (nut_trap_knob None "Bottom" 32) = Raise TypeError.
Proof.
  apply (nut_trap_without_nut_info (nut_trap_knob None "Bottom" 32)).
  - simpl. lia.
  - reflexivity.
  - reflexivity.
  - left. reflexivity.
Defined.

Lemma faces_per_segment_bounds (p : KnobParams) :
  (4 <= faces_per_segment p <= 54)%nat.
Proof.
  unfold faces_per_segment, ring_count, top_faces, nut_faces, bore_faces.
  cbv zeta.
  destruct (dish_steps_run_length p (seq 1 5)) as [Hd5 Hd1].
  specialize (Hd1 ltac:(discriminate)). rewrite length_seq in Hd5.
  set (d := length (dish_steps_run p (seq 1 5))) in *.
  destruct (Rgtb (boss_height p) 0.1), (has_bottom_fillet p), (is_dome p),
    (has_top_fillet p), (Rgtb (recess_depth p) 0), (is_open_top p),
    (nut_info p), (is_nut_trap p), (nut_at_bottom p), (through_hole p),
    (Rgtb _ _); simpl; lia.
Qed.

Lemma in_app_ranges_ok (p : KnobParams) :
  in_app_ranges p -> (1 <= segments p)%Z /\ nut_missing p = false.
Proof.
  unfold in_app_ranges.
  intros (_ & _ & _ & _ & _ & _ & _ & _ & _ & _ & _ & _ & _ & _ & _ & Hseg & Hnut).
  split.
  - simpl in Hseg. lia.
  - unfold nut_missing. destruct (nut_info p) as [ni|] eqn:Hni.
    + apply andb_false_r.
    + destruct (String.eqb_spec (shaft_type p) "Nut Trap") as [E|E].
      * destruct (Hnut E) as [_ [ni [Hsome _]]]. discriminate.
      * unfold top_needs_nut, bottom_needs_nut, is_nut_trap.
        rewrite (proj2 (String.eqb_neq _ _) E).
        now rewrite andb_false_r.
Qed.

(** X3: every call inside the application's input ranges returns a
    mesh: no exception is raised, so the application's [try] never
    fails.  The number of triangles is a multiple of [segments], between
    4 and 54 per segment, every builder adding one or two triangles in
    each turn of a loop over [range(segments)]. *)
Theorem app_calls_succeed (p : KnobParams) :
  in_app_ranges p ->
  exists mesh k,
    generate_knob_mesh p = Ok mesh
    /\ length mesh = (k * Z.to_nat (segments p))%nat
    /\ (4 <= k <= 54)%nat.
Proof.
  intros Hp. destruct (in_app_ranges_ok p Hp) as [HN Hnut].
  exists (patch_triangles (knob_patch p)), (faces_per_segment p).
  split; [|split].
  - rewrite generate_knob_mesh_outcome. unfold knob_outcome.
    destruct (Z.ltb_spec (segments p) 1) as [H|_]; [lia|]. now rewrite Hnut.
  - rewrite patch_triangles_length. now apply nfaces_knob_patch.
  - apply faces_per_segment_bounds.
Qed.

Lemma app_calls_succeed_witness :
  exists mesh k,
    generate_knob_mesh (nut_trap_knob (Some m3_nut) "Bottom" 32) = Ok mesh
    /\ length mesh = (k * Z.to_nat 32)%nat
    /\ (4 <= k <= 54)%nat.
Proof.
  apply (app_calls_succeed (nut_trap_knob (Some m3_nut) "Bottom" 32)).
  unfold in_app_ranges, nut_trap_knob. simpl.
  repeat split; try lra; try lia; try tauto.
  exists m3_nut. split; [reflexivity | now left].
Defined.

(** X4: no parameter combination makes a call divide by zero or take the
    square root of a negative number: the only exceptions are the
    [IndexError] of an empty top ring and the [TypeError] of a missing
    [nut_info]. *)
Theorem generate_never_divides_by_zero (p : KnobParams) :
  generate_knob_mesh p <> Raise ZeroDivisionError
  /\ generate_knob_mesh p <> Raise ValueError.
Proof.
  rewrite generate_knob_mesh_outcome. unfold knob_outcome.
  destruct (segments p <? 1)%Z; [split; discriminate|].
  destruct (nut_missing p); split; discriminate.
Qed.

(** ** The dome *)

Lemma shell_of_call (p : KnobParams) (body boss : list Point2)
      (rings : list (list Point3)) (z_base : R) :
  body_profile_of p = Ok body ->
  boss_profile_of p = Ok boss ->
  outer_shell_rings p body boss = Ok (rings, z_base) ->
  rings = knob_rings p /\ z_base = shell_z_base p.
Proof.
  intros Hb Hs Hr. rewrite body_profile_eq in Hb. rewrite boss_profile_eq in Hs.
  inversion Hb; inversion Hs; subst. rewrite outer_shell_rings_eq in Hr.
  inversion Hr. now split.
Qed.

Lemma top_closure_of_call (p : KnobParams) :
  (1 <= segments p)%Z ->
  top_needs_nut p = false \/ nut_info p <> None ->
  writes (top_closure p (knob_rings p) (shell_z_base p))
         (Ok (top_limit p (shell_z_base p) (last (knob_rings p) []),
              top_patch p (last (knob_rings p) []))).
Proof.
  intros HN Hnut. apply top_closure_writes; try assumption.
  - apply py_last_ok, knob_rings_nonempty.
  - apply knob_rings_top_length.
Qed.

(** X5: with [is_dome] the last ring of the shell is collapsed onto the
    axis at height [z_base + knob_height], so [final_r] is 0 and the apex
    fan of the dome is never built: the top closure appends no vertex and
    no face, also when a through hole is asked for, and hands the bore the
    limit computed before it. *)
Theorem dome_closes_on_axis (p : KnobParams) (body boss : list Point2)
        (rings : list (list Point3)) (z_base : R) :
  (1 <= segments p)%Z ->
  is_dome p = true ->
  body_profile_of p = Ok body ->
  boss_profile_of p = Ok boss ->
  outer_shell_rings p body boss = Ok (rings, z_base) ->
  exists top,
    py_last rings = Ok top
    /\ Forall (fun q => q = (0, 0, z_base + knob_height p)) top
    /\ forall st,
        top_closure p rings z_base st
        = Ok (if through_hole p then z_base + knob_height p else hole_depth p,
              st).
Proof.
  intros HN Hd Hb Hs Hr.
  destruct (shell_of_call p body boss rings z_base Hb Hs Hr) as [-> ->].
  exists (last (knob_rings p) []). split; [|split].
  - apply py_last_ok, knob_rings_nonempty.
  - apply Forall_forall. intros q Hq. now apply dome_last_ring_points.
  - intros st.
    assert (Hw := top_closure_of_call p HN).
    rewrite (Hw ltac:(left; unfold top_needs_nut; now rewrite Hd) st).
    unfold top_limit, top_patch, top_limit_before.
    rewrite Hd, (dome_top_radius p HN Hd), Rgtb_false by lra.
    now rewrite emit_patch_empty.
Qed.

Lemma dome_closes_on_axis_witness :
  exists top,
    py_last (knob_rings (dome_knob 32)) = Ok top
    /\ Forall (fun q => q = (0, 0, shell_z_base (dome_knob 32) + 15)) top
    /\ forall st,
        top_closure (dome_knob 32) (knob_rings (dome_knob 32))
                    (shell_z_base (dome_knob 32)) st
        = Ok (10, st).
Proof.
  apply (dome_closes_on_axis (dome_knob 32) (body_points (dome_knob 32))
                             (boss_points (dome_knob 32))).
  - simpl. lia.
  - reflexivity.
  - apply body_profile_eq.
  - apply boss_profile_eq.
  - apply outer_shell_rings_eq.
Defined.

(** ** The finger dish *)

Lemma polar_norm (r t : R) : (r * cos t) ^ 2 + (r * sin t) ^ 2 = r ^ 2.
Proof.
  pose proof (sin2_cos2 t) as H. unfold Rsqr in H.
  replace ((r * cos t) ^ 2 + (r * sin t) ^ 2)
    with (r ^ 2 * (sin t * sin t + cos t * cos t)) by ring.
  rewrite H. ring.
Qed.


(** X6: the dish loop always ends on a ring within 0.001 of its floor
    radius [hole_r] ([shaft_dia/2] for a through hole, 0 otherwise) and
    never below it, after one to five steps: a blind dish closes on the
    axis and a through dish lands on the bore.  The guard of the dish's
    apex fan is then false in both cases, so that fan is never built. *)
Theorem dish_ends_at_floor (p : KnobParams) (z_top_mesh : R)
        (start : list Point3) :
  (1 <= segments p)%Z ->
  0 <= shaft_dia p ->
  let hole_r := if through_hole p then shaft_dia p / 2 else 0 in
  exists rings final r,
    dish_loop p z_top_mesh hole_r (range1 5) [start] = Ok rings
    /\ (2 <= length rings <= 6)%nat
    /\ py_last rings = Ok final
    /\ length final = Z.to_nat (segments p)
    /\ hole_r <= r <= hole_r + 0.001
    /\ Forall (fun q => axis_dist2 q = r ^ 2) final
    /\ first_point_radius final = Ok r
    /\ negb (is_open_top p) && Rgtb r 0.1 = false.
Proof.
  intros HN Hs hole_r.
  assert (Hh : hole_r = dish_hole_r p) by reflexivity.
  assert (Hh0 : 0 <= dish_hole_r p).
  { unfold dish_hole_r. destruct (through_hole p); lra. }
  set (sf := last (dish_steps_run p (seq 1 5)) 0%nat).
  set (rings := [start] ++ map (dish_ring p z_top_mesh) (dish_steps_run p (seq 1 5))).
  assert (Hne : dish_steps_run p (seq 1 5) <> [])
    by apply (dish_steps_run_nonempty p 1 (seq 2 4)).
  assert (Hlast : last rings [] = dish_ring p z_top_mesh sf).
  { unfold rings. rewrite last_app_nonempty.
    - now apply last_map.
    - destruct (dish_steps_run p (seq 1 5)); [congruence | discriminate]. }
  assert (Hlen : length rings = S (length (dish_steps_run p (seq 1 5)))).
  { unfold rings. rewrite length_app, length_map. reflexivity. }
  exists rings, (dish_ring p z_top_mesh sf), (dish_radius p sf).
  rewrite Hh. repeat split.
  - unfold range1. apply dish_loop_eq.
  - rewrite Hlen. destruct (dish_steps_run_length p (seq 1 5)) as [_ H].
    specialize (H ltac:(discriminate)). lia.
  - rewrite Hlen. destruct (dish_steps_run_length p (seq 1 5)) as [H _].
    rewrite length_seq in H. lia.
  - rewrite <- Hlast. apply py_last_ok. unfold rings. discriminate.
  - apply dish_ring_length.
  - apply dish_radius_ge.
  - apply (dish_final_radius_bounds p Hh0).
  - unfold dish_ring. apply Forall_map, Forall_forall. intros i _.
    unfold axis_dist2, px, py. cbn [fst snd]. apply polar_norm.
  - rewrite first_point_radius_eq by (rewrite dish_ring_length; lia).
    f_equal. unfold radius_of_first. rewrite dish_ring_first by assumption.
    unfold px, py. cbn [fst snd].
    replace (dish_radius p sf ^ 2 + 0 ^ 2) with (Rsqr (dish_radius p sf))
      by (unfold Rsqr; ring).
    apply sqrt_Rsqr. pose proof (dish_radius_ge p sf). lra.
  - destruct (is_open_top p) eqn:Hopen; [reflexivity|]. cbn [negb andb].
    assert (Hth : through_hole p = false).
    { unfold is_open_top in Hopen. now destruct (through_hole p). }
    pose proof (dish_final_radius_bounds p Hh0) as Hb. fold sf in Hb.
    unfold dish_hole_r in Hb. rewrite Hth in Hb. apply Rgtb_false. lra.
Qed.

Lemma dish_ends_at_floor_witness :
  exists rings final r,
    dish_loop (dish_knob 32) 15 0 (range1 5) [[]] = Ok rings
    /\ (2 <= length rings <= 6)%nat
    /\ py_last rings = Ok final
    /\ length final = Z.to_nat 32
    /\ 0 <= r <= 0 + 0.001
    /\ Forall (fun q => axis_dist2 q = r ^ 2) final
    /\ first_point_radius final = Ok r
    /\ negb (is_open_top (dish_knob 32)) && Rgtb r 0.1 = false.
Proof.
  apply (dish_ends_at_floor (dish_knob 32) 15 []).
  - simpl. lia.
  - simpl. lra.
Defined.

(** ** The shaft *)

(** X8: the special case for a 6 mm D-shaft changes nothing: the shaft
    profile of a D-shaft is always the D-shaft profile for
    [flat_to_opposite = shaft_dia * 0.75], at 6 mm as at any other
    diameter, and no point of it lies above the cut distance
    [shaft_dia * 0.75 - shaft_dia / 2] along x. *)
Theorem d_shaft_special_case_is_redundant (p : KnobParams) :
  shaft_type p = "D-Shaft"%string ->
  exists prof,
    shaft_profile_of p = Ok prof
    /\ create_d_shaft_profile (shaft_dia p) (shaft_dia p * 0.75) (segments p)
       = Ok prof
    /\ Forall (fun q : Point2 => fst q <= shaft_dia p * 0.75 - shaft_dia p / 2)
              prof.
Proof.
  intros Hsh.
  assert (Hflat : (if Reqb (shaft_dia p) 6 then 4.5 else shaft_dia p * 0.75)
                  = shaft_dia p * 0.75).
  { unfold Reqb. destruct (Req_dec_T (shaft_dia p) 6) as [E|E]; [rewrite E; lra|].
    reflexivity. }
  exists (map (d_shaft_point (shaft_dia p) (shaft_dia p * 0.75) (segments p))
              (range (segments p))).
  split; [|split].
  - unfold shaft_profile_of. rewrite Hsh. simpl. rewrite Hflat.
    apply create_d_shaft_profile_eq.
  - apply create_d_shaft_profile_eq.
  - apply Forall_map, Forall_forall. intros i _. apply d_shaft_point_x.
Qed.

Lemma d_shaft_special_case_is_redundant_witness :
  exists prof,
    shaft_profile_of (dome_knob 32) = Ok prof
    /\ create_d_shaft_profile 6 (6 * 0.75) 32 = Ok prof
    /\ Forall (fun q : Point2 => fst q <= 6 * 0.75 - 6 / 2) prof.
Proof.
  apply (d_shaft_special_case_is_redundant (dome_knob 32)). reflexivity.
Defined.

(** ** The profile generators *)

Lemma lobed_radius_bounds (d : R) (lobes : Z) (ratio : R) (n : Z) (i : nat) :
  0 <= d -> 0 <= ratio <= 1 ->
  d / 2 * (1 - 0.6 * ratio) <= lobed_radius d lobes ratio n i <= d / 2.
Proof.
  intros Hd Hr. unfold lobed_radius. cbv zeta.
  pose proof (COS_bound (IZR lobes * theta n i)) as [Hc1 Hc2].
  set (c := cos (IZR lobes * theta n i)) in *.
  assert (Hamp : 0 <= (d / 2 - d / 2 * (1 - 0.6 * ratio)) / 2) by nra.
  split; nra.
Qed.

Lemma polygon_sector_angle (sides : Z) (t : R) :
  (3 <= sides)%Z ->
  let period := 2 * PI / IZR sides in
  - (PI / IZR sides) <= float_mod t period - period / 2 < PI / IZR sides.
Proof.
  intros Hs period.
  assert (H3 : 3 <= IZR sides) by (now apply IZR_le).
  assert (Hpi := PI_RGT_0).
  assert (Hper : 0 < period) by (unfold period; apply Rdiv_lt_0_compat; lra).
  destruct (float_mod_bounds t period Hper) as [H0 H1].
  assert (Hhalf : period / 2 = PI / IZR sides) by (unfold period; field; lra).
  lra.
Qed.

Lemma polygon_radius_bounds (d : R) (sides n : Z) (i : nat) :
  (3 <= sides)%Z -> 0 <= d ->
  d / 2 <= polygon_radius d sides n i <= d / 2 / cos (PI / IZR sides).
Proof.
  intros Hs Hd. unfold polygon_radius. cbv zeta.
  pose proof (polygon_sector_cos sides (theta n i - 0) Hs) as Hcos.
  pose proof (polygon_sector_angle sides (theta n i - 0) Hs) as [Ha1 Ha2].
  cbv zeta in Hcos, Ha1, Ha2.
  set (a := float_mod (theta n i - 0) (2 * PI / IZR sides) - 2 * PI / IZR sides / 2) in *.
  assert (H3 : 3 <= IZR sides) by (now apply IZR_le).
  assert (Hpi := PI_RGT_0).
  assert (Hw : 0 < PI / IZR sides <= PI / 3).
  { split; [apply Rdiv_lt_0_compat; lra|].
    unfold Rdiv. apply Rmult_le_compat_l; [lra|]. apply Rinv_le_contravar; lra. }
  assert (Hcw : 0 < cos (PI / IZR sides)) by (apply cos_gt_0; lra).
  assert (Hle : cos (PI / IZR sides) <= cos a).
  { destruct (Rle_dec 0 a).
    - apply cos_decr_1; lra.
    - rewrite <- (cos_neg a). apply cos_decr_1; lra. }
  pose proof (COS_bound a) as [_ Hc1].
  split.
  - assert (Hinv : / 1 <= / cos a) by (apply Rinv_le_contravar; lra).
    rewrite Rinv_1 in Hinv. unfold Rdiv at 2. nra.
  - unfold Rdiv. apply Rmult_le_compat_l; [lra|].
    apply Rinv_le_contravar; assumption.
Qed.

(** X12: for at least three sides and a width [>= 0] the polygon profile
    returns one point per segment, each between the inscribed circle of
    radius [diameter/2] and the circumscribed circle of radius
    [diameter/2 / cos(pi/sides)]: the samples lie on the flats. *)
Theorem polygon_profile_between (diameter : R) (sides segments : Z) :
  (3 <= sides)%Z -> 0 <= diameter ->
  exists prof,
    create_polygon_profile diameter sides segments = Ok prof
    /\ length prof = Z.to_nat segments
    /\ Forall (fun q => (diameter / 2) ^ 2 <= norm2 q
                        <= (diameter / 2 / cos (PI / IZR sides)) ^ 2) prof.
Proof.
  intros Hs Hd.
  exists (map (polygon_point diameter sides segments) (range segments)).
  split; [now apply create_polygon_profile_eq|]. split.
  - now rewrite length_map, range_length.
  - apply Forall_map, Forall_forall. intros i _.
    unfold norm2, polygon_point. cbn [fst snd]. rewrite polar_norm.
    pose proof (polygon_radius_bounds diameter sides segments i Hs Hd) as [H1 H2].
    set (r := polygon_radius diameter sides segments i) in *.
    set (c := diameter / 2 / cos (PI / IZR sides)) in *.
    split; nra.
Qed.

Lemma polygon_profile_between_witness :
  exists prof,
    create_polygon_profile 5.7 6 64 = Ok prof
    /\ length prof = Z.to_nat 64
    /\ Forall (fun q => (5.7 / 2) ^ 2 <= norm2 q
                        <= (5.7 / 2 / cos (PI / IZR 6)) ^ 2) prof.
Proof.
  apply (polygon_profile_between 5.7 6 64); [lia | lra].
Defined.

(** X13: a polygon of zero sides raises [ZeroDivisionError] at the sector
    period [2*pi/sides], before any point is sampled: also when no
    segment is asked for. *)
Theorem polygon_zero_sides (diameter : R) (segments : Z) :
  create_polygon_profile diameter 0 segments = Raise ZeroDivisionError.
Proof.
  unfold create_polygon_profile.
  assert (Hsq : sqrt 3 / 2 <> 0).
  { assert (0 < sqrt 3) by (apply sqrt_lt_R0; lra). lra. }
  rewrite (py_div_ok _ _ Hsq). simpl.
  unfold py_div. now rewrite Reqb_true.
Qed.

(** ** Vertices of the closed forms *)

Lemma pverts_concat (l : list Patch) :
  pverts (patch_concat l) = flat_map pverts l.
Proof. induction l as [|P ps IH]; simpl; [reflexivity | now rewrite IH]. Qed.

Lemma Forall_flat_map_intro {A B : Type} (Q : B -> Prop) (f : A -> list B)
      (l : list A) :
  (forall x, In x l -> Forall Q (f x)) -> Forall Q (flat_map f l).
Proof.
  intros H. induction l as [|x xs IH]; simpl; [constructor|].
  apply Forall_app. split; [apply H; now left | apply IH; intros; apply H; now right].
Qed.

Lemma Forall_nth {A : Type} (Q : A -> Prop) (l : list A) (i : nat) (d : A) :
  Forall Q l -> (i < length l)%nat -> Q (nth i l d).
Proof. intros H Hi. rewrite Forall_forall in H. now apply H, nth_In. Qed.

Lemma wall_patch_verts (Q : Point2 -> Prop) (n : nat) (prof : list Point2)
      (z_lo z_hi : R) :
  length prof = n -> Forall Q prof ->
  Forall (fun v => Q (px v, py v)) (pverts (wall_patch n prof z_lo z_hi)).
Proof.
  intros Hlen HQ. unfold wall_patch. rewrite pverts_concat, flat_map_concat_map, map_map,
    <- flat_map_concat_map.
  apply Forall_flat_map_intro. intros i Hi. apply in_seq in Hi.
  assert (Hs : (succ_mod n i < n)%nat) by (apply succ_mod_lt; lia).
  pose proof (Forall_nth Q prof i origin2 HQ ltac:(lia)) as H1.
  pose proof (Forall_nth Q prof (succ_mod n i) origin2 HQ ltac:(lia)) as H2.
  destruct (nth i prof origin2) as [x1 y1], (nth (succ_mod n i) prof origin2) as [x2 y2].
  repeat constructor; assumption.
Qed.

Lemma bottom_patch_verts (Q : Point3 -> Prop) (n : nat) (outer inner : list Point3) :
  length outer = n -> length inner = n -> Forall Q outer -> Forall Q inner ->
  Forall Q (pverts (bottom_patch n outer inner)).
Proof.
  intros Ho Hi HQo HQi. unfold bottom_patch.
  rewrite pverts_concat, flat_map_concat_map, map_map, <- flat_map_concat_map.
  apply Forall_flat_map_intro. intros i Hin. apply in_seq in Hin.
  assert (Hs : (succ_mod n i < n)%nat) by (apply succ_mod_lt; lia).
  simpl. repeat constructor; apply Forall_nth; try assumption; lia.
Qed.

(** ** The cavity *)

(** X7: the bore of a nut trap is an open tube: whether or not the hole
    is a through hole, the bore builder appends the wall only, two
    triangles per segment when the bore top is above the pocket, and no
    apex fan: every vertex it appends lies on the bolt circle of radius
    [shaft_dia/2], none on the axis. *)
Theorem nut_trap_bore_is_open_tube (p : KnobParams) (ni : NutInfo)
        (prof : list Point2) (z_limit : R) :
  shaft_type p = "Nut Trap"%string ->
  nut_info p = Some ni ->
  shaft_profile_of p = Ok prof ->
  let z_top := if through_hole p then z_limit else hole_depth p in
  let z_bot := if String.eqb (nut_location p) "Bottom" then height ni + 0.2 else 0 in
  exists P,
    (forall st, shaft_bore p prof z_limit st = Ok (tt, emit_patch P st))
    /\ nfaces P = (if Rgtb z_top z_bot then 2 * Z.to_nat (segments p) else 0)%nat
    /\ Forall (fun v => axis_dist2 v = (shaft_dia p / 2) ^ 2) (pverts P).
Proof.
  intros Hsh Hni Hprof z_top z_bot.
  assert (Hnt : is_nut_trap p = true) by (unfold is_nut_trap; now rewrite Hsh).
  assert (Hp : prof = map (circle_point (shaft_dia p) (segments p)) (range (segments p))).
  { rewrite shaft_profile_eq in Hprof. inversion Hprof. unfold shaft_points.
    now rewrite Hsh. }
  assert (Hlen : length prof = Z.to_nat (segments p))
    by (rewrite Hp; now rewrite length_map, range_length).
  exists (bore_patch p prof z_limit). split; [|split].
  - apply shaft_bore_writes; [assumption|]. right. now rewrite Hni.
  - unfold bore_patch, bore_z_bot, bore_z_top. cbv zeta.
    rewrite Hnt, Hni. fold (nut_at_bottom p). fold z_top. simpl.
    change (if nut_at_bottom p then height ni + 0.2 else 0) with z_bot.
    destruct (Rgtb z_top z_bot); [|reflexivity].
    rewrite andb_false_r, nfaces_app, nfaces_wall, nfaces_empty. lia.
  - unfold bore_patch. cbv zeta. destruct (Rgtb _ _); [|constructor].
    rewrite Hnt, andb_false_r, patch_app_empty_r.
    apply (wall_patch_verts (fun q => norm2 q = (shaft_dia p / 2) ^ 2));
      [assumption|].
    rewrite Hp. apply Forall_map, Forall_forall. intros i _.
    unfold norm2, circle_point. cbn [fst snd]. apply polar_norm.
Qed.

Lemma nut_trap_bore_is_open_tube_witness :
  exists P,
    (forall st,
        shaft_bore (nut_trap_knob (Some m3_nut) "Bottom" 32)
                   (shaft_points (nut_trap_knob (Some m3_nut) "Bottom" 32)) 15 st
        = Ok (tt, emit_patch P st))
    /\ nfaces P = (if Rgtb 15 (2.4 + 0.2) then 2 * Z.to_nat 32 else 0)%nat
    /\ Forall (fun v => axis_dist2 v = (3.2 / 2) ^ 2) (pverts P).
Proof.
  apply (nut_trap_bore_is_open_tube (nut_trap_knob (Some m3_nut) "Bottom" 32) m3_nut).
  - reflexivity.
  - reflexivity.
  - apply shaft_profile_eq.
Defined.

(** ** Heights *)

Lemma knob_rings_first (p : KnobParams) (q : Point3) :
  In q (nth 0 (knob_rings p) []) -> pz q = 0.
Proof.
  unfold knob_rings, shell_rings, shell_z_base.
  destruct (Rgtb (boss_height p) 0.1).
  - simpl. unfold ring_at. intros H. apply in_map_iff in H.
    now destruct H as [pt [<- _]].
  - rewrite app_nil_l. destruct (has_bottom_fillet p).
    + simpl. unfold bottom_fillet_ring. intros H. apply in_map_iff in H.
      destruct H as [pt [<- _]]. unfold inset_point, pz. cbn [snd].
      change (INR 0) with 0. unfold Rdiv. ring.
    + simpl. unfold ring_at. intros H. apply in_map_iff in H.
      now destruct H as [pt [<- _]].
Qed.

(** X15: the underside is flat at [z = 0] whatever the boss, the fillets
    and the shaft: the bottom annulus, built between the first ring of the
    shell and the profile of the cavity, has two triangles per segment and
    all its vertices at height 0. *)
Theorem base_is_flat (p : KnobParams) (body boss shaft : list Point2)
        (rings : list (list Point3)) (z_base : R) :
  body_profile_of p = Ok body ->
  boss_profile_of p = Ok boss ->
  shaft_profile_of p = Ok shaft ->
  outer_shell_rings p body boss = Ok (rings, z_base) ->
  nut_missing p = false ->
  exists P,
    (forall st, bottom_cap p rings shaft st = Ok (tt, emit_patch P st))
    /\ nfaces P = (2 * Z.to_nat (segments p))%nat
    /\ Forall (fun v => pz v = 0) (pverts P).
Proof.
  intros Hb Hs Hsh Hr Hnut.
  destruct (shell_of_call p body boss rings z_base Hb Hs Hr) as [-> ->].
  rewrite shaft_profile_eq in Hsh. inversion Hsh; subst shaft. clear Hsh.
  destruct (nut_missing_false p Hnut) as [_ Hbot].
  exists (bottom_patch (Z.to_nat (segments p)) (nth 0 (knob_rings p) [])
                       (inner_bottom_of p (shaft_points p))).
  split; [|split].
  - apply bottom_cap_writes; try assumption.
    + pose proof (shell_rings_length p (body_points p) (boss_points p)).
      pose proof (ring_count_ge_2 p). unfold knob_rings. lia.
    + apply knob_rings_bottom_length.
    + apply shaft_points_length.
  - apply nfaces_bottom.
  - apply bottom_patch_verts.
    + apply knob_rings_bottom_length.
    + apply inner_bottom_length; [apply shaft_points_length | assumption].
    + apply Forall_forall. intros q Hq. now apply (knob_rings_first p).
    + unfold inner_bottom_of.
      destruct (is_nut_trap p && nut_at_bottom p); [destruct (nut_info p)|];
        try constructor; apply Forall_map, Forall_forall; now intros pt _.
Qed.

Lemma base_is_flat_witness :
  exists P,
    (forall st,
        bottom_cap (dome_knob 32) (knob_rings (dome_knob 32))
                   (shaft_points (dome_knob 32)) st
        = Ok (tt, emit_patch P st))
    /\ nfaces P = (2 * Z.to_nat 32)%nat
    /\ Forall (fun v => pz v = 0) (pverts P).
Proof.
  apply (base_is_flat (dome_knob 32) (body_points (dome_knob 32))
                      (boss_points (dome_knob 32)) _ _ (shell_z_base (dome_knob 32))).
  - apply body_profile_eq.
  - apply boss_profile_eq.
  - apply shaft_profile_eq.
  - apply outer_shell_rings_eq.
  - unfold nut_missing. simpl. reflexivity.
Defined.

(** X14: without a dome, and for a top fillet height [>= 0], the top ring
    of the shell is at [z_base + max(knob_height, b + top_fillet_height)],
    where [b] is the bottom fillet height if there is a bottom fillet and
    0 otherwise, and [z_base] is the boss height if it exceeds 0.1 and 0
    otherwise: [knob_height] is kept only if the fillets fit under it. *)
Theorem top_ring_height (p : KnobParams) (body boss : list Point2)
        (rings : list (list Point3)) (z_base : R) :
  is_dome p = false ->
  0 <= top_fillet_height p ->
  body_profile_of p = Ok body ->
  boss_profile_of p = Ok boss ->
  outer_shell_rings p body boss = Ok (rings, z_base) ->
  let b := if Rgtb (bottom_fillet_radius p) 0 || Rgtb (bottom_fillet_height p) 0
           then bottom_fillet_height p else 0 in
  z_base = (if Rgtb (boss_height p) 0.1 then boss_height p else 0)
  /\ exists top,
      py_last rings = Ok top
      /\ Forall (fun q => pz q = z_base + Rmax (knob_height p)
                                               (b + top_fillet_height p)) top.
Proof.
  intros Hd Ht Hb Hs Hr b.
  destruct (shell_of_call p body boss rings z_base Hb Hs Hr) as [-> ->].
  split; [reflexivity|].
  exists (last (knob_rings p) []). split; [apply py_last_ok, knob_rings_nonempty|].
  rewrite knob_rings_last, Hd.
  assert (Hcz : shell_current_z p = shell_z_base p + b).
  { unfold shell_current_z, b, has_bottom_fillet.
    destruct (Rgtb (bottom_fillet_radius p) 0 || Rgtb (bottom_fillet_height p) 0); lra. }
  assert (Hzfs : shell_z_fillet_start p
                 = Rmax (shell_z_base p + b)
                        (shell_z_base p + knob_height p - top_fillet_height p)).
  { unfold shell_z_fillet_start. now rewrite Hd, Hcz. }
  apply Forall_forall. intros q Hq.
  destruct (has_top_fillet p) eqn:Htf.
  - unfold top_fillet_ring in Hq. apply in_map_iff in Hq.
    destruct Hq as [pt [<- _]]. unfold inset_point, pz. cbn [snd].
    rewrite Hzfs. INR_lits. unfold Rmax.
    repeat destruct (Rle_dec _ _); lra.
  - unfold ring_at in Hq. apply in_map_iff in Hq.
    destruct Hq as [pt [<- _]]. unfold pz. cbn [snd].
    unfold has_top_fillet in Htf. apply orb_false_elim in Htf.
    destruct Htf as [_ Hth]. destruct (Rgtb_spec (top_fillet_height p) 0); [discriminate|].
    rewrite Hzfs. unfold Rmax. repeat destruct (Rle_dec _ _); lra.
Qed.

Lemma top_ring_height_witness :
  shell_z_base (nut_trap_knob (Some m3_nut) "Bottom" 32)
  = (if Rgtb 0 0.1 then 0 else 0)
  /\ exists top,
      py_last (knob_rings (nut_trap_knob (Some m3_nut) "Bottom" 32)) = Ok top
      /\ Forall (fun q => pz q
                          = shell_z_base (nut_trap_knob (Some m3_nut) "Bottom" 32)
                            + Rmax 15 ((if Rgtb 0 0 || Rgtb 0 0 then 0 else 0) + 2))
                top.
Proof.
  apply (top_ring_height (nut_trap_knob (Some m3_nut) "Bottom" 32)
           (body_points (nut_trap_knob (Some m3_nut) "Bottom" 32))
           (boss_points (nut_trap_knob (Some m3_nut) "Bottom" 32))).
  - reflexivity.
  - simpl. lra.
  - apply body_profile_eq.
  - apply boss_profile_eq.
  - apply outer_shell_rings_eq.
Defined.

(** ** Sample angles *)

Lemma nth_map_range {B : Type} (g : nat -> B) (n : Z) (i : nat) (d : B) :
  (i < Z.to_nat n)%nat -> nth i (map g (range n)) d = g i.
Proof.
  intros H. unfold range.
  rewrite (nth_indep _ d (g 0%nat)) by (now rewrite length_map, length_seq).
  rewrite (map_nth g (seq 0 (Z.to_nat n)) 0%nat i).
  now rewrite seq_nth.
Qed.

Lemma IZR_to_nat (n : Z) : (0 <= n)%Z -> INR (Z.to_nat n) = IZR n.
Proof. intros H. rewrite INR_IZR_INZ. now rewrite Z2Nat.id. Qed.

Lemma theta_range (n : Z) (i : nat) :
  (i < Z.to_nat n)%nat -> 0 <= theta n i < 2 * PI.
Proof.
  intros H. assert (Hn : (0 < n)%Z) by lia.
  assert (Hn' : 0 < IZR n) by (now apply IZR_lt).
  assert (Hi : 0 <= INR i) by apply pos_INR.
  assert (Hlt : INR i < IZR n).
  { rewrite <- IZR_to_nat by lia. now apply lt_INR. }
  assert (Hpi := PI_RGT_0). unfold theta. split.
  - apply Rmult_le_pos; [nra | left; now apply Rinv_0_lt_compat].
  - replace (2 * PI) with (2 * PI * IZR n / IZR n) at 2 by (field; lra).
    unfold Rdiv. apply Rmult_lt_compat_r; [now apply Rinv_0_lt_compat | nra].
Qed.

Lemma theta_step (n : Z) (i : nat) : (0 < n)%Z -> theta n i < theta n (S i).
Proof.
  intros Hn. assert (Hn' : 0 < IZR n) by (now apply IZR_lt).
  assert (Hpi := PI_RGT_0). unfold theta. rewrite S_INR.
  unfold Rdiv. apply Rmult_lt_compat_r; [now apply Rinv_0_lt_compat | nra].
Qed.

Lemma d_shaft_point_on_ray (d f : R) (n : Z) (i : nat) :
  0 < d -> 0 < f - d / 2 -> on_ray (theta n i) (d_shaft_point d f n i).
Proof.
  intros Hd Hcut. unfold d_shaft_point. cbv zeta.
  destruct (Rgtb_spec (d / 2 * cos (theta n i)) (f - d / 2)) as [H|H].
  - assert (Hc : 0 < cos (theta n i)) by nra.
    exists ((f - d / 2) / cos (theta n i)). split.
    + now apply Rdiv_lt_0_compat.
    + unfold tan. f_equal; field; lra.
  - exists (d / 2). split; [lra | reflexivity].
Qed.

(** X17: for a positive diameter, a protrusion ratio in [0, 1], at least
    three sides and a positive D-shaft cut distance, point [i] of each of
    the four profiles lies on the ray from the origin at angle
    [2*pi*i/segments], at a positive distance; these angles lie in
    [0, 2*pi) and grow with [i]. *)
Theorem profile_points_on_rays (d : R) (lobes : Z) (ratio f : R)
        (sides segments : Z) (i : nat) :
  0 < d -> 0 <= ratio <= 1 -> (3 <= sides)%Z -> 0 < f - d / 2 ->
  (i < Z.to_nat segments)%nat ->
  let angle := fun k : nat => 2 * PI * INR k / IZR segments in
  exists circle lobed d_shaft polygon,
    create_circle_profile d segments = Ok circle
    /\ create_lobed_profile d lobes ratio segments = Ok lobed
    /\ create_d_shaft_profile d f segments = Ok d_shaft
    /\ create_polygon_profile d sides segments = Ok polygon
    /\ on_ray (angle i) (nth i circle origin2)
    /\ on_ray (angle i) (nth i lobed origin2)
    /\ on_ray (angle i) (nth i d_shaft origin2)
    /\ on_ray (angle i) (nth i polygon origin2)
    /\ 0 <= angle i < 2 * PI
    /\ angle i < angle (S i).
Proof.
  intros Hd Hr Hs Hcut Hi angle.
  exists (map (circle_point d segments) (range segments)),
         (map (lobed_point d lobes ratio segments) (range segments)),
         (map (d_shaft_point d f segments) (range segments)),
         (map (polygon_point d sides segments) (range segments)).
  rewrite !nth_map_range by assumption.
  change (angle i) with (theta segments i).
  change (angle (S i)) with (theta segments (S i)).
  split; [apply create_circle_profile_eq|].
  split; [apply create_lobed_profile_eq|].
  split; [apply create_d_shaft_profile_eq|].
  split; [now apply create_polygon_profile_eq|].
  split; [|split; [|split; [|split; [|split]]]].
  - exists (d / 2). split; [lra | reflexivity].
  - exists (lobed_radius d lobes ratio segments i). split; [|reflexivity].
    pose proof (lobed_radius_bounds d lobes ratio segments i ltac:(lra) Hr). nra.
  - now apply d_shaft_point_on_ray.
  - exists (polygon_radius d sides segments i). split; [|reflexivity].
    pose proof (polygon_radius_bounds d sides segments i Hs ltac:(lra)). lra.
  - now apply theta_range.
  - apply theta_step. lia.
Qed.

Lemma profile_points_on_rays_witness :
  let angle := fun k : nat => 2 * PI * INR k / IZR 64 in
  exists circle lobed d_shaft polygon,
    create_circle_profile 25 64 = Ok circle
    /\ create_lobed_profile 25 5 0.3 64 = Ok lobed
    /\ create_d_shaft_profile 25 20 64 = Ok d_shaft
    /\ create_polygon_profile 25 6 64 = Ok polygon
    /\ on_ray (angle 7%nat) (nth 7 circle origin2)
    /\ on_ray (angle 7%nat) (nth 7 lobed origin2)
    /\ on_ray (angle 7%nat) (nth 7 d_shaft origin2)
    /\ on_ray (angle 7%nat) (nth 7 polygon origin2)
    /\ 0 <= angle 7%nat < 2 * PI
    /\ angle 7%nat < angle 8%nat.
Proof.
  apply (profile_points_on_rays 25 5 0.3 20 6 64 7); try lra; simpl; lia.
Defined.

(** ** The accumulators *)

(** X16: the builders only append: after a call's builders have run from
    accumulators holding anything, the old vertices and faces are still
    there, in place and unchanged, followed by the new ones; and if the old
    faces indexed in bounds, all faces do. *)
Theorem accumulators_append_only (p : KnobParams) (st st' : MeshState) :
  build_knob p st = Ok (tt, st') ->
  exists vs fs,
    all_vertices st' = all_vertices st ++ vs
    /\ all_faces st' = all_faces st ++ fs
    /\ (faces_in_bounds st -> faces_in_bounds st').
Proof.
  intros H. destruct (patchy_build_knob p) as [r [Hw Hwf]].
  rewrite (Hw st) in H. destruct r as [[[] P]|e]; [|discriminate].
  inversion H; subst st'.
  exists (pverts P), (map (shift_face (length (all_vertices st))) (pfaces P)).
  repeat split. intros Hb. now apply emit_patch_in_bounds.
Qed.

Lemma accumulators_append_only_witness :
  exists vs fs,
    all_vertices (emit_patch (plain_patch (plain_knob 3)) empty_mesh_state)
    = all_vertices empty_mesh_state ++ vs
    /\ all_faces (emit_patch (plain_patch (plain_knob 3)) empty_mesh_state)
       = all_faces empty_mesh_state ++ fs
    /\ (faces_in_bounds empty_mesh_state ->
        faces_in_bounds (emit_patch (plain_patch (plain_knob 3)) empty_mesh_state)).
Proof.
  apply (accumulators_append_only (plain_knob 3)).
  apply plain_build; [|simpl; lia].
  unfold plain_round_blind, plain_knob; simpl; repeat split; lra.
Defined.

(** ** More on the dish, the pocket and the bore *)

Lemma dish_radius_blind (p : KnobParams) (s : nat) :
  through_hole p = false -> 0 <= recess_diameter p -> (s <= 5)%nat ->
  dish_radius p s = recess_diameter p / 2 * (1 - INR s / 5).
Proof.
  intros Hth Hd Hs. unfold dish_radius, dish_hole_r. rewrite Hth. cbv zeta.
  assert (Hi : INR s <= 5).
  { replace 5 with (INR 5) by (rewrite INR_lit; reflexivity). now apply le_INR. }
  rewrite Rltb_false; [reflexivity|]. assert (0 <= 1 - INR s / 5) by lra. nra.
Qed.

Lemma dish_steps_run_blind (p : KnobParams) :
  through_hole p = false -> 0.01 < recess_diameter p ->
  dish_steps_run p (seq 1 5) = seq 1 5.
Proof.
  intros Hth Hd.
  assert (Hh : dish_hole_r p = 0) by (unfold dish_hole_r; now rewrite Hth).
  assert (Hstep : forall s, (1 <= s <= 4)%nat ->
                  Rleb (dish_radius p s) (dish_hole_r p + 0.001) = false).
  { intros s Hs. rewrite dish_radius_blind by (try assumption; lra || lia).
    rewrite Hh. apply Rleb_false.
    assert (Hi : INR s <= 4).
    { replace 4 with (INR 4) by (rewrite INR_lit; reflexivity). apply le_INR. lia. }
    nra. }
  simpl. rewrite !Hstep by lia.
  destruct (Rleb (dish_radius p 5) (dish_hole_r p + 0.001)); reflexivity.
Qed.

(** X21: a blind dish at least 5 wide, the smallest the application
    offers, runs all five steps and bottoms out on the axis at the full
    depth: its last ring has every point at
    [(0, 0, z_top_mesh - recess_depth)]. *)
Theorem blind_dish_bottom (p : KnobParams) (z_top_mesh : R) (start : list Point3) :
  through_hole p = false -> 5 <= recess_diameter p ->
  exists rings final,
    dish_loop p z_top_mesh 0 (range1 5) [start] = Ok rings
    /\ length rings = 6%nat
    /\ py_last rings = Ok final
    /\ length final = Z.to_nat (segments p)
    /\ Forall (fun q => q = (0, 0, z_top_mesh - recess_depth p)) final.
Proof.
  intros Hth Hd.
  assert (Hh : dish_hole_r p = 0) by (unfold dish_hole_r; now rewrite Hth).
  exists ([start] ++ map (dish_ring p z_top_mesh) (seq 1 5)),
         (dish_ring p z_top_mesh 5).
  split; [|split; [|split; [|split]]].
  - rewrite <- Hh. unfold range1. rewrite dish_loop_eq.
    now rewrite dish_steps_run_blind by (assumption || lra).
  - reflexivity.
  - reflexivity.
  - apply dish_ring_length.
  - unfold dish_ring. apply Forall_map, Forall_forall. intros i _.
    rewrite dish_radius_5 by lra. rewrite Hh. unfold dish_z. INR_lits.
    f_equal; [f_equal|]; field.
Qed.

Lemma blind_dish_bottom_witness :
  exists rings final,
    dish_loop (dish_knob 32) 15 0 (range1 5) [[]] = Ok rings
    /\ length rings = 6%nat
    /\ py_last rings = Ok final
    /\ length final = Z.to_nat 32
    /\ Forall (fun q => q = (0, 0, 15 - 5)) final.
Proof.
  apply (blind_dish_bottom (dish_knob 32) 15 []).
  - reflexivity.
  - simpl. lra.
Defined.

Lemma transition_patch_verts (Q : Point3 -> Prop) (n : nat)
      (trap shaft : list Point2) (h : R) :
  (forall v : Point2, Q (at_z h v)) ->
  Forall Q (pverts (transition_patch n trap shaft h)).
Proof.
  intros HQ. unfold transition_patch.
  rewrite pverts_concat, flat_map_concat_map, map_map, <- flat_map_concat_map.
  apply Forall_flat_map_intro. intros i _. simpl. repeat constructor; apply HQ.
Qed.

Lemma wall_patch_heights (n : nat) (prof : list Point2) (z_lo z_hi : R) :
  Forall (fun v => pz v = z_lo \/ pz v = z_hi) (pverts (wall_patch n prof z_lo z_hi)).
Proof.
  unfold wall_patch.
  rewrite pverts_concat, flat_map_concat_map, map_map, <- flat_map_concat_map.
  apply Forall_flat_map_intro. intros i _. simpl.
  repeat constructor; (now left) || (now right).
Qed.

(** X20: the hex pocket is built at the bottom only.  For a nut trap with
    [nut_info] and location Bottom the pocket builder appends four
    triangles per segment, the pocket wall between [z = 0] and
    [nut height + 0.2] and the flat ring at that height; for any other
    location, or without [nut_info], it appends nothing. *)
Theorem nut_pocket_is_bottom_only (p : KnobParams) :
  shaft_type p = "Nut Trap"%string ->
  exists P,
    (forall st, nut_trap_pocket p st = Ok (tt, emit_patch P st))
    /\ match nut_info p with
       | Some ni =>
           if String.eqb (nut_location p) "Bottom" then
             nfaces P = (4 * Z.to_nat (segments p))%nat
             /\ Forall (fun v => pz v = 0 \/ pz v = height ni + 0.2) (pverts P)
           else P = empty_patch
       | None => P = empty_patch
       end.
Proof.
  intros Hsh.
  assert (Hnt : is_nut_trap p = true) by (unfold is_nut_trap; now rewrite Hsh).
  exists (nut_pocket_patch p). split; [apply nut_trap_pocket_writes|].
  unfold nut_pocket_patch. rewrite Hnt. destruct (nut_info p) as [ni|]; [|reflexivity].
  fold (nut_at_bottom p). simpl. destruct (nut_at_bottom p); [|reflexivity].
  split.
  - rewrite nfaces_app, nfaces_wall, nfaces_transition. lia.
  - unfold patch_app. cbn [pverts]. apply Forall_app. split.
    + apply wall_patch_heights.
    + apply transition_patch_verts. intros v. now right.
Qed.

Lemma nut_pocket_is_bottom_only_witness :
  exists P,
    (forall st,
        nut_trap_pocket (nut_trap_knob (Some m3_nut) "Bottom" 32) st
        = Ok (tt, emit_patch P st))
    /\ nfaces P = (4 * Z.to_nat 32)%nat
    /\ Forall (fun v => pz v = 0 \/ pz v = 2.4 + 0.2) (pverts P).
Proof.
  apply (nut_pocket_is_bottom_only (nut_trap_knob (Some m3_nut) "Bottom" 32)).
  reflexivity.
Defined.

Lemma fan_patch_heights (z : R) (prof : list Point2) (n : nat) :
  length prof = n ->
  Forall (fun v => pz v = z)
         (pverts (fan_patch (0, 0, z) (fan_pairs n (map (at_z z) prof)))).
Proof.
  intros Hlen. unfold fan_patch. cbn [pverts]. constructor; [reflexivity|].
  apply Forall_flat_map_intro. intros [a b] Hin. unfold fan_pairs in Hin.
  apply in_map_iff in Hin. destruct Hin as [i [Heq Hi]]. apply in_seq in Hi.
  inversion Heq; subst a b. clear Heq.
  assert (Hs : (succ_mod n i < n)%nat) by (apply succ_mod_lt; lia).
  assert (Hz : Forall (fun v => pz v = z) (map (at_z z) prof)).
  { apply Forall_map, Forall_forall. now intros v _. }
  simpl. repeat constructor; apply Forall_nth; try assumption;
    rewrite length_map; lia.
Qed.

(** X19: a blind hole is never clamped to the knob: for a shaft that is
    not a nut trap and a positive [hole_depth], the bore builder appends
    the wall from [z = 0] to [z = hole_depth] and the cap at
    [z = hole_depth], three triangles per segment, whatever the knob
    height and whatever limit the top closure handed over. *)
Theorem blind_bore_ignores_height (p : KnobParams) (prof : list Point2)
        (z_limit : R) :
  through_hole p = false ->
  shaft_type p <> "Nut Trap"%string ->
  0 < hole_depth p ->
  shaft_profile_of p = Ok prof ->
  exists P,
    (forall st, shaft_bore p prof z_limit st = Ok (tt, emit_patch P st))
    /\ nfaces P = (3 * Z.to_nat (segments p))%nat
    /\ Forall (fun v => pz v = 0 \/ pz v = hole_depth p) (pverts P).
Proof.
  intros Hth Hsh Hd Hprof.
  assert (Hnt : is_nut_trap p = false).
  { unfold is_nut_trap. now apply String.eqb_neq. }
  assert (Hlen : length prof = Z.to_nat (segments p)).
  { rewrite shaft_profile_eq in Hprof. inversion Hprof. apply shaft_points_length. }
  eexists. split; [|split].
  - apply shaft_bore_blind; assumption || lra.
  - rewrite nfaces_app, nfaces_wall, nfaces_fan, fan_pairs_length. lia.
  - unfold patch_app. cbn [pverts]. apply Forall_app. split.
    + apply wall_patch_heights.
    + eapply Forall_impl; [|now apply fan_patch_heights].
      intros v Hv. now right.
Qed.

Lemma blind_bore_ignores_height_witness :
  exists P,
    (forall st,
        shaft_bore (plain_knob 32) (shaft_points (plain_knob 32)) 0 st
        = Ok (tt, emit_patch P st))
    /\ nfaces P = (3 * Z.to_nat 32)%nat
    /\ Forall (fun v => pz v = 0 \/ pz v = 10) (pverts P).
Proof.
  apply (blind_bore_ignores_height (plain_knob 32)).
  - reflexivity.
  - discriminate.
  - simpl. lra.
  - apply shaft_profile_eq.
Defined.

(** ** The open top *)





(** ** Heights of the ring stack *)

Lemma ring_z_map (f : Point2 -> Point3) (prof : list Point2) (z : R) :
  (0 < length prof)%nat -> (forall q, pz (f q) = z) -> ring_z (map f prof) = z.
Proof.
  intros Hlen Hf. unfold ring_z. destruct prof as [|q qs]; [simpl in Hlen; lia|].
  simpl. apply Hf.
Qed.

Lemma ring_z_ring_at (z : R) (prof : list Point2) :
  (0 < length prof)%nat -> ring_z (ring_at z prof) = z.
Proof. intros H. unfold ring_at. now apply ring_z_map. Qed.

Lemma ring_z_bottom_fillet (p : KnobParams) (z_base : R) (prof : list Point2)
      (s : nat) :
  (0 < length prof)%nat ->
  ring_z (bottom_fillet_ring p z_base prof s)
  = z_base + bottom_fillet_height p * (INR s / 6).
Proof. intros H. unfold bottom_fillet_ring. now apply ring_z_map. Qed.

Lemma ring_z_top_fillet (p : KnobParams) (z : R) (prof : list Point2) (s : nat) :
  (0 < length prof)%nat ->
  ring_z (top_fillet_ring p z prof s) = z + top_fillet_height p * (INR s / 8).
Proof. intros H. unfold top_fillet_ring. now apply ring_z_map. Qed.

Lemma ring_z_dome (zt zfs : R) (prof : list Point2) (s : nat) :
  (0 < length prof)%nat ->
  ring_z (dome_ring zt zfs prof s) = zfs + (zt - zfs) * (INR s / 12).
Proof. intros H. unfold dome_ring. now apply ring_z_map. Qed.

Ltac ring_heights Hb Hs :=
  cbn [map seq app];
  rewrite ?ring_z_ring_at, ?ring_z_bottom_fillet, ?ring_z_top_fillet, ?ring_z_dome
    by (exact Hb || exact Hs);
  change (INR 0) with 0; INR_lits.

Ltac chain_le :=
  cbn [nondecreasing]; unfold Rmax in *;
  repeat match goal with
         | |- context [Rle_dec ?a ?b] => destruct (Rle_dec a b)
         end;
  repeat split; lra.

(** X22: the ring stack rises from the ground: for fillet heights [>= 0]
    (and, under a dome, a bottom fillet no higher than the knob) the first
    ring is at height 0 and no ring is lower than the ring before it. *)
Theorem ring_stack_rises (p : KnobParams) (body boss : list Point2)
        (rings : list (list Point3)) (z_base : R) :
  (1 <= segments p)%Z ->
  0 <= bottom_fillet_height p -> 0 <= top_fillet_height p ->
  (is_dome p = true -> bottom_fillet_height p <= knob_height p) ->
  0 <= knob_height p ->
  body_profile_of p = Ok body ->
  boss_profile_of p = Ok boss ->
  outer_shell_rings p body boss = Ok (rings, z_base) ->
  ring_z (nth 0 rings []) = 0 /\ nondecreasing (map ring_z rings).
Proof.
  intros HN Hbf Htf Hdome HH Hb Hs Hr.
  destruct (shell_of_call p body boss rings z_base Hb Hs Hr) as [-> _].
  clear Hb Hs Hr.
  assert (Hlb : (0 < length (body_points p))%nat) by (rewrite body_points_length; lia).
  assert (Hls : (0 < length (boss_points p))%nat) by (rewrite boss_points_length; lia).
  split.
  - assert (Hin := knob_rings_first p).
    unfold ring_z. apply Hin. apply nth_0_In. rewrite knob_rings_bottom_length. lia.
  - unfold knob_rings, shell_rings, shell_z_fillet_start, shell_current_z,
      shell_z_base.
    destruct (Rgtb_spec (boss_height p) 0.1) as [Hboss|Hboss];
      destruct (has_bottom_fillet p);
      destruct (is_dome p) eqn:Hd;
      try specialize (Hdome eq_refl);
      try destruct (has_top_fillet p);
      ring_heights Hlb Hls; chain_le.
Qed.

Lemma ring_stack_rises_witness :
  ring_z (nth 0 (knob_rings (dome_knob 32)) []) = 0
  /\ nondecreasing (map ring_z (knob_rings (dome_knob 32))).
Proof.
  apply (ring_stack_rises (dome_knob 32) (body_points (dome_knob 32))
                          (boss_points (dome_knob 32)) _
                          (shell_z_base (dome_knob 32))).
  - simpl. lia.
  - simpl. lra.
  - simpl. lra.
  - intros _. simpl. lra.
  - simpl. lra.
  - apply body_profile_eq.
  - apply boss_profile_eq.
  - apply outer_shell_rings_eq.
Defined.
